(** * DocForge: state store, step graph, validation and content hashing

    A shallow embedding of the state/approval core of docforge-agents
    (src/state/types.ts, src/state/machine.ts, src/state/store.ts,
    src/utils/hash.ts, src/utils/validation.ts, src/utils/files.ts, the
    commands init, approve, continue and prompts, the prompt agent) over a
    disk of files and directories with the paths of [path.join], and the
    properties of the design document that are about it. *)

From Stdlib Require Import ZArith NArith List String Ascii Bool Lia.
From Stdlib Require Import Floats.PrimFloat Floats.SpecFloat Floats.FloatOps.
From Stdlib Require Import Numbers.Cyclic.Int63.Uint63.
From Stdlib Require DecimalZ DecimalFacts.
From stdpp Require Import base option list gmap.

Import ListNotations.
Local Open Scope Z_scope.

(* ===================================================================== *)
(** ** JavaScript strings *)
(* ===================================================================== *)

(** A JavaScript string is a sequence of UTF-16 code units. Literals of
    the source are ASCII and are written through [js]. *)
Module JsString.

Abbreviation jsstring := (list Z).

Definition js (s : string) : jsstring :=
  map (fun a => Z.of_N (N_of_ascii a)) (list_ascii_of_string s).

Definition eqb (a b : jsstring) : bool := bool_decide (a = b).

(** WhiteSpace and LineTerminator of ECMAScript: what [String.prototype.trim]
    strips and what the class [\s] of a RegExp accepts. *)
Definition isWhiteSpace (c : Z) : bool :=
  (c =? 0x0009) || (c =? 0x000A) || (c =? 0x000B) || (c =? 0x000C) ||
  (c =? 0x000D) || (c =? 0x0020) || (c =? 0x00A0) || (c =? 0x1680) ||
  ((0x2000 <=? c) && (c <=? 0x200A)) ||
  (c =? 0x2028) || (c =? 0x2029) || (c =? 0x202F) || (c =? 0x205F) ||
  (c =? 0x3000) || (c =? 0xFEFF).

(** LineTerminator: where [^] matches under flag m, what [.] refuses. *)
Definition isLineTerminator (c : Z) : bool :=
  (c =? 0x000A) || (c =? 0x000D) || (c =? 0x2028) || (c =? 0x2029).

Fixpoint trimStart (s : jsstring) : jsstring :=
  match s with
  | c :: s' => if isWhiteSpace c then trimStart s' else s
  | [] => []
  end.

Definition trimEnd (s : jsstring) : jsstring := rev (trimStart (rev s)).

(** [s.trim()] *)
Definition trim (s : jsstring) : jsstring := trimEnd (trimStart s).

(** [s.replace(/\r\n/g, '\n')] *)
Fixpoint replaceCRLF (s : jsstring) : jsstring :=
  match s with
  | 0x0D :: 0x0A :: s' => 0x0A :: replaceCRLF s'
  | c :: s' => c :: replaceCRLF s'
  | [] => []
  end.

(** The UTF-8 bytes of a string, as [Buffer.from(s, 'utf-8')] gives them:
    a surrogate pair is one code point of four bytes, a lone surrogate
    is replaced by U+FFFD. *)
Definition isHighSurrogate (c : Z) : bool := (0xD800 <=? c) && (c <=? 0xDBFF).
Definition isLowSurrogate (c : Z) : bool := (0xDC00 <=? c) && (c <=? 0xDFFF).

Definition utf8CodePoint (cp : Z) : list Z :=
  if cp <? 0x80 then [cp]
  else if cp <? 0x800 then
    [Z.lor 0xC0 (Z.shiftr cp 6); Z.lor 0x80 (Z.land cp 0x3F)]
  else if cp <? 0x10000 then
    [Z.lor 0xE0 (Z.shiftr cp 12);
     Z.lor 0x80 (Z.land (Z.shiftr cp 6) 0x3F);
     Z.lor 0x80 (Z.land cp 0x3F)]
  else
    [Z.lor 0xF0 (Z.shiftr cp 18);
     Z.lor 0x80 (Z.land (Z.shiftr cp 12) 0x3F);
     Z.lor 0x80 (Z.land (Z.shiftr cp 6) 0x3F);
     Z.lor 0x80 (Z.land cp 0x3F)].

Fixpoint utf8 (s : jsstring) : list Z :=
  match s with
  | [] => []
  | c :: s' =>
      if isHighSurrogate c then
        match s' with
        | d :: s'' =>
            if isLowSurrogate d then
              utf8CodePoint (0x10000 + Z.shiftl (c - 0xD800) 10 + (d - 0xDC00))
                ++ utf8 s''
            else utf8CodePoint 0xFFFD ++ utf8 s'
        | [] => utf8CodePoint 0xFFFD
        end
      else if isLowSurrogate c then utf8CodePoint 0xFFFD ++ utf8 s'
      else utf8CodePoint c ++ utf8 s'
  end.

End JsString.
Import JsString.

(* ===================================================================== *)
(** ** src/utils/hash.ts *)
(* ===================================================================== *)

(** [createHash('sha256')] of Node's crypto module is SHA-256 of FIPS 180-4,
    written out here on 32-bit words held in [Z]. *)
Module Sha256.

Definition mask32 : Z := 0xFFFFFFFF.
Definition add32 (a b : Z) : Z := Z.land (a + b) mask32.
Definition rotr (n x : Z) : Z :=
  Z.lor (Z.shiftr x n) (Z.land (Z.shiftl x (32 - n)) mask32).
Definition not32 (x : Z) : Z := Z.lxor x mask32.

Definition Ch (x y z : Z) : Z := Z.lxor (Z.land x y) (Z.land (not32 x) z).
Definition Maj (x y z : Z) : Z :=
  Z.lxor (Z.lxor (Z.land x y) (Z.land x z)) (Z.land y z).
Definition Sigma0 (x : Z) : Z := Z.lxor (Z.lxor (rotr 2 x) (rotr 13 x)) (rotr 22 x).
Definition Sigma1 (x : Z) : Z := Z.lxor (Z.lxor (rotr 6 x) (rotr 11 x)) (rotr 25 x).
Definition sigma0 (x : Z) : Z := Z.lxor (Z.lxor (rotr 7 x) (rotr 18 x)) (Z.shiftr x 3).
Definition sigma1 (x : Z) : Z := Z.lxor (Z.lxor (rotr 17 x) (rotr 19 x)) (Z.shiftr x 10).

(** The constants are given by the standard as the first 32 bits of the
    fractional parts of roots of the first primes: cube roots of the first 64
    for [K], square roots of the first 8 for [H0]. *)
Definition isPrime (n : Z) : bool :=
  (1 <? n) &&
  forallb (fun d => negb (n mod d =? 0)) (map Z.of_nat (seq 2 (Z.to_nat n - 2))).

Definition primes : list Z := List.filter isPrime (map Z.of_nat (seq 2 310)).

(** The largest [r] between [lo] and [hi] whose cube is at most [n]. *)
Fixpoint cubeRootBetween (fuel : nat) (lo hi n : Z) : Z :=
  match fuel with
  | O => lo
  | S fuel' =>
      if hi - lo <=? 1 then lo
      else
        let mid := (lo + hi) / 2 in
        if mid * mid * mid <=? n then cubeRootBetween fuel' mid hi n
        else cubeRootBetween fuel' lo mid n
  end.

Definition cubeRoot (n : Z) : Z := cubeRootBetween 48 0 (2 ^ 40) n.

Definition K : list Z :=
  map (fun p => Z.land (cubeRoot (p * 2 ^ 96)) mask32) primes.

Definition H0 : list Z :=
  map (fun p => Z.land (Z.sqrt (p * 2 ^ 64)) mask32) (firstn 8 primes).

(** Padding: the byte 0x80, zero bytes up to 56 modulo 64, and the length
    in bits on 8 bytes, big-endian. *)
Definition bigEndian (nbytes : nat) (x : Z) : list Z :=
  map (fun i => Z.land (Z.shiftr x (8 * Z.of_nat i)) 0xFF) (rev (seq 0 nbytes)).

Definition pad (msg : list Z) : list Z :=
  let len := Z.of_nat (length msg) in
  let zeros := Z.to_nat ((55 - len) mod 64) in
  msg ++ [0x80] ++ repeat 0 zeros ++ bigEndian 8 (8 * len).

Fixpoint wordsOf (bytes : list Z) : list Z :=
  match bytes with
  | a :: b :: c :: d :: rest =>
      Z.lor (Z.shiftl a 24) (Z.lor (Z.shiftl b 16) (Z.lor (Z.shiftl c 8) d))
        :: wordsOf rest
  | _ => []
  end.

(** The 16 words of a block, 16 at a time. *)
Fixpoint blocks (fuel : nat) (ws : list Z) : list (list Z) :=
  match fuel, ws with
  | S fuel', _ :: _ => firstn 16 ws :: blocks fuel' (skipn 16 ws)
  | _, _ => []
  end.

(** The message schedule, newest word first: [w] holds W(t-1), W(t-2), ... *)
Definition nextW (w : list Z) : Z :=
  add32 (add32 (sigma1 (nth 1 w 0)) (nth 6 w 0))
        (add32 (sigma0 (nth 14 w 0)) (nth 15 w 0)).

Fixpoint extend (n : nat) (w : list Z) : list Z :=
  match n with
  | O => w
  | S n' => extend n' (nextW w :: w)
  end.

Definition schedule (block : list Z) : list Z := rev (extend 48 (rev block)).

Record Vars := { va : Z; vb : Z; vc : Z; vd : Z; ve : Z; vf : Z; vg : Z; vh : Z }.

Definition round (v : Vars) (kw : Z * Z) : Vars :=
  let t1 := add32 (add32 (add32 (vh v) (Sigma1 (ve v)))
                         (add32 (Ch (ve v) (vf v) (vg v)) (fst kw))) (snd kw) in
  let t2 := add32 (Sigma0 (va v)) (Maj (va v) (vb v) (vc v)) in
  {| va := add32 t1 t2; vb := va v; vc := vb v; vd := vc v;
     ve := add32 (vd v) t1; vf := ve v; vg := vf v; vh := vg v |}.

Definition compress (h : list Z) (block : list Z) : list Z :=
  let v0 := {| va := nth 0 h 0; vb := nth 1 h 0; vc := nth 2 h 0; vd := nth 3 h 0;
               ve := nth 4 h 0; vf := nth 5 h 0; vg := nth 6 h 0; vh := nth 7 h 0 |} in
  let v := fold_left round (combine K (schedule block)) v0 in
  map (fun p => add32 (fst p) (snd p))
      (combine h [va v; vb v; vc v; vd v; ve v; vf v; vg v; vh v]).

Definition digest (msg : list Z) : list Z :=
  let ws := wordsOf (pad msg) in
  let h := fold_left compress (blocks (length ws) ws) H0 in
  flat_map (bigEndian 4) h.

Definition hexDigit (n : Z) : Z :=
  if n <? 10 then 48 + n else 97 + (n - 10).

(** [digest('hex')]: two lower-case hexadecimal digits a byte. *)
Definition hex (bytes : list Z) : jsstring :=
  flat_map (fun b => [hexDigit (Z.shiftr b 4); hexDigit (Z.land b 0xF)]) bytes.

End Sha256.

Module Hash.

(** [createHash('sha256').update(content, 'utf-8').digest('hex')] *)
Definition calculateHash (content : jsstring) : jsstring :=
  Sha256.hex (Sha256.digest (utf8 content)).

Definition calculateContentHash (content : jsstring) : jsstring :=
  let normalized := trim (replaceCRLF content) in
  calculateHash normalized.

Definition contentEquals (content1 content2 : jsstring) : bool :=
  JsString.eqb (calculateContentHash content1) (calculateContentHash content2).

End Hash.
Import Hash.

(* ===================================================================== *)
(** ** src/state/types.ts *)
(* ===================================================================== *)

Module Types.

(** Project metadata captured during init *)
Record ProjectMetadata := {
  name : jsstring;
  stack : list jsstring;
  constraints : list jsstring;
  createdAt : jsstring;
}.

(** Checkpoint response from user; [null] is [None] *)
Record CheckpointResponse := {
  stepId : jsstring;
  disagreements : option jsstring;
  clarifications : option jsstring;
  missedConstraints : option jsstring;
  respondedAt : jsstring;
}.

(** ['rfc' | 'plan' | 'rollout'] *)
Inductive DocumentType := rfc | plan | rollout.

Definition DocumentType_str (t : DocumentType) : jsstring :=
  match t with
  | rfc => js "rfc"
  | plan => js "plan"
  | rollout => js "rollout"
  end.

#[global] Instance DocumentType_eq_dec : EqDecision DocumentType.
Proof. solve_decision. Defined.

Record Approval := {
  documentType : DocumentType;
  contentHash : jsstring;
  approvedAt : jsstring;
}.

(** All possible step identifiers in the workflow *)
Inductive StepId :=
| rfc_problem | rfc_goals | rfc_approach | rfc_interfaces | rfc_alternatives
| rfc_complete
| plan_stages | plan_criteria | plan_complete
| rollout_risks | rollout_observability | rollout_procedures | rollout_complete
| prompts_generate
| complete.

(** The string each identifier is in the source. *)
Definition StepId_str (s : StepId) : jsstring :=
  match s with
  | rfc_problem => js "rfc.problem"
  | rfc_goals => js "rfc.goals"
  | rfc_approach => js "rfc.approach"
  | rfc_interfaces => js "rfc.interfaces"
  | rfc_alternatives => js "rfc.alternatives"
  | rfc_complete => js "rfc.complete"
  | plan_stages => js "plan.stages"
  | plan_criteria => js "plan.criteria"
  | plan_complete => js "plan.complete"
  | rollout_risks => js "rollout.risks"
  | rollout_observability => js "rollout.observability"
  | rollout_procedures => js "rollout.procedures"
  | rollout_complete => js "rollout.complete"
  | prompts_generate => js "prompts.generate"
  | complete => js "complete"
  end.

#[global] Instance StepId_eq_dec : EqDecision StepId.
Proof. solve_decision. Defined.

(** Stage definition for PLAN.md *)
Record Stage := {
  stage_id : Z;
  stage_name : jsstring;
  deliverables : list jsstring;
  dependencies : list jsstring;
  acceptanceCriteria : list jsstring;
  definitionOfDone : jsstring;
  validationNotes : jsstring;
}.

Inductive Severity := low | medium | high | critical.

(** Risk definition for ROLLOUT.md *)
Record Risk := {
  description : jsstring;
  severity : Severity;
  mitigation : jsstring;
}.

(** Document generation progress; an optional field that is not set is
    [None]. *)
Record RfcProgress := {
  problem : option jsstring;
  goals : option jsstring;
  nonGoals : option jsstring;
  approach : option jsstring;
  interfaces : option jsstring;
  alternatives : option jsstring;
  openQuestions : option jsstring;
  assumptions : option jsstring;
}.

Record PlanProgress := {
  stages : option (list Stage);
}.

Record RolloutProgress := {
  risks : option (list Risk);
  observability : option jsstring;
  rolloutSteps : option (list jsstring);
  killSwitch : option jsstring;
  rollback : option jsstring;
  stopConditions : option (list jsstring);
}.

Record DocumentProgress := {
  progress_rfc : RfcProgress;
  progress_plan : PlanProgress;
  progress_rollout : RolloutProgress;
}.

(** Document hashes for change detection *)
Record DocumentHashes := {
  hash_rfc : option jsstring;
  hash_plan : option jsstring;
  hash_rollout : option jsstring;
}.

(** Complete DocForge state *)
Record DocForgeState := {
  version : Z;
  project : ProjectMetadata;
  currentStep : StepId;
  checkpointResponses : list CheckpointResponse;
  approvals : list Approval;
  documentHashes : DocumentHashes;
  documentProgress : DocumentProgress;
  strictMode : bool;
}.

(** [Partial<DocForgeState>]: every field may be left out. A field that is
    there holds a value of its type (a key set to [undefined] is not
    modelled). *)
Record PartialState := {
  p_version : option Z;
  p_project : option ProjectMetadata;
  p_currentStep : option StepId;
  p_checkpointResponses : option (list CheckpointResponse);
  p_approvals : option (list Approval);
  p_documentHashes : option DocumentHashes;
  p_documentProgress : option DocumentProgress;
  p_strictMode : option bool;
}.

Definition emptyRfcProgress : RfcProgress :=
  {| problem := None; goals := None; nonGoals := None; approach := None;
     interfaces := None; alternatives := None; openQuestions := None;
     assumptions := None |}.

Definition emptyRolloutProgress : RolloutProgress :=
  {| risks := None; observability := None; rolloutSteps := None;
     killSwitch := None; rollback := None; stopConditions := None |}.

(** Initial state factory *)
Definition createInitialState (project : ProjectMetadata) : DocForgeState :=
  {| version := 1;
     project := project;
     currentStep := rfc_problem;
     checkpointResponses := [];
     approvals := [];
     documentHashes := {| hash_rfc := None; hash_plan := None; hash_rollout := None |};
     documentProgress :=
       {| progress_rfc := emptyRfcProgress;
          progress_plan := {| stages := None |};
          progress_rollout := emptyRolloutProgress |};
     strictMode := false |}.

End Types.
Import Types.

(* ===================================================================== *)
(** ** src/state/machine.ts *)
(* ===================================================================== *)

Module Machine.

Inductive Phase := phase_rfc | phase_plan | phase_rollout | phase_prompts.

Definition Phase_str (p : Phase) : jsstring :=
  match p with
  | phase_rfc => js "rfc"
  | phase_plan => js "plan"
  | phase_rollout => js "rollout"
  | phase_prompts => js "prompts"
  end.

(** Step definition with metadata *)
Record StepDefinition := {
  id : StepId;
  phase : Phase;
  label : jsstring;
  isCheckpoint_ : bool;
  next : option StepId;
}.

Definition mkStep i p l c n : StepDefinition :=
  {| id := i; phase := p; label := js l; isCheckpoint_ := c; next := n |}.

(** All steps in the workflow: [STEPS[stepId]], the entry of the table
    under the key [stepId]. *)
Definition STEPS (stepId : StepId) : StepDefinition :=
  match stepId with
  | rfc_problem => mkStep rfc_problem phase_rfc "Problem Statement" true (Some rfc_goals)
  | rfc_goals => mkStep rfc_goals phase_rfc "Goals and Non-Goals" true (Some rfc_approach)
  | rfc_approach => mkStep rfc_approach phase_rfc "Approach" true (Some rfc_interfaces)
  | rfc_interfaces =>
      mkStep rfc_interfaces phase_rfc "Interfaces & Contracts" true (Some rfc_alternatives)
  | rfc_alternatives =>
      mkStep rfc_alternatives phase_rfc "Alternatives & Tradeoffs" true (Some rfc_complete)
  | rfc_complete => mkStep rfc_complete phase_rfc "RFC Complete" false (Some plan_stages)
  | plan_stages => mkStep plan_stages phase_plan "Stage Breakdown" true (Some plan_criteria)
  | plan_criteria =>
      mkStep plan_criteria phase_plan "Acceptance Criteria" true (Some plan_complete)
  | plan_complete => mkStep plan_complete phase_plan "Plan Complete" false (Some rollout_risks)
  | rollout_risks =>
      mkStep rollout_risks phase_rollout "Risk Analysis" true (Some rollout_observability)
  | rollout_observability =>
      mkStep rollout_observability phase_rollout "Observability Plan" true
        (Some rollout_procedures)
  | rollout_procedures =>
      mkStep rollout_procedures phase_rollout "Rollout & Rollback Procedures" true
        (Some rollout_complete)
  | rollout_complete =>
      mkStep rollout_complete phase_rollout "Rollout Complete" false (Some prompts_generate)
  | prompts_generate =>
      mkStep prompts_generate phase_prompts "Generate Stage Prompts" false (Some complete)
  | complete => mkStep complete phase_prompts "All Complete" false None
  end.

(** The keys of [STEPS], in the order the table lists them. *)
Definition STEPS_keys : list StepId :=
  [ rfc_problem; rfc_goals; rfc_approach; rfc_interfaces; rfc_alternatives;
    rfc_complete;
    plan_stages; plan_criteria; plan_complete;
    rollout_risks; rollout_observability; rollout_procedures; rollout_complete;
    prompts_generate;
    complete ].

Definition getStep (stepId : StepId) : StepDefinition := STEPS stepId.

Definition getNextStep (currentStepId : StepId) : option StepId :=
  next (STEPS currentStepId).

Definition isCheckpoint (stepId : StepId) : bool := isCheckpoint_ (STEPS stepId).

Definition getPhase (stepId : StepId) : Phase := phase (STEPS stepId).

Definition getStepLabel (stepId : StepId) : jsstring := label (STEPS stepId).

Definition advanceStep (state : DocForgeState) : option StepId :=
  let nextStep := getNextStep (currentStep state) in
  nextStep.

(** [Object.values(STEPS).filter(step => step.phase === phase)] *)
Definition getPhaseSteps (ph : Phase) : list StepDefinition :=
  List.filter (fun step => JsString.eqb (Phase_str (phase step)) (Phase_str ph))
              (map STEPS STEPS_keys).

(** [Array.prototype.indexOf] on strings: the first index, or -1. *)
Fixpoint indexOfFrom (i : Z) (l : list jsstring) (x : jsstring) : Z :=
  match l with
  | [] => -1
  | y :: l' => if JsString.eqb y x then i else indexOfFrom (i + 1) l' x
  end.

Definition indexOf (l : list jsstring) (x : jsstring) : Z := indexOfFrom 0 l x.

(** Check if a phase is complete. The parameter has the three values of
    ['rfc' | 'plan' | 'rollout']. *)
Definition isPhaseComplete (state : DocForgeState) (ph : DocumentType) : bool :=
  let completeStepId := DocumentType_str ph ++ js ".complete" in
  let currentPhase := getPhase (currentStep state) in
  let phaseOrder := [js "rfc"; js "plan"; js "rollout"; js "prompts"] in
  let currentPhaseIndex := indexOf phaseOrder (Phase_str currentPhase) in
  let targetPhaseIndex := indexOf phaseOrder (DocumentType_str ph) in
  (currentPhaseIndex >? targetPhaseIndex)
  || JsString.eqb (StepId_str (currentStep state)) completeStepId.

(** [Object.keys(STEPS)] *)
Definition allSteps : list jsstring := map StepId_str STEPS_keys.

Definition getRemainingSteps (state : DocForgeState) : Z :=
  let currentIndex := indexOf allSteps (StepId_str (currentStep state)) in
  Z.of_nat (length allSteps) - currentIndex - 1.

End Machine.
Import Machine.

(* ===================================================================== *)
(** ** src/utils/validation.ts *)
(* ===================================================================== *)

(** The regular expressions of the section tables, and [RegExp.prototype.test]
    on them. Every pattern carries the flags m and i and none carries g, so
    [test] keeps no position between calls. *)
Module RegExp.

Inductive Atom :=
| Char (c : Z)        (* a character of the pattern *)
| WhiteSpaceClass     (* \s *)
| DigitClass          (* \d *)
| Dot.                (* . *)

Inductive RegExp :=
| Empty
| LineStart                  (* ^ *)
| One (a : Atom)
| Star (a : Atom)            (* a* *)
| Cat (r1 r2 : RegExp)
| Maybe (r : RegExp).        (* (?:r)? *)

(** a+ *)
Definition Plus (a : Atom) : RegExp := Cat (One a) (Star a).

Definition seqOf (rs : list RegExp) : RegExp := fold_right Cat Empty rs.

(** The characters of [s], one after the other. *)
Definition lit (s : string) : RegExp := seqOf (map (fun c => One (Char c)) (js s)).

(** Canonicalize under flag i (without flag u): a code unit is compared
    through its upper case, and a code unit from 128 on never canonicalizes
    to one below 128. The characters of the patterns are all below 128, so
    against them only the ASCII letters fold. *)
Definition canonicalize (c : Z) : Z :=
  if (97 <=? c) && (c <=? 122) then c - 32 else c.

Definition atomMatches (a : Atom) (c : Z) : bool :=
  match a with
  | Char p => canonicalize c =? canonicalize p
  | WhiteSpaceClass => isWhiteSpace c
  | DigitClass => (48 <=? c) && (c <=? 57)
  | Dot => negb (isLineTerminator c)
  end.

(** [^] under flag m: at the start of the input or after a line terminator.
    [prev] is the character before the position, if any. *)
Definition atLineStart (prev : option Z) : bool :=
  match prev with
  | None => true
  | Some c => isLineTerminator c
  end.

(** Matching with a continuation [k] that receives what is left of the
    input (and the character before it). *)
Fixpoint star (a : Atom) (k : option Z -> jsstring -> bool)
              (prev : option Z) (s : jsstring) {struct s} : bool :=
  if k prev s then true
  else
    match s with
    | c :: s' => if atomMatches a c then star a k (Some c) s' else false
    | [] => false
    end.

Fixpoint matchAt (r : RegExp) (k : option Z -> jsstring -> bool)
                 (prev : option Z) (s : jsstring) {struct r} : bool :=
  match r with
  | Empty => k prev s
  | LineStart => if atLineStart prev then k prev s else false
  | One a =>
      match s with
      | c :: s' => if atomMatches a c then k (Some c) s' else false
      | [] => false
      end
  | Star a => star a k prev s
  | Cat r1 r2 => matchAt r1 (matchAt r2 k) prev s
  | Maybe r' => if matchAt r' k prev s then true else k prev s
  end.

Fixpoint searchFrom (r : RegExp) (prev : option Z) (s : jsstring) {struct s} : bool :=
  if matchAt r (fun _ _ => true) prev s then true
  else
    match s with
    | c :: s' => searchFrom r (Some c) s'
    | [] => false
    end.

(** [r.test(s)]: does [r] match somewhere in [s]? *)
Definition test (r : RegExp) (s : jsstring) : bool := searchFrom r None s.

End RegExp.

Module Validation.
Import RegExp.

(** Section requirements for strict mode validation *)
Record SectionRequirement := {
  name : jsstring;
  required : bool;
  pattern : RegExp;
}.

Definition section (n : string) (req : bool) (p : list RegExp) : SectionRequirement :=
  {| name := js n; required := req; pattern := seqOf p |}.

Definition ws_star : RegExp := Star WhiteSpaceClass.
Definition ws_plus : RegExp := Plus WhiteSpaceClass.

(** RFC required sections *)
Definition RFC_SECTIONS : list SectionRequirement :=
  [ section "Problem Statement" true [LineStart; lit "##"; ws_star; lit "Problem"];
    section "Goals" true [LineStart; lit "##"; ws_star; lit "Goals"];
    section "Non-Goals" true [LineStart; lit "##"; ws_star; lit "Non-Goals"];
    section "Approach" true
      [LineStart; lit "##"; ws_star; Maybe (seqOf [lit "Proposed"; ws_plus]);
       lit "Approach"];
    section "Interfaces & Contracts" true [LineStart; lit "##"; ws_star; lit "Interfaces"];
    section "Alternatives" true [LineStart; lit "##"; ws_star; lit "Alternatives"];
    section "Open Questions" false
      [LineStart; lit "##"; ws_star; lit "Open"; ws_star; lit "Questions"];
    section "Assumptions" false [LineStart; lit "##"; ws_star; lit "Assumptions"] ].

(** Plan required sections *)
Definition PLAN_SECTIONS : list SectionRequirement :=
  [ section "Overview" true [LineStart; lit "##"; ws_star; lit "Overview"];
    section "Stages" true
      [LineStart; lit "##"; ws_star; lit "Stage"; ws_star; Plus DigitClass];
    section "Acceptance Criteria" true [lit "acceptance"; ws_star; lit "criteria"];
    section "Definition of Done" true
      [lit "definition"; ws_star; lit "of"; ws_star; lit "done"] ].

(** Rollout required sections *)
Definition ROLLOUT_SECTIONS : list SectionRequirement :=
  [ section "Key Risks" true
      [LineStart; lit "##"; ws_star; Maybe (seqOf [lit "Key"; ws_star]); lit "Risks"];
    section "Observability" true [LineStart; lit "##"; ws_star; lit "Observability"];
    section "Rollout Steps" true [LineStart; lit "##"; ws_star; lit "Rollout"];
    section "Kill Switch" true [lit "kill"; ws_star; lit "switch"];
    section "Rollback" true [LineStart; lit "##"; ws_star; lit "Rollback"];
    section "Stop Conditions" true [lit "stop"; Star Dot; lit "condition"] ].

(** Validation result *)
Record ValidationResult := {
  valid : bool;
  missingSections : list jsstring;
  warnings : list jsstring;
}.

(** One turn of the loop of [validateDocument] on the two arrays it fills. *)
Definition checkSection (content : jsstring)
    (acc : list jsstring * list jsstring) (section : SectionRequirement)
    : list jsstring * list jsstring :=
  let (missingSections, warnings) := acc in
  if negb (test (pattern section) content) then
    if required section then (missingSections ++ [name section], warnings)
    else (missingSections, warnings ++ [js "Optional section missing: " ++ name section])
  else (missingSections, warnings).

(** Validate a document against its requirements *)
Definition validateDocument (content : jsstring) (sections : list SectionRequirement)
    : ValidationResult :=
  let (missingSections, warnings) := fold_left (checkSection content) sections ([], []) in
  {| valid := (length missingSections =? 0)%nat;
     missingSections := missingSections;
     warnings := warnings |}.

Definition validateRfc (content : jsstring) : ValidationResult :=
  validateDocument content RFC_SECTIONS.

Definition validatePlan (content : jsstring) : ValidationResult :=
  validateDocument content PLAN_SECTIONS.

Definition validateRollout (content : jsstring) : ValidationResult :=
  validateDocument content ROLLOUT_SECTIONS.

(** Validate a document by type *)
Definition validateDocumentByType (documentType : DocumentType) (content : jsstring)
    : ValidationResult :=
  match documentType with
  | rfc => validateRfc content
  | plan => validatePlan content
  | rollout => validateRollout content
  end.

Record StrictCheck := {
  passes : bool;
  errors : list jsstring;
}.

(** Check if strict mode validation passes *)
Definition strictModeCheck (state : DocForgeState) (documentType : DocumentType)
    (content : jsstring) : StrictCheck :=
  if negb (strictMode state) then {| passes := true; errors := [] |}
  else
    let result := validateDocumentByType documentType content in
    if negb (valid result) then
      {| passes := false;
         errors := map (fun s => js "Missing required section: " ++ s)
                       (missingSections result) |}
    else {| passes := true; errors := [] |}.

End Validation.

Import RegExp Validation.

(* ===================================================================== *)
(** ** src/state/store.ts *)
(* ===================================================================== *)

Module Store.

(** The text of a file, as far as [JSON.parse] and the store tell one text
    from another:
    - [StateJson s] is [JSON.stringify(s, null, 2)] of a state [s]; parsing
      it gives [s] back;
    - [OtherJson text] is a text [JSON.parse] accepts whose value has not
      the fields of a [DocForgeState], such as [{}] or [null];
    - [NotJson text] is a text [JSON.parse] rejects with a SyntaxError. *)
Inductive FileText :=
| StateJson (s : DocForgeState)
| OtherJson (text : jsstring)
| NotJson (text : jsstring).

(** What [JSON.parse] returns. *)
Inductive JsonValue :=
| StateValue (s : DocForgeState)
| OtherValue (text : jsstring).

Definition JSON_stringify (state : DocForgeState) : FileText := StateJson state.

Definition JSON_parse (content : FileText) : option JsonValue :=
  match content with
  | StateJson s => Some (StateValue s)
  | OtherJson text => Some (OtherValue text)
  | NotJson _ => None
  end.

(** What a path of the disk holds: a regular file with its text, or a
    directory. *)
Inductive Node :=
| File (content : FileText)
| Directory.

(** The disk: what each path holds. The paths the store gives to [fs] come
    out of [path.join], which normalizes them, and are the keys. *)
Abbreviation Disk := (gmap jsstring Node).

(** What a call can throw. *)
Inductive Exception :=
| Error (message : jsstring)     (* [throw new Error(message)] *)
| ProcessExit (code : Z)         (* [process.exit(code)] *)
| NotAState.                     (* a value that is no [DocForgeState] was
                                    used as one: what JavaScript does with it
                                    depends on the value and is not modelled *)

Inductive Result (A : Type) :=
| Ok (a : A)
| Throw (e : Exception).
Arguments Ok {A} a.
Arguments Throw {A} e.

(** An asynchronous function of the store: it runs on the disk and leaves
    a result and the disk after it. *)
Definition IO (A : Type) : Type := Disk -> Result A * Disk.

Definition ret {A} (a : A) : IO A := fun d => (Ok a, d).
Definition throw {A} (e : Exception) : IO A := fun d => (Throw e, d).
Definition bind {A B} (m : IO A) (f : A -> IO B) : IO B :=
  fun d =>
    match m d with
    | (Ok a, d') => f a d'
    | (Throw e, d') => (Throw e, d')
    end.
(** [try { m } catch { h }] *)
Definition try_catch {A} (m : IO A) (h : Exception -> IO A) : IO A :=
  fun d =>
    match m d with
    | (Ok a, d') => (Ok a, d')
    | (Throw e, d') => h e d'
    end.

Notation "'await' x <- m ; f" := (bind m (fun x => f))
  (at level 10, x name, m at level 100, f at level 200,
   format "'[v' 'await'  x  <-  m ; '/' f ']'").
Notation "'await_' m ; f" := (bind m (fun _ => f))
  (at level 10, m at level 100, f at level 200,
   format "'[v' 'await_'  m ; '/' f ']'").

(** *** path (posix) *)

Definition SEP : Z := 0x2F.

(** [path.split('/')] *)
Fixpoint segments (path : jsstring) : list jsstring :=
  match path with
  | [] => [[]]
  | c :: path' =>
      if c =? SEP then [] :: segments path'
      else match segments path' with
           | seg :: segs => (c :: seg) :: segs
           | [] => [[c]]
           end
  end.

(** [segs.join('/')] *)
Fixpoint joinSegments (segs : list jsstring) : jsstring :=
  match segs with
  | [] => []
  | seg :: segs' =>
      match segs' with
      | [] => seg
      | _ :: _ => seg ++ SEP :: joinSegments segs'
      end
  end.

(** What [normalizeString] does with one segment of the path; [res] holds
    the segments kept so far, the last one first. An empty segment and "."
    are dropped; ".." removes the segment before it, and is kept only where
    nothing is left to remove in a relative path. *)
Definition normalizeSegment (allowAboveRoot : bool) (res : list jsstring)
    (seg : jsstring) : list jsstring :=
  if JsString.eqb seg [] || JsString.eqb seg (js ".") then res
  else if JsString.eqb seg (js "..") then
    match res with
    | top :: res' =>
        if JsString.eqb top (js "..") then (if allowAboveRoot then seg :: res else res)
        else res'
    | [] => if allowAboveRoot then [seg] else []
    end
  else seg :: res.

(** [path.normalize] *)
Definition normalize (path : jsstring) : jsstring :=
  match path with
  | [] => js "."
  | c :: _ =>
      let isAbsolute := c =? SEP in
      let trailingSeparator := List.last path 0 =? SEP in
      let res :=
        joinSegments
          (rev (fold_left (normalizeSegment (negb isAbsolute)) (segments path) [])) in
      match res with
      | [] => if isAbsolute then js "/" else if trailingSeparator then js "./" else js "."
      | _ :: _ =>
          (if isAbsolute then [SEP] else []) ++ res
            ++ (if trailingSeparator then [SEP] else [])
      end
  end.

(** [path.join(a, b)]: the arguments that are not empty, joined by a
    separator and normalized. *)
Definition join (a b : jsstring) : jsstring :=
  match a, b with
  | [], [] => js "."
  | [], _ :: _ => normalize b
  | _ :: _, [] => normalize a
  | _ :: _, _ :: _ => normalize (a ++ SEP :: b)
  end.

Fixpoint dropSeparators (s : jsstring) : jsstring :=
  match s with
  | c :: s' => if c =? SEP then dropSeparators s' else s
  | [] => []
  end.

(** What follows the first separator. *)
Fixpoint afterSeparator (s : jsstring) : option jsstring :=
  match s with
  | c :: s' => if c =? SEP then Some s' else afterSeparator s'
  | [] => None
  end.

(** [path.dirname]. The source scans the path from its end down to its
    second character, past the separators at the end and past the name
    before them, to the separator the directory ends at. *)
Definition dirname (path : jsstring) : jsstring :=
  match path with
  | [] => js "."
  | c :: rest =>
      let hasRoot := c =? SEP in
      match afterSeparator (dropSeparators (rev rest)) with
      | None => if hasRoot then js "/" else js "."
      | Some before =>
          match before with
          | [] => if hasRoot then js "//" else [c]
          | _ :: _ => c :: rev before
          end
      end
  end.

(** *** fs/promises

    The errors of the file system, by their code; the message of the source
    goes on with the system call and the path. *)
Definition ENOENT : Exception := Error (js "ENOENT: no such file or directory").
Definition EEXIST : Exception := Error (js "EEXIST: file already exists").
Definition ENOTDIR : Exception := Error (js "ENOTDIR: not a directory").
Definition EISDIR : Exception := Error (js "EISDIR: illegal operation on a directory").

(** The root and the working directory of the process are directories on
    every disk. The paths of the source start from [process.cwd()], an
    absolute path; of the relative ones only "." is taken to be there. *)
Definition alwaysThere (path : jsstring) : bool :=
  JsString.eqb path (js "/") || JsString.eqb path (js ".").

(** What the file system finds at a path. *)
Definition entry (d : Disk) (path : jsstring) : option Node :=
  if alwaysThere path then Some Directory else d !! path.

Definition access (path : jsstring) : IO unit :=
  fun d => match entry d path with
           | Some _ => (Ok tt, d)
           | None => (Throw ENOENT, d)
           end.

Definition readFile (path : jsstring) : IO FileText :=
  fun d => match entry d path with
           | Some (File content) => (Ok content, d)
           | Some Directory => (Throw EISDIR, d)
           | None => (Throw ENOENT, d)
           end.

(** [writeFile] replaces a file that is there, and creates one only in a
    directory that is there: it makes no directory. *)
Definition writeFile (path : jsstring) (content : FileText) : IO unit :=
  fun d => match entry d path with
           | Some (File _) => (Ok tt, <[path := File content]> d)
           | Some Directory => (Throw EISDIR, d)
           | None =>
               match entry d (dirname path) with
               | Some Directory => (Ok tt, <[path := File content]> d)
               | Some (File _) => (Throw ENOTDIR, d)
               | None => (Throw ENOENT, d)
               end
           end.

(** [mkdir(path, { recursive: true })]: nothing to do where the directory is
    there, EEXIST where a file is; otherwise the directory of the path is
    made first, with ENOTDIR where that meets a file. The directory of a
    path is shorter than the path, or is there: [fuel] is the length of the
    path. The empty path names nothing (ENOENT). *)
Fixpoint mkdirFrom (fuel : nat) (path : jsstring) (d : Disk) : Result unit * Disk :=
  match entry d path with
  | Some Directory => (Ok tt, d)
  | Some (File _) => (Throw EEXIST, d)
  | None =>
      match fuel with
      | O => (Throw ENOENT, d)
      | S fuel' =>
          match mkdirFrom fuel' (dirname path) d with
          | (Ok _, d') => (Ok tt, <[path := Directory]> d')
          | (Throw _, d') => (Throw ENOTDIR, d')
          end
      end
  end.

Definition mkdir (path : jsstring) : IO unit := mkdirFrom (length path) path.

Definition STATE_DIR : jsstring := js ".docforge".
Definition STATE_FILE : jsstring := js "state.json".

Definition getStateDirPath (cwd : jsstring) : jsstring := join cwd STATE_DIR.

Definition getStateFilePath (cwd : jsstring) : jsstring :=
  join (getStateDirPath cwd) STATE_FILE.

(** Check if a DocForge project exists in the current directory *)
Definition projectExists (cwd : jsstring) : IO bool :=
  try_catch (await_ access (getStateFilePath cwd); ret true) (fun _ => ret false).

(** Initialize a new DocForge project *)
Definition initializeProject (project : ProjectMetadata) (cwd : jsstring)
    : IO DocForgeState :=
  let stateDir := getStateDirPath cwd in
  let statePath := getStateFilePath cwd in
  await_ mkdir stateDir;
  let state := createInitialState project in
  await_ writeFile statePath (JSON_stringify state);
  ret state.

(** 'No DocForge project found. Run "docforge init" to create one.' *)
Definition noProjectFound : jsstring :=
  js "No DocForge project found. Run " ++ [34] ++ js "docforge init" ++ [34]
     ++ js " to create one.".

(** Load state from disk. The source returns [JSON.parse(content) as
    DocForgeState]: the value as parsed, with no check of its shape. *)
Definition loadState (cwd : jsstring) : IO JsonValue :=
  let statePath := getStateFilePath cwd in
  try_catch
    (await content <- readFile statePath;
     match JSON_parse content with
     | Some v => ret v
     | None => throw (Error (js "SyntaxError"))
     end)
    (fun error => throw (Error noProjectFound)).

(** The loaded value where the source goes on to use it as a state. *)
Definition asState (v : JsonValue) : IO DocForgeState :=
  match v with
  | StateValue s => ret s
  | OtherValue _ => throw NotAState
  end.

(** Save state to disk *)
Definition saveState (state : DocForgeState) (cwd : jsstring) : IO unit :=
  let statePath := getStateFilePath cwd in
  writeFile statePath (JSON_stringify state).

(** [{ ...state, ...updates }] *)
Definition spread (state : DocForgeState) (updates : PartialState) : DocForgeState :=
  {| version := default (version state) (p_version updates);
     project := default (project state) (p_project updates);
     currentStep := default (currentStep state) (p_currentStep updates);
     checkpointResponses :=
       default (checkpointResponses state) (p_checkpointResponses updates);
     approvals := default (approvals state) (p_approvals updates);
     documentHashes := default (documentHashes state) (p_documentHashes updates);
     documentProgress := default (documentProgress state) (p_documentProgress updates);
     strictMode := default (strictMode state) (p_strictMode updates) |}.

(** Update state with a partial update *)
Definition updateState (updates : PartialState) (cwd : jsstring) : IO DocForgeState :=
  await v <- loadState cwd;
  await state <- asState v;
  let newState := spread state updates in
  await_ saveState newState cwd;
  ret newState.

(** Assignments to one field of the state object. *)
Definition set_checkpointResponses (l : list CheckpointResponse) (s : DocForgeState)
    : DocForgeState :=
  {| version := version s; project := project s; currentStep := currentStep s;
     checkpointResponses := l; approvals := approvals s;
     documentHashes := documentHashes s; documentProgress := documentProgress s;
     strictMode := strictMode s |}.

Definition set_approvals (l : list Approval) (s : DocForgeState) : DocForgeState :=
  {| version := version s; project := project s; currentStep := currentStep s;
     checkpointResponses := checkpointResponses s; approvals := l;
     documentHashes := documentHashes s; documentProgress := documentProgress s;
     strictMode := strictMode s |}.

Definition set_documentHashes (h : DocumentHashes) (s : DocForgeState) : DocForgeState :=
  {| version := version s; project := project s; currentStep := currentStep s;
     checkpointResponses := checkpointResponses s; approvals := approvals s;
     documentHashes := h; documentProgress := documentProgress s;
     strictMode := strictMode s |}.

Definition set_strictMode (b : bool) (s : DocForgeState) : DocForgeState :=
  {| version := version s; project := project s; currentStep := currentStep s;
     checkpointResponses := checkpointResponses s; approvals := approvals s;
     documentHashes := documentHashes s; documentProgress := documentProgress s;
     strictMode := b |}.

(** [hashes[documentType]] and [hashes[documentType] = contentHash] *)
Definition getHash (h : DocumentHashes) (documentType : DocumentType) : option jsstring :=
  match documentType with
  | rfc => hash_rfc h
  | plan => hash_plan h
  | rollout => hash_rollout h
  end.

Definition setHash (documentType : DocumentType) (contentHash : jsstring)
    (h : DocumentHashes) : DocumentHashes :=
  match documentType with
  | rfc => {| hash_rfc := Some contentHash; hash_plan := hash_plan h;
              hash_rollout := hash_rollout h |}
  | plan => {| hash_rfc := hash_rfc h; hash_plan := Some contentHash;
               hash_rollout := hash_rollout h |}
  | rollout => {| hash_rfc := hash_rfc h; hash_plan := hash_plan h;
                  hash_rollout := Some contentHash |}
  end.

(** Record a checkpoint response. [now] is what [new Date().toISOString()]
    gives during the call. *)
Definition recordCheckpointResponse (now : jsstring)
    (stepId : jsstring) (disagreements clarifications missedConstraints : option jsstring)
    (cwd : jsstring) : IO DocForgeState :=
  await v <- loadState cwd;
  await state <- asState v;
  let response :=
    {| stepId := stepId;
       disagreements := disagreements;
       clarifications := clarifications;
       missedConstraints := missedConstraints;
       respondedAt := now |} in
  let state := set_checkpointResponses (checkpointResponses state ++ [response]) state in
  await_ saveState state cwd;
  ret state.

(** Record a document approval *)
Definition recordApproval (now : jsstring)
    (documentType : DocumentType) (content : jsstring) (cwd : jsstring)
    : IO DocForgeState :=
  await v <- loadState cwd;
  await state <- asState v;
  let contentHash := calculateHash content in
  (* Remove any existing approval for this document type *)
  let state :=
    set_approvals
      (List.filter (fun a => bool_decide (Types.documentType a <> documentType))
                   (approvals state))
      state in
  (* Add new approval *)
  let state :=
    set_approvals
      (approvals state ++
         [{| documentType := documentType;
             contentHash := contentHash;
             approvedAt := now |}])
      state in
  (* Update document hash *)
  let state :=
    set_documentHashes (setHash documentType contentHash (documentHashes state)) state in
  await_ saveState state cwd;
  ret state.

(** Check if a document is approved *)
Definition isDocumentApproved (state : DocForgeState) (documentType : DocumentType)
    : bool :=
  existsb (fun a => bool_decide (Types.documentType a = documentType)) (approvals state).

(** Check if a document has changed since approval *)
Definition hasDocumentChanged (state : DocForgeState) (documentType : DocumentType)
    (currentContent : jsstring) : bool :=
  match List.find (fun a => bool_decide (Types.documentType a = documentType))
                  (approvals state) with
  | None => true
  | Some approval =>
      let currentHash := calculateHash currentContent in
      negb (JsString.eqb (contentHash approval) currentHash)
  end.

(** Check if all required documents are approved *)
Definition areAllDocumentsApproved (state : DocForgeState) : bool :=
  let required := [rfc; plan; rollout] in
  forallb (fun doc => isDocumentApproved state doc) required.

End Store.
Import Store.

(* ===================================================================== *)
(** ** src/utils/files.ts *)
(* ===================================================================== *)

Module Files.

(** Ensure a directory exists *)
Definition ensureDir (dirPath : jsstring) : IO unit := mkdir dirPath.

(** Check if a file exists *)
Definition fileExists (filePath : jsstring) : IO bool :=
  try_catch (await_ access filePath; ret true) (fun _ => ret false).

(** Get the docs directory path *)
Definition getDocsDir (cwd : jsstring) : jsstring := join cwd (js "docs").

(** Get the prompts directory path *)
Definition getPromptsDir (cwd : jsstring) : jsstring := join cwd (js "prompts").

(** Get a document file path *)
Definition getDocPath (docType : DocumentType) (cwd : jsstring) : jsstring :=
  let filenames (t : DocumentType) :=
    match t with
    | rfc => js "RFC.md"
    | plan => js "PLAN.md"
    | rollout => js "ROLLOUT.md"
    end in
  join (getDocsDir cwd) (filenames docType).

Section TextFiles.

(** What a file that holds a text is to [JSON.parse]. The files written here
    are documents, which nothing parses. *)
Variable asFile : jsstring -> FileText.

(** Write a file, creating parent directories if needed *)
Definition writeFileSafe (filePath : jsstring) (content : jsstring) : IO unit :=
  await_ ensureDir (dirname filePath);
  writeFile filePath (asFile content).

End TextFiles.

End Files.
Import Files.

(* ===================================================================== *)
(** ** src/commands/init.ts *)
(* ===================================================================== *)

Module Init.

(** The action of the init command, in the directory [cwd]
    ([process.cwd()]). The name, stack and constraints it gathers from its
    options and from the prompt, and the time of creation, are the
    [project] it is given; [strict] is the option [--strict]. Output to the
    console is left out. *)
Definition initCommand (strict : bool) (project : ProjectMetadata) (cwd : jsstring)
    : IO unit :=
  (* Check if project already exists *)
  await exists_ <- projectExists cwd;
  await_ (if exists_ then throw (ProcessExit 1) else ret tt);
  (* Initialize project *)
  await state <- initializeProject project cwd;
  (* Create output directories *)
  await_ ensureDir (getDocsDir cwd);
  await_ ensureDir (getPromptsDir cwd);
  (* Apply strict mode if requested *)
  if strict then
    let state := set_strictMode true state in
    saveState state cwd
  else ret tt.

End Init.
Import Init.

(* ===================================================================== *)
(** ** src/state/machine.ts: progress *)
(* ===================================================================== *)

(** Numbers of JavaScript are binary64 floating-point values: the kernel's
    primitive floats, with their correctly rounded division and
    multiplication. *)
Module Progress.

Definition Number_ofZ (n : Z) : PrimFloat.float :=
  if n <? 0 then PrimFloat.opp (PrimFloat.of_uint63 (Uint63.of_Z (- n)))
  else PrimFloat.of_uint63 (Uint63.of_Z n).

(** [Math.round]: the integer closest to [x], the larger one on a tie; a value
    that is not finite, a zero and an integer are returned as they are, and a
    negative value that rounds to zero gives -0. *)
Definition Math_round (x : PrimFloat.float) : PrimFloat.float :=
  match FloatOps.Prim2SF x with
  | SpecFloat.S754_finite s m e =>
      if 0 <=? e then x
      else
        let sm := if s then Z.neg m else Z.pos m in
        let n := (2 * sm + 2 ^ (- e)) / 2 ^ (1 - e) in
        if n =? 0 then (if s then PrimFloat.neg_zero else PrimFloat.zero)
        else Number_ofZ n
  | _ => x
  end.

(** Get progress percentage *)
Definition getProgressPercentage (state : DocForgeState) : PrimFloat.float :=
  let currentIndex := indexOf allSteps (StepId_str (currentStep state)) in
  Math_round
    (PrimFloat.mul
       (PrimFloat.div (Number_ofZ currentIndex)
                      (Number_ofZ (Z.of_nat (length allSteps) - 1)))
       (Number_ofZ 100)).

End Progress.
Import Progress.

(* ===================================================================== *)
(** ** src/commands/approve.ts *)
(* ===================================================================== *)

Module Approve.

Section ApproveDocument.

(** [renderRfc], [renderPlan] and [renderRollout] of the templates, by
    document type. *)
Variable render : DocumentType -> DocForgeState -> jsstring.
Variable asFile : jsstring -> FileText.

(** Approve a single document, in the directory [cwd] ([process.cwd()]), at
    the time [now]. What it prints is left out. *)
Definition approveDocument (now : jsstring) (state : DocForgeState)
    (docType : DocumentType) (force : bool) (cwd : jsstring) : IO unit :=
  (* Get document content *)
  let content := render docType state in
  (* Check if document is generated *)
  if JsString.eqb content [] || (length (trim content) <? 50)%nat then ret tt
  else
    (* Validate document structure *)
    let validation := validateDocumentByType docType content in
    if negb (valid validation)
       && (let strictCheck := strictModeCheck state docType content in
           negb (passes strictCheck) && negb force)
    then ret tt
    else
      (* Save document to disk *)
      await_ writeFileSafe asFile (getDocPath docType cwd) content;
      (* Record approval *)
      await_ recordApproval now docType content cwd;
      ret tt.

End ApproveDocument.

End Approve.
Import Approve.

(* ===================================================================== *)
(** ** src/agents/base.ts *)
(* ===================================================================== *)

Module Agent.

(** Checkpoint response from user *)
Record CheckpointResult := {
  result_disagreements : option jsstring;
  result_clarifications : option jsstring;
  result_missedConstraints : option jsstring;
  shouldContinue : bool;
}.

(** What the user answers to the four questions of a checkpoint. *)
Record Answers := {
  answer_disagreements : jsstring;
  answer_clarifications : jsstring;
  answer_missedConstraints : jsstring;
  answer_shouldContinue : bool;
}.

(** [s || null] on a string: the empty string is falsy. *)
Definition orNull (s : jsstring) : option jsstring :=
  match s with
  | [] => None
  | _ :: _ => Some s
  end.

(** The truth value of a [string | null]. *)
Definition truthy (o : option jsstring) : bool :=
  match o with
  | Some (_ :: _) => true
  | _ => false
  end.

(** [state.currentStep = nextStep] *)
Definition set_currentStep (stepId : StepId) (s : DocForgeState) : DocForgeState :=
  {| version := version s; project := project s; currentStep := stepId;
     checkpointResponses := checkpointResponses s; approvals := approvals s;
     documentHashes := documentHashes s; documentProgress := documentProgress s;
     strictMode := strictMode s |}.

(** Run a checkpoint interaction with the user, who gives [answers]. The
    response is recorded through [recordCheckpointResponse] without a
    directory, that is in [process.cwd()], here [processCwd]. *)
Definition runCheckpoint (now : jsstring) (answers : Answers) (processCwd : jsstring)
    (_state : DocForgeState) (stepId : StepId) (content : jsstring)
    : IO CheckpointResult :=
  (* Record the response *)
  await_ recordCheckpointResponse now
           (StepId_str stepId)
           (orNull (answer_disagreements answers))
           (orNull (answer_clarifications answers))
           (orNull (answer_missedConstraints answers))
           processCwd;
  ret {| result_disagreements := orNull (answer_disagreements answers);
         result_clarifications := orNull (answer_clarifications answers);
         result_missedConstraints := orNull (answer_missedConstraints answers);
         shouldContinue := answer_shouldContinue answers |}.

(** Advance to the next step if checkpoint passed; [cwd] is the directory of
    the agent. *)
Definition advanceIfAllowed (cwd : jsstring) (state : DocForgeState)
    (checkpointResult : CheckpointResult) : IO DocForgeState :=
  if negb (shouldContinue checkpointResult) then ret state
  else
    let nextStep := getNextStep (currentStep state) in
    match nextStep with
    | Some nextStep =>
        let state := set_currentStep nextStep state in
        await_ saveState state cwd;
        ret state
    | None => ret state
    end.

(** Check if current step is a checkpoint *)
Definition isCheckpointStep (stepId : StepId) : bool := isCheckpoint stepId.

(** [s.startsWith(prefix)] *)
Fixpoint startsWith (s prefix : jsstring) : bool :=
  match prefix, s with
  | [], _ => true
  | p :: prefix', c :: s' => (c =? p) && startsWith s' prefix'
  | _ :: _, [] => false
  end.

(** [parts.join(separator)] *)
Fixpoint joinWith (separator : jsstring) (parts : list jsstring) : jsstring :=
  match parts with
  | [] => []
  | [part] => part
  | part :: parts' => part ++ separator ++ joinWith separator parts'
  end.

(** The text of a [string | null] in a template where it is known to be a
    string. *)
Definition textOf (o : option jsstring) : jsstring := default [] o.

Definition hasFeedback (r : CheckpointResponse) : bool :=
  truthy (disagreements r) || truthy (clarifications r) || truthy (missedConstraints r).

Definition feedbackLine (r : CheckpointResponse) : jsstring :=
  let parts :=
    (if truthy (disagreements r)
     then [js "Disagreement: " ++ textOf (disagreements r)] else []) ++
    (if truthy (clarifications r)
     then [js "Clarification needed: " ++ textOf (clarifications r)] else []) ++
    (if truthy (missedConstraints r)
     then [js "Missed constraint: " ++ textOf (missedConstraints r)] else []) in
  js "[" ++ stepId r ++ js "] " ++ joinWith (js "; ") parts.

(** Get previous checkpoint responses for context *)
Definition getRelevantFeedback (state : DocForgeState) (phase : jsstring) : jsstring :=
  let relevantResponses :=
    List.filter hasFeedback
      (List.filter (fun r => startsWith (stepId r) phase) (checkpointResponses state)) in
  if (length relevantResponses =? 0)%nat then []
  else
    let feedback := map feedbackLine relevantResponses in
    [0x0A; 0x0A] ++ js "User Feedback from previous steps:" ++ [0x0A]
      ++ joinWith [0x0A] feedback.

End Agent.
Import Agent.

(* ===================================================================== *)
(** ** src/commands/continue.ts and the dispatch of the agents *)
(* ===================================================================== *)

Module Continue.

(** The four agents that generate steps. *)
Inductive AgentKind := RFCAgent | PlannerAgent | RolloutAgent | PromptAgent.

Definition agentName (agent : AgentKind) : jsstring :=
  match agent with
  | RFCAgent => js "RFCAgent"
  | PlannerAgent => js "PlannerAgent"
  | RolloutAgent => js "RolloutAgent"
  | PromptAgent => js "PromptAgent"
  end.

(** Get the appropriate agent for a step *)
Definition getAgentForStep (stepId : StepId) : AgentKind :=
  let phase := getPhase stepId in
  match phase with
  | phase_rfc => RFCAgent
  | phase_plan => PlannerAgent
  | phase_rollout => RolloutAgent
  | phase_prompts => PromptAgent
  end.

Section ContinueCommand.

(** The private methods of the agents that generate the content of a step
    with the language model ([generateProblem], [generateStages],
    [generatePrompts] and the others), by the step they are for. They return
    the state and the content and may write to the disk. *)
Variable generate : StepId -> DocForgeState -> IO (DocForgeState * jsstring).
Variable render : DocumentType -> DocForgeState -> jsstring.
Variable asFile : jsstring -> FileText.

(** [generateStep] of each agent: the steps it has a case for, and the error
    of the default case. *)
Definition handles (agent : AgentKind) (stepId : StepId) : bool :=
  match agent, stepId with
  | RFCAgent, (rfc_problem | rfc_goals | rfc_approach | rfc_interfaces
               | rfc_alternatives) => true
  | PlannerAgent, (plan_stages | plan_criteria) => true
  | RolloutAgent, (rollout_risks | rollout_observability | rollout_procedures) => true
  | PromptAgent, prompts_generate => true
  | _, _ => false
  end.

Definition generateStep (agent : AgentKind) (state : DocForgeState) (stepId : StepId)
    : IO (DocForgeState * jsstring) :=
  if handles agent stepId then generate stepId state
  else throw (Error (agentName agent ++ js " cannot handle step: " ++ StepId_str stepId)).

(** Save document to disk when a phase completes *)
Definition saveDocumentIfPhaseComplete (state : DocForgeState) (cwd : jsstring)
    : IO unit :=
  let previousStep := currentStep state in
  await_ (if bool_decide (previousStep = plan_stages)
             || bool_decide (previousStep = rfc_complete)
          then writeFileSafe asFile (getDocPath rfc cwd) (render rfc state)
          else ret tt);
  await_ (if bool_decide (previousStep = rollout_risks)
             || bool_decide (previousStep = plan_complete)
          then writeFileSafe asFile (getDocPath plan cwd) (render plan state)
          else ret tt);
  (if bool_decide (previousStep = prompts_generate)
      || bool_decide (previousStep = rollout_complete)
   then writeFileSafe asFile (getDocPath rollout cwd) (render rollout state)
   else ret tt).

(** The action of the continue command in the directory [cwd]
    ([process.cwd()]). [auto] is the option [--auto], [providerConfigured]
    tells whether [getProvider()] returns a provider or throws, [answers] is
    what the user answers at a checkpoint. What it prints is left out. *)
Definition continueCommand (auto providerConfigured : bool) (answers : Answers)
    (now : jsstring) (cwd : jsstring) : IO unit :=
  (* Load state *)
  await v <- try_catch (loadState cwd) (fun _ => throw (ProcessExit 1));
  await state <- asState v;
  (* Check if already complete *)
  if bool_decide (currentStep state = complete) then ret tt
  else
    (* Get provider *)
    await_ (if providerConfigured then ret tt else throw (ProcessExit 1));
    (* Get appropriate agent *)
    let agent := getAgentForStep (currentStep state) in
    try_catch
      ((* Generate content for current step *)
       await result <- generateStep agent state (currentStep state);
       let state := fst result in
       (* Handle checkpoint *)
       await stopped <-
         (if isCheckpoint (currentStep state) then
            if auto then ret false
            else
              await checkpointResult <-
                runCheckpoint now answers cwd state (currentStep state) (snd result);
              ret (negb (shouldContinue checkpointResult))
          else ret false);
       if stopped then ret tt
       else
         (* Advance to next step *)
         let nextStep := getNextStep (currentStep state) in
         await state <-
           match nextStep with
           | Some nextStep =>
               let state := set_currentStep nextStep state in
               await_ saveState state cwd;
               ret state
           | None => ret state
           end;
         (* Save document if phase completed *)
         saveDocumentIfPhaseComplete state cwd)
      (fun error => throw (ProcessExit 1)).

End ContinueCommand.

End Continue.
Import Continue.

(* ===================================================================== *)
(** ** src/utils/files.ts: the path of a stage prompt *)
(* ===================================================================== *)

Module PromptFiles.

(** The UTF-16 code units of a decimal numeral. *)
Fixpoint uintChars (u : Decimal.uint) : jsstring :=
  match u with
  | Decimal.Nil => []
  | Decimal.D0 u' => 0x30 :: uintChars u'
  | Decimal.D1 u' => 0x31 :: uintChars u'
  | Decimal.D2 u' => 0x32 :: uintChars u'
  | Decimal.D3 u' => 0x33 :: uintChars u'
  | Decimal.D4 u' => 0x34 :: uintChars u'
  | Decimal.D5 u' => 0x35 :: uintChars u'
  | Decimal.D6 u' => 0x36 :: uintChars u'
  | Decimal.D7 u' => 0x37 :: uintChars u'
  | Decimal.D8 u' => 0x38 :: uintChars u'
  | Decimal.D9 u' => 0x39 :: uintChars u'
  end.

(** [String(n)] of a Number that is an integer: its decimal numeral, with a
    minus sign when negative. JavaScript prints an integer so when its
    magnitude is below 10^21, which holds for every safe integer. *)
Definition String_ofZ (n : Z) : jsstring :=
  match Z.to_int n with
  | Decimal.Pos u => uintChars u
  | Decimal.Neg u => 0x2D :: uintChars u
  end.

(** [Number.isSafeInteger(n)] *)
Definition isSafeInteger (n : Z) : bool := Z.abs n <=? 2 ^ 53 - 1.

(** [s.padStart(targetLength, padString)]: the filler is [padString]
    repeated and cut to the missing length. *)
Definition padStart (s : jsstring) (targetLength : nat) (padString : jsstring)
    : jsstring :=
  let fillLen := (targetLength - length s)%nat in
  firstn fillLen (concat (repeat padString fillLen)) ++ s.

(** Get a stage prompt file path *)
Definition getStagePromptPath (stageNumber : Z) (cwd : jsstring) : jsstring :=
  let paddedNumber := padStart (String_ofZ stageNumber) 2 (js "0") in
  join (getPromptsDir cwd) (js "Stage-" ++ paddedNumber ++ js ".md").

End PromptFiles.
Import PromptFiles.

(* ===================================================================== *)
(** ** src/templates/stage-prompt.ts: truncation of a text *)
(* ===================================================================== *)

Module StagePrompt.

(** Truncate text with ellipsis; [maxLength] is a length, 200 where the
    template uses it. *)
Definition truncateText (text : jsstring) (maxLength : nat) : jsstring :=
  if (length text <=? maxLength)%nat then text
  else trim (firstn maxLength text) ++ js "...".

End StagePrompt.
Import StagePrompt.

(* ===================================================================== *)
(** ** src/agents/prompt.ts: the agent that writes the stage prompts *)
(* ===================================================================== *)

Module Prompt.

Section PromptAgent.

(** [renderStagePrompt] of the template: the text of the prompt of a stage,
    from the stage, the state and all stages. *)
Variable renderStagePrompt : Stage -> DocForgeState -> list Stage -> jsstring.
Variable asFile : jsstring -> FileText.

(** The loop [for (const stage of stages)] of [generatePrompts], from the
    stages still to go and the files generated so far. *)
Fixpoint writeStagePrompts (state : DocForgeState) (stages : list Stage) (cwd : jsstring)
    (rest : list Stage) (generatedFiles : list jsstring) : IO (list jsstring) :=
  match rest with
  | [] => ret generatedFiles
  | stage :: rest' =>
      let promptContent := renderStagePrompt stage state stages in
      let filePath := getStagePromptPath (stage_id stage) cwd in
      await_ writeFileSafe asFile filePath promptContent;
      writeStagePrompts state stages cwd rest' (generatedFiles ++ [filePath])
  end.

Definition generatePrompts (state : DocForgeState) (cwd : jsstring)
    : IO (DocForgeState * jsstring) :=
  let stages := stages (progress_plan (documentProgress state)) in
  match stages with
  | None => throw (Error (js "No stages defined. Complete PLAN first."))
  | Some stages =>
      if (length stages =? 0)%nat
      then throw (Error (js "No stages defined. Complete PLAN first."))
      else
        (* Ensure prompts directory exists *)
        await_ ensureDir (getPromptsDir cwd);
        await generatedFiles <- writeStagePrompts state stages cwd stages [];
        let content :=
          js "Generated " ++ String_ofZ (Z.of_nat (length generatedFiles))
            ++ js " stage prompt files:" ++ [0x0A]
            ++ joinWith [0x0A] (map (fun f => js "- " ++ f) generatedFiles) in
        ret (state, content)
  end.

Definition generateStep (state : DocForgeState) (stepId : StepId) (cwd : jsstring)
    : IO (DocForgeState * jsstring) :=
  if negb (bool_decide (stepId = prompts_generate))
  then throw (Error (js "PromptAgent cannot handle step: " ++ StepId_str stepId))
  else generatePrompts state cwd.

(** Regenerate a single stage prompt *)
Definition regenerateStage (state : DocForgeState) (stageId : Z) (cwd : jsstring)
    : IO jsstring :=
  let stages := stages (progress_plan (documentProgress state)) in
  match stages with
  | None => throw (Error (js "No stages defined."))
  | Some stages =>
      let stage := List.find (fun s => stage_id s =? stageId) stages in
      match stage with
      | None => throw (Error (js "Stage " ++ String_ofZ stageId ++ js " not found."))
      | Some stage =>
          let promptContent := renderStagePrompt stage state stages in
          let filePath := getStagePromptPath stageId cwd in
          await_ writeFileSafe asFile filePath promptContent;
          ret filePath
      end
  end.

End PromptAgent.

End Prompt.

(* ===================================================================== *)
(** ** src/commands/prompts.ts: the prompts command *)
(* ===================================================================== *)

Module PromptsCommand.

(** What [parseInt(options.stage, 10)] gives for the option [--stage]. *)
Inductive StageNumber := NaN | Integer (n : Z).

Section PromptsCommand.

Variable renderStagePrompt : Stage -> DocForgeState -> list Stage -> jsstring.
Variable asFile : jsstring -> FileText.

(** The action of the prompts command in the directory [cwd]
    ([process.cwd()]). [force] is the option [--force]; [stage] is the parsed
    option [--stage], [None] when it is not given. The provider, which the
    prompt agent never calls, and what the command prints are left out. *)
Definition promptsCommand (force : bool) (stage : option StageNumber) (cwd : jsstring)
    : IO unit :=
  (* Load state *)
  await v <- try_catch (loadState cwd) (fun _ => throw (ProcessExit 1));
  await state <- asState v;
  (* Check if all documents are approved *)
  if negb (areAllDocumentsApproved state) && negb force then throw (ProcessExit 1)
  else
    (* Check if stages exist *)
    let stages := stages (progress_plan (documentProgress state)) in
    if match stages with
       | None => true
       | Some stages => (length stages =? 0)%nat
       end
    then throw (ProcessExit 1)
    else
      match stage with
      | Some stageNumber =>
          (* Handle single stage regeneration *)
          match stageNumber with
          | NaN => throw (ProcessExit 1)
          | Integer stageNumber =>
              try_catch
                (await _ <- Prompt.regenerateStage renderStagePrompt asFile
                              state stageNumber cwd;
                 ret tt)
                (fun error => throw (ProcessExit 1))
          end
      | None =>
          (* Generate all prompts *)
          try_catch
            (await result <- Prompt.generateStep renderStagePrompt asFile
                               state prompts_generate cwd;
             let state := fst result in
             (* Update state to complete *)
             let state := set_currentStep complete state in
             saveState state cwd)
            (fun error => throw (ProcessExit 1))
      end.

End PromptsCommand.

End PromptsCommand.
Import PromptsCommand.

(* ===================================================================== *)
(** * Vocabulary of the properties *)
(* ===================================================================== *)

(** ** Paths and the disk *)

(** A text without a separator. *)
Definition noSep (s : jsstring) : Prop := ~ In SEP s.

(** A segment that [normalize] keeps as it is. *)
Definition plain (seg : jsstring) : Prop :=
  noSep seg /\ seg <> [] /\ seg <> js "." /\ seg <> js "..".

(** The segments [normalizeString] has kept at any time, the last one first:
    plain segments over a run of "..", which is empty in an absolute path. *)
Fixpoint canonical (allowAboveRoot : bool) (res : list jsstring) : Prop :=
  match res with
  | [] => True
  | top :: res' =>
      (plain top /\ canonical allowAboveRoot res') \/
      (top = js ".." /\ allowAboveRoot = true /\ Forall (eq (js "..")) res')
  end.

(** The path of given segments. *)
Definition pathOf (isAbsolute : bool) (segs : list jsstring) : jsstring :=
  (if isAbsolute then [SEP] else []) ++ joinSegments segs.

(** The name of the prompt file of a stage. *)
Definition stageFileName (stageNumber : Z) : jsstring :=
  js "Stage-" ++ padStart (String_ofZ stageNumber) 2 (js "0") ++ js ".md".

(** Would [mkdir(path, { recursive: true })] succeed? *)
Definition canMake (d : Disk) (path : jsstring) : bool :=
  match mkdir path d with
  | (Ok _, _) => true
  | (Throw _, _) => false
  end.

(** The disk after [mkdir(path, { recursive: true })]. *)
Definition made (path : jsstring) (d : Disk) : Disk := snd (mkdir path d).

Definition isDirectoryAt (d : Disk) (path : jsstring) : bool :=
  match entry d path with
  | Some Directory => true
  | _ => false
  end.

(** Would [writeFile(path, ...)] succeed? It does where a file is at the
    path, or nothing is and the directory of the path is there. *)
Definition canWrite (d : Disk) (path : jsstring) : bool :=
  match entry d path with
  | Some (File _) => true
  | Some Directory => false
  | None => isDirectoryAt d (dirname path)
  end.

(** The name of the file of a document. *)
Definition docFileName (t : DocumentType) : jsstring :=
  match t with
  | rfc => js "RFC.md"
  | plan => js "PLAN.md"
  | rollout => js "ROLLOUT.md"
  end.

(** Would [writeFileSafe(path, ...)] succeed? It does where the directory of
    the path can be made and no directory is at the path itself. *)
Definition canWriteSafe (d : Disk) (path : jsstring) : bool :=
  canMake d (dirname path) && negb (isDirectoryAt d path).

(** The steps met from [s] by following [getNextStep] until it is [null];
    [None] when [fuel] steps were not enough to get there. *)
Fixpoint chain (fuel : nat) (s : StepId) : option (list StepId) :=
  match getNextStep s with
  | None => Some [s]
  | Some n =>
      match fuel with
      | O => None
      | S fuel' => option_map (cons s) (chain fuel' n)
      end
  end.

(** The step reached from [s] after [n] uses of [getNextStep]. *)
Fixpoint follow (n : nat) (s : StepId) : option StepId :=
  match n with
  | O => Some s
  | S n' =>
      match getNextStep s with
      | Some s' => follow n' s'
      | None => None
      end
  end.

(** The position of a step in the table. *)
Definition rank (s : StepId) : nat :=
  match s with
  | rfc_problem => 0 | rfc_goals => 1 | rfc_approach => 2 | rfc_interfaces => 3
  | rfc_alternatives => 4 | rfc_complete => 5
  | plan_stages => 6 | plan_criteria => 7 | plan_complete => 8
  | rollout_risks => 9 | rollout_observability => 10 | rollout_procedures => 11
  | rollout_complete => 12
  | prompts_generate => 13
  | complete => 14
  end.

(** The fixed order rfc, plan, rollout, prompts. *)
Definition phaseIndex (p : Phase) : nat :=
  match p with
  | phase_rfc => 0
  | phase_plan => 1
  | phase_rollout => 2
  | phase_prompts => 3
  end.

Definition phaseOfDocument (t : DocumentType) : Phase :=
  match t with
  | rfc => phase_rfc
  | plan => phase_plan
  | rollout => phase_rollout
  end.

(** The step [<phase>.complete]. *)
Definition sentinel (t : DocumentType) : StepId :=
  match t with
  | rfc => rfc_complete
  | plan => plan_complete
  | rollout => rollout_complete
  end.

Definition stateAt (s : StepId) (st : DocForgeState) : DocForgeState :=
  {| version := version st; project := project st; currentStep := s;
     checkpointResponses := checkpointResponses st; approvals := approvals st;
     documentHashes := documentHashes st; documentProgress := documentProgress st;
     strictMode := strictMode st |}.

(** What each operation does to a state, once loaded. *)
Definition withResponse (now stepId : jsstring)
    (disagreements clarifications missedConstraints : option jsstring)
    (s : DocForgeState) : DocForgeState :=
  set_checkpointResponses
    (checkpointResponses s ++
       [{| stepId := stepId; disagreements := disagreements;
           clarifications := clarifications; missedConstraints := missedConstraints;
           respondedAt := now |}]) s.

Definition otherThan (t : DocumentType) (l : list Approval) : list Approval :=
  List.filter (fun a => bool_decide (documentType a <> t)) l.

Definition onlyFor (t : DocumentType) (l : list Approval) : list Approval :=
  List.filter (fun a => bool_decide (documentType a = t)) l.

Definition withApproval (now : jsstring) (t : DocumentType) (content : jsstring)
    (s : DocForgeState) : DocForgeState :=
  set_documentHashes
    (setHash t (calculateHash content) (documentHashes s))
    (set_approvals
       (otherThan t (approvals s) ++
          [{| documentType := t; contentHash := calculateHash content;
              approvedAt := now |}]) s).

(** A small project and disk to run the operations on. *)
Definition demoProject : ProjectMetadata :=
  {| Types.name := js "P"; stack := [js "TS"]; constraints := [];
     createdAt := js "2024-01-01T00:00:00.000Z" |}.

Definition demoCwd : jsstring := js "/work".

Definition demoState : DocForgeState :=
  stateAt rfc_goals (createInitialState demoProject).

(** The directories [docforge init] leaves in the demo directory. *)
Definition demoDirs : Disk :=
  <[getPromptsDir demoCwd := Directory]>
    (<[getDocsDir demoCwd := Directory]>
       (<[getStateDirPath demoCwd := Directory]> {[ demoCwd := Directory ]})).

(** The demo directory before [docforge init]: it is there and it is empty. *)
Definition freshDirectory : Disk := {[ demoCwd := Directory ]}.

(** The demo directory as a project whose record is [content]. *)
Definition projectWith (content : FileText) : Disk :=
  <[getStateFilePath demoCwd := File content]> demoDirs.

Definition demoDisk : Disk := projectWith (StateJson demoState).

Definition newApproval (now : jsstring) (t : DocumentType) (content : jsstring)
    : Approval :=
  {| documentType := t; contentHash := calculateHash content; approvedAt := now |}.

(** [new] is [upd] where there is one, and [old] otherwise. *)
Definition mergedOver {A : Type} (old : A) (upd : option A) (new : A) : Prop :=
  (forall v, upd = Some v -> new = v) /\ (upd = None -> new = old).

(** A stored progress with an RFC problem statement, and an update that
    brings a documentProgress with a plan only. *)
Definition demoProgressState : DocForgeState :=
  {| version := 1; project := demoProject; currentStep := plan_stages;
     checkpointResponses := []; approvals := [];
     documentHashes := {| hash_rfc := None; hash_plan := None; hash_rollout := None |};
     documentProgress :=
       {| progress_rfc :=
            {| problem := Some (js "slow builds"); goals := Some (js "fast builds");
               nonGoals := None; approach := None; interfaces := None;
               alternatives := None; openQuestions := None; assumptions := None |};
          progress_plan := {| stages := None |};
          progress_rollout := emptyRolloutProgress |};
     strictMode := false |}.

Definition demoPlanOnly : DocumentProgress :=
  {| progress_rfc := emptyRfcProgress;
     progress_plan := {| stages := Some [] |};
     progress_rollout := emptyRolloutProgress |}.

Definition demoUpdates : PartialState :=
  {| p_version := None; p_project := None; p_currentStep := None;
     p_checkpointResponses := None; p_approvals := None; p_documentHashes := None;
     p_documentProgress := Some demoPlanOnly; p_strictMode := None |}.

(** A record that is the JSON text of an empty object. *)
Definition emptyObjectDisk : Disk := projectWith (OtherJson (js "{}")).


(** Two texts that differ in the case of ASCII letters only. *)
Definition sameUpToCase (x y : jsstring) : Prop :=
  map canonicalize x = map canonicalize y.

Definition samePrev (p q : option Z) : Prop :=
  option_map canonicalize p = option_map canonicalize q.

(** A continuation that cannot tell such texts apart. *)
Definition caseBlind (k : option Z -> jsstring -> bool) : Prop :=
  forall p q x y, samePrev p q -> sameUpToCase x y -> k p x = k q y.

(** The section table of a document type. *)
Definition sectionsOf (t : DocumentType) : list SectionRequirement :=
  match t with
  | rfc => RFC_SECTIONS
  | plan => PLAN_SECTIONS
  | rollout => ROLLOUT_SECTIONS
  end.

(** The pattern of the section matches nowhere in the text. *)
Definition missingIn (content : jsstring) (sec : SectionRequirement) : bool :=
  negb (test (pattern sec) content).

Definition requiredMissing (content : jsstring) (sec : SectionRequirement) : bool :=
  required sec && missingIn content sec.

Definition optionalMissing (content : jsstring) (sec : SectionRequirement) : bool :=
  negb (required sec) && missingIn content sec.

Definition warningFor (sec : SectionRequirement) : jsstring :=
  js "Optional section missing: " ++ name sec.

Definition approachSection : SectionRequirement :=
  section "Approach" true
    [LineStart; lit "##"; ws_star; Maybe (seqOf [lit "Proposed"; ws_plus]);
     lit "Approach"].

(** An RFC with every heading but "Goals", in mixed case. *)
Definition rfcWithoutGoals : jsstring :=
  js "# RFC: P" ++ [0x0A] ++
  js "## Problem Statement" ++ [0x0A] ++
  js "## NON-GOALS" ++ [0x0A] ++
  js "## Proposed Approach" ++ [0x0A] ++
  js "## interfaces & contracts" ++ [0x0A] ++
  js "## Alternatives Considered" ++ [0x0A].

Definition goalsSection : SectionRequirement :=
  section "Goals" true [LineStart; lit "##"; ws_star; lit "Goals"].

(** ** Sequences of record operations *)

(** A call of one of the two record operations of the store. *)
Inductive RecordOp :=
| Respond (now stepId : jsstring) (dis cla mis : option jsstring)
| Approve (now : jsstring) (t : DocumentType) (content : jsstring).

Definition runOp (cwd : jsstring) (op : RecordOp) : IO DocForgeState :=
  match op with
  | Respond now stepId dis cla mis =>
      recordCheckpointResponse now stepId dis cla mis cwd
  | Approve now t content => recordApproval now t content cwd
  end.

(** The calls of [ops], one after the other. *)
Fixpoint runOps (cwd : jsstring) (ops : list RecordOp) : IO unit :=
  match ops with
  | [] => ret tt
  | op :: ops' => await_ runOp cwd op; runOps cwd ops'
  end.

(** What a call makes of the stored state. *)
Definition applyOp (s : DocForgeState) (op : RecordOp) : DocForgeState :=
  match op with
  | Respond now stepId dis cla mis => withResponse now stepId dis cla mis s
  | Approve now t content => withApproval now t content s
  end.

(** The responses that [ops] bring, in order. *)
Definition responsesOf (ops : list RecordOp) : list CheckpointResponse :=
  flat_map (fun op =>
              match op with
              | Respond now stepId dis cla mis =>
                  [{| stepId := stepId; disagreements := dis; clarifications := cla;
                      missedConstraints := mis; respondedAt := now |}]
              | Approve _ _ _ => []
              end) ops.

(** The approval that the last call for [t] in [ops] brings, if there is one;
    [before] otherwise. *)
Definition lastApproval (t : DocumentType) (before : option Approval)
    (ops : list RecordOp) : option Approval :=
  fold_left (fun acc op =>
               match op with
               | Approve now t' content =>
                   if bool_decide (t' = t) then Some (newApproval now t content) else acc
               | Respond _ _ _ _ _ => acc
               end) ops before.

Definition approvalFor (t : DocumentType) (s : DocForgeState) : option Approval :=
  List.find (fun a => bool_decide (documentType a = t)) (approvals s).

(** The ledger of a state is consistent: no document type has two approvals,
    and documentHashes holds, for each type, the hash of its approval. *)
Definition ledgerConsistent (s : DocForgeState) : Prop :=
  List.NoDup (map documentType (approvals s)) /\
  forall t, getHash (documentHashes s) t = option_map contentHash (approvalFor t s).

(** The directories above a path, the nearest first, as far as [mkdir] goes
    up from it. *)
Fixpoint ancestors (fuel : nat) (path : jsstring) : list jsstring :=
  match fuel with
  | O => []
  | S fuel' => dirname path :: ancestors fuel' (dirname path)
  end.

(** A path and the directories above it. *)
Definition upTo (path : jsstring) : list jsstring :=
  path :: ancestors (length path) path.

(** The paths the store of a directory works on: its state file and the
    directories above the file. *)
Definition storePaths (cwd : jsstring) : list jsstring := upTo (getStateFilePath cwd).

(** Those, and the two output directories of the project. *)
Definition projectPaths (cwd : jsstring) : list jsstring :=
  getDocsDir cwd :: getPromptsDir cwd :: storePaths cwd.

(** An operation confined to the paths [paths]: it leaves every other path
    of the disk as it is, and what it returns and what it leaves at [paths]
    depend on what the disk holds at [paths] only. *)
Definition confined {A : Type} (paths : list jsstring) (m : IO A) : Prop :=
  (forall (d : Disk) (k : jsstring), ~ In k paths -> snd (m d) !! k = d !! k) /\
  (forall d1 d2 : Disk,
     (forall k, In k paths -> d1 !! k = d2 !! k) ->
     fst (m d1) = fst (m d2) /\
     forall k, In k paths -> snd (m d1) !! k = snd (m d2) !! k).

(** The document the continue command saves once it has moved to the step
    [s]: the one of the phase that has just been completed. *)
Definition documentSavedAt (s : StepId) : option DocumentType :=
  match s with
  | plan_stages | rfc_complete => Some rfc
  | rollout_risks | plan_complete => Some plan
  | prompts_generate | rollout_complete => Some rollout
  | _ => None
  end.

(** The first step of a phase. *)
Definition firstStepOf (p : Phase) : StepId :=
  match p with
  | phase_rfc => rfc_problem
  | phase_plan => plan_stages
  | phase_rollout => rollout_risks
  | phase_prompts => prompts_generate
  end.

(** The percentage of a position in the table of fifteen steps, rounded to
    the nearest integer in exact arithmetic. *)
Definition exactPercentage (position : nat) : Z :=
  (200 * Z.of_nat position + 14) / 28.

(** The text with every LF turned into CR LF. *)
Fixpoint toCRLF (s : jsstring) : jsstring :=
  match s with
  | [] => []
  | c :: s' => if c =? 0x0A then 0x0D :: 0x0A :: toCRLF s' else c :: toCRLF s'
  end.

(** A text made of white space and line terminators only. *)
Definition allWhiteSpace (w : jsstring) : Prop := forallb isWhiteSpace w = true.

(** A text with no white space at either end. *)
Definition noSpaceAround (s : jsstring) : Prop :=
  (forall c rest, s = c :: rest -> isWhiteSpace c = false) /\
  (forall front c, s = front ++ [c] -> isWhiteSpace c = false).

(** A continuation that keeps accepting when text is added after the input. *)
Definition extendsTo (y : jsstring) (k k' : option Z -> jsstring -> bool) : Prop :=
  forall p s, k p s = true -> k' p (s ++ y) = true.

(** A continuation that sees of the character before the position only
    whether a line starts there. *)
Definition lineBlind (k : option Z -> jsstring -> bool) : Prop :=
  forall p q s, atLineStart p = atLineStart q -> k p s = k q s.

(** Some line of the text starts with "##". *)
Definition hasLevel2Heading (content : jsstring) : bool :=
  test (seqOf [LineStart; lit "##"]) content.

(** The names of the required sections of a table. *)
Definition requiredNames (t : DocumentType) : list jsstring :=
  map name (List.filter required (sectionsOf t)).

(** A renderer for the examples: a document of seven headings for an RFC, a
    short note for the other types. *)
Definition demoRender (t : DocumentType) (st : DocForgeState) : jsstring :=
  match t with
  | rfc => rfcWithoutGoals
  | _ => js "(not generated)"
  end.

(** A checkpoint result that lets the workflow go on. *)
Definition goOn : CheckpointResult :=
  {| result_disagreements := None; result_clarifications := None;
     result_missedConstraints := None; shouldContinue := true |}.

(** [advanceIfAllowed] with such a result, [n] times in a row. *)
Fixpoint advanceTimes (cwd : jsstring) (n : nat) (state : DocForgeState)
    : IO DocForgeState :=
  match n with
  | O => ret state
  | S n' =>
      await state' <- advanceIfAllowed cwd state goOn;
      advanceTimes cwd n' state'
  end.

(** Answers of a user who presses Enter at every question. *)
Definition noAnswers (continue : bool) : Answers :=
  {| answer_disagreements := []; answer_clarifications := [];
     answer_missedConstraints := []; answer_shouldContinue := continue |}.

(** The responses of a state that [getRelevantFeedback] reports for [phase]. *)
Definition relevantTo (phase : jsstring) (state : DocForgeState)
    : list CheckpointResponse :=
  List.filter hasFeedback
    (List.filter (fun r => startsWith (stepId r) phase) (checkpointResponses state)).

(** The disk after the prompts of [rest] are written in order, as the loop of
    [generatePrompts] leaves it. *)
Definition promptsWritten (renderStagePrompt : Stage -> DocForgeState -> list Stage -> jsstring)
    (asFile : jsstring -> FileText) (state : DocForgeState) (all : list Stage)
    (cwd : jsstring) (rest : list Stage) (d : Disk) : Disk :=
  fold_left
    (fun d stage =>
       <[getStagePromptPath (stage_id stage) cwd
         := File (asFile (renderStagePrompt stage state all))]> d)
    rest d.

(** The stages of the plan of a state. *)
Definition planStages (state : DocForgeState) : option (list Stage) :=
  stages (progress_plan (documentProgress state)).

(** Every stage has a safe integer for its id. *)
Definition safeIds (all : list Stage) : Prop :=
  Forall (fun stage => isSafeInteger (stage_id stage) = true) all.

(** A stage with the given id and name, and nothing else. *)
Definition demoStage (n : Z) (name : jsstring) : Stage :=
  {| stage_id := n; stage_name := name; deliverables := []; dependencies := [];
     acceptanceCriteria := []; definitionOfDone := []; validationNotes := [] |}.

(** A state with the given stages and step, otherwise the demo state. *)
Definition withStages (all : option (list Stage)) (step : StepId) : DocForgeState :=
  {| version := version demoState; project := project demoState; currentStep := step;
     checkpointResponses := []; approvals := [];
     documentHashes := documentHashes demoState;
     documentProgress :=
       {| progress_rfc := progress_rfc (documentProgress demoState);
          progress_plan := {| stages := all |};
          progress_rollout := progress_rollout (documentProgress demoState) |};
     strictMode := false |}.

(** A stage prompt that is the name of the stage. *)
Definition demoStagePrompt (stage : Stage) (state : DocForgeState) (all : list Stage)
    : jsstring := stage_name stage.

(* ===================================================================== *)
(** * Properties *)
(* ===================================================================== *)

(** ** The content hasher on known digests *)

Example Sha256_constants :
  length Sha256.K = 64%nat /\
  nth 0 Sha256.K 0 = 0x428a2f98 /\ nth 63 Sha256.K 0 = 0xc67178f2 /\
  nth 0 Sha256.H0 0 = 0x6a09e667 /\ nth 7 Sha256.H0 0 = 0x5be0cd19.
Proof. vm_compute. repeat split. Qed.

Example calculateHash_empty :
  calculateHash (js "")
  = js "e3b0c44298fc1c149afbf4c8996fb92427ae41e4649b934ca495991b7852b855".
Proof. vm_compute. reflexivity. Qed.

Example calculateHash_abc :
  calculateHash (js "abc")
  = js "ba7816bf8f01cfea414140de5dae2223b00361a396177a9cb410ff61f20015ad".
Proof. vm_compute. reflexivity. Qed.

Example calculateHash_two_blocks :
  calculateHash (js "abcdbcdecdefdefgefghfghighijhijkijkljklmklmnlmnomnopnopq")
  = js "248d6a61d20638b8e5c026930c3e6039a33ce45964ff2167f6ecedd419db06c1".
Proof. vm_compute. reflexivity. Qed.

(** U+00E9, U+20AC and the surrogate pair of U+1F600. *)
Example calculateHash_utf8 :
  calculateHash [0xE9; 0x20AC; 0xD83D; 0xDE00]
  = js "df9226927fd572c1ee66eec85de1bb139497614899f36e4e90474cb71f6ef9d0".
Proof. vm_compute. reflexivity. Qed.

(* ===================================================================== *)
(** ** The step graph *)
(* ===================================================================== *)

Section StepGraph.

Lemma getNextStep_rank (s s' : StepId) :
  getNextStep s = Some s' -> rank s' = S (rank s).
Proof. destruct s; cbn; intros [= <-]; reflexivity. Qed.

Lemma follow_rank (n : nat) : forall s s' : StepId,
  follow n s = Some s' -> rank s' = (rank s + n)%nat.
Proof.
  induction n as [|n IH]; cbn; intros s s' H.
  - injection H as <-. lia.
  - destruct (getNextStep s) as [s1|] eqn:E; [|discriminate].
    apply IH in H. apply getNextStep_rank in E. lia.
Qed.

Lemma follow_acyclic (n : nat) (s : StepId) : follow (S n) s <> Some s.
Proof. intros H. apply follow_rank in H. lia. Qed.

Lemma getNextStep_terminal (s : StepId) : getNextStep s = None <-> s = complete.
Proof. split; [destruct s; cbn; congruence | intros ->; reflexivity]. Qed.

Lemma chain_total (s : StepId) : exists l, chain 14 s = Some l /\ last l = Some complete.
Proof. destruct s; eexists; (split; [reflexivity|reflexivity]). Qed.

Lemma STEPS_keys_NoDup : List.NoDup STEPS_keys.
Proof.
  unfold STEPS_keys.
  repeat (constructor; [cbn; intuition discriminate|]). constructor.
Qed.

Lemma STEPS_keys_all (s : StepId) : In s STEPS_keys.
Proof. destruct s; cbn; tauto. Qed.

End StepGraph.

(** C9. From rfc.problem, following getNextStep gives a finite sequence: any
    fuel from 14 on yields the whole list, and it is the fifteen steps of the
    table in order. No step occurs twice in it, it ends at [complete], which
    is the only step whose next is null, and no step is reached again from
    itself, so the graph has no cycle. From every other step too the walk
    ends at [complete]. *)
Theorem C9_step_chain_finite_acyclic :
  (forall fuel : nat, (14 <= fuel)%nat -> chain fuel rfc_problem = Some STEPS_keys) /\
  List.NoDup STEPS_keys /\
  last STEPS_keys = Some complete /\
  (forall s : StepId, getNextStep s = None <-> s = complete) /\
  (forall (s : StepId) (n : nat), follow (S n) s <> Some s) /\
  (forall s : StepId, exists l, chain 14 s = Some l /\ last l = Some complete).
Proof.
  split; [|split; [|split; [|split; [|split]]]].
  - intros fuel H. replace fuel with (14 + (fuel - 14))%nat by lia.
    destruct (fuel - 14)%nat; reflexivity.
  - exact STEPS_keys_NoDup.
  - reflexivity.
  - exact getNextStep_terminal.
  - intros s n. apply follow_acyclic.
  - exact chain_total.
Qed.

Lemma C9_step_chain_witness :
  (14 <= 20)%nat /\ chain 20 rfc_problem = Some STEPS_keys.
Proof.
  split; [lia|].
  apply (proj1 C9_step_chain_finite_acyclic 20%nat). lia.
Defined.

Section PhaseCompletion.

Lemma isPhaseComplete_currentStep (st st' : DocForgeState) (ph : DocumentType) :
  currentStep st = currentStep st' -> isPhaseComplete st ph = isPhaseComplete st' ph.
Proof. unfold isPhaseComplete. intros ->. reflexivity. Qed.

Lemma isPhaseComplete_spec (st : DocForgeState) (ph : DocumentType) :
  isPhaseComplete st ph
  = (phaseIndex (phaseOfDocument ph) <? phaseIndex (getPhase (currentStep st)))%nat
    || bool_decide (currentStep st = sentinel ph).
Proof.
  rewrite (isPhaseComplete_currentStep st (stateAt (currentStep st) st)) by reflexivity.
  destruct (currentStep st), ph; vm_compute; reflexivity.
Qed.

End PhaseCompletion.

(** C5. isPhaseComplete is true exactly when the phase of the current step
    comes strictly after the target phase in the order rfc, plan, rollout,
    prompts, or the current step is the target's [<phase>.complete] step. So
    it is false at every other step of the target phase, the last one before
    the sentinel included (rfc.alternatives, plan.criteria,
    rollout.procedures). *)
Theorem C5_isPhaseComplete_policy (st : DocForgeState) (ph : DocumentType) :
  (isPhaseComplete st ph = true <->
     (phaseIndex (phaseOfDocument ph) < phaseIndex (getPhase (currentStep st)))%nat
     \/ currentStep st = sentinel ph) /\
  (getPhase (currentStep st) = phaseOfDocument ph ->
   currentStep st <> sentinel ph ->
   isPhaseComplete st ph = false) /\
  (getNextStep (currentStep st) = Some (sentinel ph) -> isPhaseComplete st ph = false).
Proof.
  rewrite isPhaseComplete_spec. split; [|split].
  - rewrite orb_true_iff, Nat.ltb_lt, bool_decide_eq_true. reflexivity.
  - intros Hp Hs. rewrite Hp, Nat.ltb_irrefl. cbn.
    apply bool_decide_eq_false. exact Hs.
  - destruct (currentStep st), ph; cbn; intros [=]; reflexivity.
Qed.

Lemma C5_isPhaseComplete_witness :
  let st := stateAt rfc_alternatives
              (createInitialState {| Types.name := js "P"; stack := [js "TS"];
                                     constraints := []; createdAt := js "" |}) in
  getPhase (currentStep st) = phaseOfDocument rfc /\
  currentStep st <> sentinel rfc /\
  getNextStep (currentStep st) = Some (sentinel rfc) /\
  isPhaseComplete st rfc = false.
Proof.
  intros st.
  split; [reflexivity|]. split; [discriminate|]. split; [reflexivity|].
  apply (proj1 (proj2 (C5_isPhaseComplete_policy st rfc))); [reflexivity|discriminate].
Defined.

(* ===================================================================== *)
(** ** Paths *)
(* ===================================================================== *)

Section PathTheory.

Lemma segments_nonempty (p : jsstring) : segments p <> [].
Proof.
  destruct p as [|c p]; cbn [segments]; [discriminate|].
  destruct (c =? SEP); [discriminate|]. destruct (segments p); discriminate.
Qed.

Lemma segments_app (x y : jsstring) :
  segments (x ++ SEP :: y) = segments x ++ segments y.
Proof.
  induction x as [|c x IH]; cbn [app segments].
  - rewrite Z.eqb_refl. reflexivity.
  - destruct (c =? SEP); [rewrite IH; reflexivity|].
    rewrite IH. pose proof (segments_nonempty x) as Hne.
    destruct (segments x) as [|seg segs]; [contradiction|]. reflexivity.
Qed.

Lemma segments_noSep (s : jsstring) : noSep s -> segments s = [s].
Proof.
  unfold noSep. induction s as [|c s IH]; intros H; [reflexivity|].
  cbn [segments]. destruct (Z.eqb_spec c SEP) as [->|_].
  - exfalso. apply H. left. reflexivity.
  - rewrite IH; [reflexivity|]. intros Hin. apply H. right. exact Hin.
Qed.

Lemma segments_all_noSep (p : jsstring) : Forall noSep (segments p).
Proof.
  induction p as [|c p IH]; cbn [segments].
  - constructor; [intros []|constructor].
  - destruct (Z.eqb_spec c SEP) as [->|Hc].
    + constructor; [intros []|exact IH].
    + destruct (segments p) as [|seg segs].
      * constructor; [|constructor]. intros [E|[]]. congruence.
      * inversion IH as [|? ? Hseg Hsegs]; subst. constructor; [|exact Hsegs].
        intros [E|Hin]; [congruence|exact (Hseg Hin)].
Qed.

Lemma joinSegments_snoc (segs : list jsstring) (y : jsstring) :
  joinSegments (segs ++ [y])
  = match segs with
    | [] => y
    | _ :: _ => joinSegments segs ++ SEP :: y
    end.
Proof.
  induction segs as [|seg segs IH]; [reflexivity|].
  cbn [app joinSegments]. rewrite IH.
  destruct segs as [|seg' segs']; cbn [app]; [reflexivity|].
  rewrite <- app_assoc. reflexivity.
Qed.

Lemma segments_joinSegments (segs : list jsstring) :
  segs <> [] -> Forall noSep segs -> segments (joinSegments segs) = segs.
Proof.
  induction segs as [|seg segs IH]; intros Hne Hall; [contradiction|].
  inversion Hall as [|? ? Hseg Hsegs]; subst. cbn [joinSegments].
  destruct segs as [|seg' segs'].
  - apply segments_noSep, Hseg.
  - rewrite segments_app, (segments_noSep seg Hseg), IH by (discriminate || exact Hsegs).
    reflexivity.
Qed.

Lemma plain_not_special (seg : jsstring) :
  plain seg ->
  JsString.eqb seg [] || JsString.eqb seg (js ".") = false /\ JsString.eqb seg (js "..") = false.
Proof.
  intros (_ & H0 & H1 & H2). unfold JsString.eqb.
  rewrite !bool_decide_eq_false_2 by assumption. split; reflexivity.
Qed.

Lemma normalizeSegment_plain (allow : bool) (res : list jsstring) (seg : jsstring) :
  plain seg -> normalizeSegment allow res seg = seg :: res.
Proof.
  intros H. unfold normalizeSegment. destruct (plain_not_special seg H) as [-> ->].
  reflexivity.
Qed.

Lemma canonical_dotdots (res : list jsstring) :
  Forall (eq (js "..")) res -> canonical true res.
Proof.
  induction res as [|top res IH]; intros H; [exact I|].
  inversion H as [|? ? Htop Hres]; subst. right. tauto.
Qed.

Lemma plain_not_dotdot (seg : jsstring) : plain seg -> seg <> js "..".
Proof. intros (_ & _ & _ & H). exact H. Qed.

Lemma normalizeSegment_canonical (allow : bool) (res : list jsstring) (seg : jsstring) :
  noSep seg -> canonical allow res -> canonical allow (normalizeSegment allow res seg).
Proof.
  intros Hseg Hres. unfold normalizeSegment, JsString.eqb.
  destruct (bool_decide (seg = [])) eqn:E0; [exact Hres|].
  destruct (bool_decide (seg = js ".")) eqn:E1; [exact Hres|]. cbn [orb].
  apply bool_decide_eq_false in E0, E1.
  destruct (bool_decide (seg = js "..")) eqn:E2.
  - apply bool_decide_eq_true in E2. subst seg.
    destruct res as [|top res'].
    + destruct allow; [|exact I]. right. split; [reflexivity|]. split; [reflexivity|constructor].
    + destruct (bool_decide (top = js "..")) eqn:Et.
      * apply bool_decide_eq_true in Et. subst top.
        destruct allow; [|exact Hres].
        right. split; [reflexivity|]. split; [reflexivity|].
        destruct Hres as [[Hp _]|(_ & _ & Hall)].
        -- exfalso. exact (plain_not_dotdot _ Hp eq_refl).
        -- constructor; [reflexivity|exact Hall].
      * apply bool_decide_eq_false in Et.
        destruct Hres as [[_ Hc]|(Htop & _)]; [exact Hc|contradiction].
  - apply bool_decide_eq_false in E2. left. split; [|exact Hres].
    repeat split; assumption.
Qed.

Lemma fold_canonical (allow : bool) (segs : list jsstring) :
  forall res, Forall noSep segs -> canonical allow res ->
    canonical allow (fold_left (normalizeSegment allow) segs res).
Proof.
  induction segs as [|seg segs IH]; intros res Hall Hres; [exact Hres|].
  inversion Hall as [|? ? Hseg Hsegs]; subst. cbn [fold_left].
  apply IH; [exact Hsegs|]. apply normalizeSegment_canonical; assumption.
Qed.

(** Normalizing what was normalized changes nothing. *)
Lemma refold (allow : bool) (res : list jsstring) :
  canonical allow res -> fold_left (normalizeSegment allow) (rev res) [] = res.
Proof.
  induction res as [|top res IH]; intros H; [reflexivity|].
  cbn [rev]. rewrite fold_left_app. cbn [fold_left].
  destruct H as [[Hp Hc]|(-> & -> & Hall)].
  - rewrite (IH Hc). apply normalizeSegment_plain, Hp.
  - rewrite (IH (canonical_dotdots res Hall)).
    destruct res as [|top' res']; [reflexivity|].
    inversion Hall as [|? ? Htop _]; subst. reflexivity.
Qed.

Lemma canonical_noSep (allow : bool) (res : list jsstring) :
  canonical allow res -> Forall noSep res.
Proof.
  induction res as [|top res IH]; intros H; [constructor|].
  destruct H as [[Hp Hc]|(-> & -> & Hall)].
  - constructor; [apply Hp|apply IH, Hc].
  - constructor.
    + intros Hin. vm_compute in Hin. intuition discriminate.
    + apply IH, canonical_dotdots, Hall.
Qed.

Lemma canonical_nonempty (allow : bool) (res : list jsstring) :
  canonical allow res -> Forall (fun seg => seg <> []) res.
Proof.
  induction res as [|top res IH]; intros H; [constructor|].
  destruct H as [[Hp Hc]|(-> & -> & Hall)].
  - constructor; [apply Hp|apply IH, Hc].
  - constructor; [discriminate|apply IH, canonical_dotdots, Hall].
Qed.

Lemma last_after_separator (l y : jsstring) :
  y <> [] -> List.last (l ++ SEP :: y) 0 = List.last y 0.
Proof.
  intros Hy. destruct (exists_last Hy) as (y' & z & ->).
  rewrite List.last_last.
  change (l ++ SEP :: y' ++ [z]) with (l ++ (SEP :: y') ++ [z]).
  rewrite app_assoc. apply List.last_last.
Qed.

Lemma plain_last (y : jsstring) : plain y -> (List.last y 0 =? SEP) = false.
Proof.
  intros (Hsep & Hne & _). destruct (exists_last Hne) as (y' & z & ->).
  rewrite List.last_last. apply Z.eqb_neq. intros ->. apply Hsep.
  apply in_or_app. right. left. reflexivity.
Qed.

Lemma plain_head (y : jsstring) (c : Z) (rest : jsstring) :
  noSep y -> y = c :: rest -> (c =? SEP) = false.
Proof. intros H ->. apply Z.eqb_neq. intros ->. apply H. left. reflexivity. Qed.

Lemma joinSegments_head (segs : list jsstring) (c : Z) (rest : jsstring) :
  Forall noSep segs -> Forall (fun seg => seg <> []) segs ->
  joinSegments segs = c :: rest -> (c =? SEP) = false.
Proof.
  destruct segs as [|seg segs]; intros Hs Hn H; [discriminate H|].
  inversion Hs as [|? ? Hseg _]; inversion Hn as [|? ? Hne _]; subst.
  destruct seg as [|c' seg']; [contradiction|].
  assert (c' = c) as ->.
  { cbn [joinSegments] in H. destruct segs; cbn [app] in H; congruence. }
  exact (plain_head _ _ _ Hseg eq_refl).
Qed.

Lemma joinSegments_nonempty (segs : list jsstring) (y : jsstring) :
  y <> [] -> joinSegments (segs ++ [y]) <> [].
Proof.
  intros Hy. rewrite joinSegments_snoc. destruct segs; [exact Hy|].
  intros H. apply app_eq_nil in H as [_ H]. discriminate H.
Qed.

(** Normalizing a canonical path followed by a plain segment appends the
    segment. *)
Lemma normalize_snoc (abs : bool) (res : list jsstring) (y : jsstring) (a : jsstring) :
  canonical (negb abs) res -> plain y ->
  a <> [] -> (forall c rest, a = c :: rest -> (c =? SEP) = abs) ->
  fold_left (normalizeSegment (negb abs)) (segments a) [] = res ->
  normalize (a ++ SEP :: y) = pathOf abs (rev (y :: res)).
Proof.
  intros Hres Hy Ha Habs Hfold. unfold normalize.
  destruct a as [|c rest]; [contradiction|]. cbn [app].
  change (c :: rest ++ SEP :: y) with ((c :: rest) ++ SEP :: y).
  rewrite (Habs c rest eq_refl).
  rewrite segments_app, fold_left_app, Hfold, (segments_noSep y) by apply Hy.
  cbn [fold_left]. rewrite (normalizeSegment_plain _ _ _ Hy).
  rewrite last_after_separator, (plain_last y Hy) by apply Hy.
  cbn [rev]. pose proof (joinSegments_nonempty (rev res) y (proj1 (proj2 Hy))) as Hne.
  unfold pathOf. destruct (joinSegments (rev res ++ [y])) as [|j js']; [contradiction|].
  rewrite app_nil_r. reflexivity.
Qed.

Lemma normalize_plain (y : jsstring) : plain y -> normalize y = y.
Proof.
  intros Hy. unfold normalize. destruct y as [|c rest] eqn:E; [destruct Hy as (_ & H & _); contradiction|].
  rewrite <- E in *. rewrite (plain_head y c rest (proj1 Hy) E).
  rewrite (segments_noSep y (proj1 Hy)). cbn [fold_left negb].
  rewrite (normalizeSegment_plain _ _ _ Hy). cbn [rev app joinSegments].
  rewrite (plain_last y Hy). rewrite E. rewrite app_nil_r. reflexivity.
Qed.

(** [join] of any directory with a plain name: the directory in canonical
    form, then the name. *)
Lemma join_canonical (a : jsstring) :
  exists (abs : bool) (res : list jsstring),
    canonical (negb abs) res /\
    forall y, plain y -> join a y = pathOf abs (rev (y :: res)).
Proof.
  destruct a as [|c rest].
  - exists false, []. split; [exact I|]. intros y Hy.
    unfold join. destruct y as [|c' y'] eqn:E; [destruct Hy as (_ & H & _); contradiction|].
    rewrite <- E in *. rewrite (normalize_plain y Hy). reflexivity.
  - exists (c =? SEP), (fold_left (normalizeSegment (negb (c =? SEP))) (segments (c :: rest)) []).
    split.
    + apply fold_canonical; [apply segments_all_noSep|exact I].
    + intros y Hy. unfold join.
      destruct y as [|c' y'] eqn:E; [destruct Hy as (_ & H & _); contradiction|].
      rewrite <- E in *. apply normalize_snoc; try assumption.
      * apply fold_canonical; [apply segments_all_noSep|exact I].
      * discriminate.
      * intros c0 rest0 H. injection H as <- _. reflexivity.
      * reflexivity.
Qed.

Lemma pathOf_head (abs : bool) (segs : list jsstring) (c : Z) (rest : jsstring) :
  Forall noSep segs -> Forall (fun seg => seg <> []) segs ->
  pathOf abs segs = c :: rest -> (c =? SEP) = abs.
Proof.
  unfold pathOf. destruct abs; cbn [app]; intros Hs Hn H.
  - injection H as <- _. reflexivity.
  - exact (joinSegments_head segs c rest Hs Hn H).
Qed.

Lemma segments_pathOf (abs : bool) (segs : list jsstring) :
  segs <> [] -> Forall noSep segs ->
  segments (pathOf abs segs) = (if abs then [[]] else []) ++ segs.
Proof.
  intros Hne Hs. unfold pathOf. destruct abs; cbn [app segments].
  - rewrite Z.eqb_refl, segments_joinSegments by assumption. reflexivity.
  - apply segments_joinSegments; assumption.
Qed.

(** Joining a plain name to a path [join] made appends the name. *)
Lemma join_pathOf (abs : bool) (res : list jsstring) (x y : jsstring) :
  canonical (negb abs) res -> plain x -> plain y ->
  join (pathOf abs (rev (x :: res))) y = pathOf abs (rev (y :: x :: res)).
Proof.
  intros Hres Hx Hy.
  assert (Hc : canonical (negb abs) (x :: res)) by (left; split; assumption).
  assert (Hs : Forall noSep (rev (x :: res)))
    by (apply Forall_rev; apply (canonical_noSep _ _ Hc)).
  assert (Hn : Forall (fun seg => seg <> []) (rev (x :: res)))
    by (apply Forall_rev; apply (canonical_nonempty _ _ Hc)).
  assert (Hne : rev (x :: res) <> []).
  { cbn [rev]. intros H. apply app_eq_nil in H as [_ H]. discriminate H. }
  assert (Ha : pathOf abs (rev (x :: res)) <> []).
  { unfold pathOf. cbn [rev]. intros H. apply app_eq_nil in H as [_ H].
    exact (joinSegments_nonempty _ _ (proj1 (proj2 Hx)) H). }
  unfold join.
  destruct (pathOf abs (rev (x :: res))) as [|c rest] eqn:E; [contradiction|].
  destruct y as [|c' y'] eqn:Ey; [destruct Hy as (_ & H & _); contradiction|].
  rewrite <- Ey, <- E in *. apply normalize_snoc; try assumption.
  - intros c0 rest0 H. exact (pathOf_head abs _ c0 rest0 Hs Hn H).
  - rewrite segments_pathOf by assumption. rewrite fold_left_app.
    replace (fold_left (normalizeSegment (negb abs)) (if abs then [[]] else []) [])
      with (@nil jsstring) by (destruct abs; reflexivity).
    apply refold, Hc.
Qed.

Lemma pathOf_snoc (abs : bool) (segs : list jsstring) (y : jsstring) :
  segs <> [] -> pathOf abs (segs ++ [y]) = pathOf abs segs ++ SEP :: y.
Proof.
  intros Hne. unfold pathOf. rewrite joinSegments_snoc.
  destruct segs; [contradiction|]. rewrite app_assoc. reflexivity.
Qed.

End PathTheory.

Section Dirname.

Lemma dropSeparators_head (c : Z) (s : jsstring) :
  (c =? SEP) = false -> dropSeparators (c :: s) = c :: s.
Proof. intros H. cbn [dropSeparators]. rewrite H. reflexivity. Qed.

Lemma afterSeparator_app (y s : jsstring) :
  noSep y -> afterSeparator (y ++ SEP :: s) = Some s.
Proof.
  unfold noSep. induction y as [|c y IH]; intros H; cbn [app afterSeparator].
  - rewrite Z.eqb_refl. reflexivity.
  - destruct (Z.eqb_spec c SEP) as [->|_].
    + exfalso. apply H. left. reflexivity.
    + apply IH. intros Hin. apply H. right. exact Hin.
Qed.

Lemma noSep_rev (y : jsstring) : noSep y -> noSep (rev y).
Proof. unfold noSep. intros H Hin. apply H. apply in_rev. exact Hin. Qed.

(** The directory of a path that ends in a separator and a name is what is
    before the separator. *)
Lemma dirname_snoc (x y : jsstring) :
  x <> [] -> x <> [SEP] -> noSep y -> y <> [] ->
  dirname (x ++ SEP :: y) = x.
Proof.
  intros Hx Hroot Hy Hne. destruct x as [|c xs]; [contradiction|].
  cbn [app dirname]. rewrite rev_app_distr. cbn [rev]. rewrite <- app_assoc. cbn [app].
  destruct (exists_last Hne) as (y' & z & ->).
  rewrite rev_app_distr. cbn [rev app].
  assert (Hz : (z =? SEP) = false).
  { apply Z.eqb_neq. intros ->. apply Hy. apply in_or_app. right. left. reflexivity. }
  rewrite dropSeparators_head by exact Hz.
  change (z :: rev y' ++ SEP :: rev xs) with ((z :: rev y') ++ SEP :: rev xs).
  rewrite afterSeparator_app.
  - destruct (rev xs) as [|b bs] eqn:E.
    + assert (xs = []) as -> by (apply (f_equal (@rev Z)) in E; rewrite rev_involutive in E; exact E).
      destruct (Z.eqb_spec c SEP) as [->|_]; [contradiction|reflexivity].
    + rewrite <- E, rev_involutive. reflexivity.
  -    replace (z :: rev y') with (rev (y' ++ [z])) by (rewrite rev_app_distr; reflexivity).
    apply noSep_rev, Hy.
Qed.

Lemma dropSeparators_length (s : jsstring) : (length (dropSeparators s) <= length s)%nat.
Proof.
  induction s as [|c s IH]; cbn [dropSeparators]; [lia|].
  destruct (c =? SEP); cbn [length]; lia.
Qed.

Lemma afterSeparator_length (s b : jsstring) :
  afterSeparator s = Some b -> (length b < length s)%nat.
Proof.
  revert b. induction s as [|c s IH]; intros b; cbn [afterSeparator]; [discriminate|].
  destruct (c =? SEP).
  - intros H. injection H as <-. cbn [length]. lia.
  - intros H. specialize (IH b H). cbn [length]. lia.
Qed.

Lemma afterSeparator_dropped (s b : jsstring) :
  afterSeparator (dropSeparators s) = Some b -> (length b + 2 <= length s)%nat.
Proof.
  induction s as [|c s IH]; cbn [dropSeparators]; [discriminate|].
  destruct (c =? SEP) eqn:E.
  - intros H. specialize (IH H). cbn [length]. lia.
  - cbn [afterSeparator]. rewrite E. intros H. apply afterSeparator_length in H.
    cbn [length]. lia.
Qed.

(** The directory of a path is shorter than the path, unless it is the root
    or the working directory. *)
Lemma dirname_length (p : jsstring) :
  dirname p <> js "/" -> dirname p <> js "." ->
  (length (dirname p) < length p)%nat.
Proof.
  unfold dirname. destruct p as [|c rest]; [intros _ H; contradiction|].
  destruct (afterSeparator (dropSeparators (rev rest))) as [before|] eqn:E.
  - apply afterSeparator_dropped in E. rewrite length_rev in E.
    destruct before as [|b bs].
    + change (js "//") with [SEP; SEP].
      destruct (c =? SEP); intros _ _; cbn [length] in *; lia.
    + intros _ _. cbn [length] in *. rewrite length_rev. cbn [length]. lia.
  - destruct (c =? SEP); intros H1 H2; contradiction.
Qed.

End Dirname.

(* ===================================================================== *)
(** ** The file system *)
(* ===================================================================== *)

Section Mkdir.

Lemma entry_lookup (d : Disk) (p : jsstring) :
  alwaysThere p = false -> entry d p = d !! p.
Proof. unfold entry. intros ->. reflexivity. Qed.

Lemma entry_None (d : Disk) (p : jsstring) :
  entry d p = None -> alwaysThere p = false /\ d !! p = None.
Proof. unfold entry. destruct (alwaysThere p); [discriminate|]. tauto. Qed.

Lemma entry_dirname (d : Disk) (p : jsstring) :
  entry d (dirname p) = None -> (length (dirname p) < length p)%nat.
Proof.
  intros H. apply entry_None in H as [H _]. unfold alwaysThere, JsString.eqb in H.
  apply orb_false_iff in H as [H1 H2]. apply bool_decide_eq_false in H1, H2.
  apply dirname_length; assumption.
Qed.

Lemma mkdirFrom_entry (f : nat) (p : jsstring) (d : Disk) (n : Node) :
  entry d p = Some n ->
  mkdirFrom f p d = (match n with Directory => Ok tt | File _ => Throw EEXIST end, d).
Proof. intros H. destruct f, n; cbn [mkdirFrom]; rewrite H; reflexivity. Qed.

Lemma dirname_nonempty (p : jsstring) : dirname p <> [].
Proof.
  unfold dirname. destruct p as [|c rest]; [discriminate|].
  destruct (afterSeparator (dropSeparators (rev rest))) as [[|b bs]|];
    destruct (c =? SEP); discriminate.
Qed.

(** [mkdir] does not depend on its fuel: the length of the path is enough. *)
Lemma mkdirFrom_fuel (f1 : nat) :
  forall (f2 : nat) (p : jsstring) (d : Disk),
    p <> [] -> (length p <= f1)%nat -> (length p <= f2)%nat ->
    mkdirFrom f1 p d = mkdirFrom f2 p d.
Proof.
  induction f1 as [|f1 IH]; intros f2 p d Hp H1 H2.
  - destruct p; [contradiction|cbn in H1; lia].
  - destruct f2 as [|f2]; [destruct p; [contradiction|cbn in H2; lia]|].
    cbn [mkdirFrom]. destruct (entry d p) as [[c|]|] eqn:E; try reflexivity.
    destruct (entry d (dirname p)) as [n|] eqn:Ed.
    + rewrite !(mkdirFrom_entry _ _ _ _ Ed). reflexivity.
    + apply entry_dirname in Ed.
      rewrite (IH f2 (dirname p) d) by (apply dirname_nonempty || lia). reflexivity.
Qed.

Lemma mkdirFrom_failure (f : nat) :
  forall (p : jsstring) (d d' : Disk) (e : Exception),
    mkdirFrom f p d = (Throw e, d') -> d' = d.
Proof.
  induction f as [|f IH]; intros p d d' e; cbn [mkdirFrom];
    destruct (entry d p) as [[c|]|]; try (intros H; injection H as _ <-; reflexivity);
    try discriminate.
  destruct (mkdirFrom f (dirname p) d) as [[[]|e'] d''] eqn:E; [discriminate|].
  intros H. injection H as _ <-. exact (IH _ _ _ _ E).
Qed.

(** What [mkdir] changes is a path that held nothing and holds a directory
    after it. *)
Lemma mkdirFrom_adds (f : nat) :
  forall (p : jsstring) (d d' : Disk) (r : Result unit) (k : jsstring),
    mkdirFrom f p d = (r, d') ->
    d' !! k = d !! k \/ (d !! k = None /\ d' !! k = Some Directory).
Proof.
  induction f as [|f IH]; intros p d d' r k; cbn [mkdirFrom];
    destruct (entry d p) as [[c|]|] eqn:Ep;
    try (intros H; injection H as _ <-; left; reflexivity).
  destruct (mkdirFrom f (dirname p) d) as [[[]|e'] d''] eqn:E;
    intros H; injection H as _ <-.
  - destruct (decide (k = p)) as [->|Hk].
    + right. apply entry_None in Ep as [_ Ep]. split; [exact Ep|apply lookup_insert_eq].
    + rewrite lookup_insert_ne by congruence. exact (IH _ _ _ _ k E).
  - exact (IH _ _ _ _ k E).
Qed.

Lemma mkdirFrom_keeps (f : nat) (p : jsstring) (d d' : Disk) (r : Result unit)
    (k : jsstring) (n : Node) :
  mkdirFrom f p d = (r, d') -> d !! k = Some n -> d' !! k = Some n.
Proof.
  intros H Hk. destruct (mkdirFrom_adds f p d d' r k H) as [E|[E _]]; congruence.
Qed.

Lemma mkdirFrom_made (f : nat) (p : jsstring) (d d' : Disk) :
  mkdirFrom f p d = (Ok tt, d') -> entry d' p = Some Directory.
Proof.
  destruct f as [|f]; cbn [mkdirFrom]; destruct (entry d p) as [[c|]|] eqn:Ep;
    try discriminate; try (intros H; injection H as <-; exact Ep).
  destruct (mkdirFrom f (dirname p) d) as [[[]|e'] d''] eqn:E; [|discriminate].
  intros H. injection H as <-. apply entry_None in Ep as [Ep _].
  rewrite entry_lookup by exact Ep. apply lookup_insert_eq.
Qed.

(** [mkdir] changes no path longer than the one it makes. *)
Lemma mkdirFrom_longer (f : nat) :
  forall (p : jsstring) (d d' : Disk) (r : Result unit) (k : jsstring),
    mkdirFrom f p d = (r, d') -> (length p < length k)%nat -> d' !! k = d !! k.
Proof.
  induction f as [|f IH]; intros p d d' r k; cbn [mkdirFrom];
    destruct (entry d p) as [[c|]|] eqn:Ep;
    try (intros H _; injection H as _ <-; reflexivity).
  destruct (entry d (dirname p)) as [n|] eqn:Ed.
  - assert (Hrec : mkdirFrom f (dirname p) d
                   = (match n with Directory => Ok tt | File _ => Throw EEXIST end, d))
      by (destruct f, n; cbn [mkdirFrom]; rewrite Ed; reflexivity).
    rewrite Hrec. destruct n; intros H Hk; injection H as _ <-; [reflexivity|].
    apply lookup_insert_ne. intros <-. lia.
  - apply entry_dirname in Ed.
    destruct (mkdirFrom f (dirname p) d) as [[[]|e'] d''] eqn:E;
      intros H Hk; injection H as _ <-.
    + rewrite lookup_insert_ne by (intros <-; lia).
      apply (IH _ _ _ _ k E). lia.
    + apply (IH _ _ _ _ k E). lia.
Qed.

Lemma mkdir_existing (d : Disk) (p : jsstring) :
  entry d p = Some Directory -> mkdir p d = (Ok tt, d).
Proof.
  intros H. unfold mkdir. destruct (length p); cbn [mkdirFrom]; rewrite H; reflexivity.
Qed.

Lemma mkdir_file (d : Disk) (p : jsstring) (c : FileText) :
  entry d p = Some (File c) -> mkdir p d = (Throw EEXIST, d).
Proof.
  intros H. unfold mkdir. destruct (length p); cbn [mkdirFrom]; rewrite H; reflexivity.
Qed.

Lemma mkdir_new (d : Disk) (p : jsstring) :
  p <> [] -> entry d p = None -> entry d (dirname p) = Some Directory ->
  mkdir p d = (Ok tt, <[p := Directory]> d).
Proof.
  intros Hp H Hd. unfold mkdir. destruct p as [|c p]; [contradiction|].
  cbn [length mkdirFrom]. rewrite H, (mkdirFrom_entry _ _ _ _ Hd). reflexivity.
Qed.

(** Writing a file over a file changes nothing for [mkdir]. *)
Lemma mkdirFrom_overwrite (f : nat) :
  forall (p : jsstring) (d : Disk) (k : jsstring) (c c' : FileText),
    d !! k = Some (File c) ->
    mkdirFrom f p (<[k := File c']> d)
    = (fst (mkdirFrom f p d), <[k := File c']> (snd (mkdirFrom f p d))).
Proof.
  assert (Hentry : forall (d : Disk) k c c' q,
            d !! k = Some (File c) ->
            entry (<[k := File c']> d) q
            = match entry d q with
              | Some (File x) => Some (File (if decide (q = k) then c' else x))
              | other => other
              end).
  { intros d k c c' q Hk. unfold entry. destruct (alwaysThere q); [reflexivity|].
    destruct (decide (q = k)) as [->|Hq].
    - rewrite lookup_insert_eq, Hk. reflexivity.
    - rewrite lookup_insert_ne by congruence. destruct (d !! q) as [[x|]|]; reflexivity. }
  induction f as [|f IH]; intros p d k c c' Hk; cbn [mkdirFrom];
    rewrite (Hentry d k c c' p Hk);
    destruct (entry d p) as [[x|]|] eqn:Ep; try reflexivity.
  rewrite (IH (dirname p) d k c c' Hk).
  destruct (mkdirFrom f (dirname p) d) as [[[]|e] d''] eqn:E; cbn [fst snd]; [|reflexivity].
  f_equal. apply insert_insert_ne. intros <-.
  apply entry_None in Ep as [_ Ep]. congruence.
Qed.

End Mkdir.

Section Writing.

Lemma writeFile_ok (d : Disk) (p : jsstring) (c : FileText) :
  canWrite d p = true -> writeFile p c d = (Ok tt, <[p := File c]> d).
Proof.
  unfold canWrite, isDirectoryAt, writeFile.
  destruct (entry d p) as [[x|]|]; [reflexivity|discriminate|].
  destruct (entry d (dirname p)) as [[x|]|]; [discriminate|reflexivity|discriminate].
Qed.

Lemma writeFile_fails (d : Disk) (p : jsstring) (c : FileText) :
  canWrite d p = false ->
  exists e, writeFile p c d = (Throw e, d) /\ In e [EISDIR; ENOTDIR; ENOENT].
Proof.
  unfold canWrite, isDirectoryAt, writeFile.
  destruct (entry d p) as [[x|]|]; [discriminate|intros _; exists EISDIR; cbn; tauto|].
  destruct (entry d (dirname p)) as [[x|]|]; [|discriminate|].
  - intros _. exists ENOTDIR. cbn. tauto.
  - intros _. exists ENOENT. cbn. tauto.
Qed.

Lemma canMake_mkdir (d : Disk) (q : jsstring) :
  canMake d q = true -> mkdir q d = (Ok tt, made q d).
Proof.
  unfold canMake, made. destruct (mkdir q d) as [[[]|e] d']; [reflexivity|discriminate].
Qed.

Lemma cannotMake_mkdir (d : Disk) (q : jsstring) :
  canMake d q = false -> exists e, mkdir q d = (Throw e, d).
Proof.
  unfold canMake. destruct (mkdir q d) as [[[]|e] d'] eqn:E; [discriminate|].
  intros _. exists e. rewrite (mkdirFrom_failure _ _ _ _ _ E). reflexivity.
Qed.

(** When a directory can be made, by what is at its path and above it. *)
Lemma canMake_cases (d : Disk) (q : jsstring) :
  (entry d q = Some Directory -> canMake d q = true) /\
  (q <> [] -> entry d q = None -> entry d (dirname q) = Some Directory ->
   canMake d q = true) /\
  (forall c, entry d q = Some (File c) -> canMake d q = false).
Proof.
  unfold canMake. split; [|split].
  - intros H. rewrite (mkdir_existing d q H). reflexivity.
  - intros Hq H Hup. rewrite (mkdir_new d q Hq H Hup). reflexivity.
  - intros c H. rewrite (mkdir_file d q c H). reflexivity.
Qed.

Lemma made_existing (d : Disk) (q : jsstring) :
  entry d q = Some Directory -> canMake d q = true /\ made q d = d.
Proof.
  intros H. unfold canMake, made. rewrite (mkdir_existing d q H). split; reflexivity.
Qed.

Lemma made_keeps (d : Disk) (q k : jsstring) (n : Node) :
  d !! k = Some n -> made q d !! k = Some n.
Proof.
  unfold made, mkdir. destruct (mkdirFrom (length q) q d) as [r d'] eqn:E.
  exact (mkdirFrom_keeps _ _ _ _ _ k n E).
Qed.

Lemma made_adds (d : Disk) (q k : jsstring) :
  made q d !! k = d !! k \/ (d !! k = None /\ made q d !! k = Some Directory).
Proof.
  unfold made, mkdir. destruct (mkdirFrom (length q) q d) as [r d'] eqn:E.
  exact (mkdirFrom_adds _ _ _ _ _ k E).
Qed.

Lemma made_longer (d : Disk) (q k : jsstring) :
  (length q < length k)%nat -> made q d !! k = d !! k.
Proof.
  unfold made, mkdir. destruct (mkdirFrom (length q) q d) as [r d'] eqn:E.
  exact (mkdirFrom_longer _ _ _ _ _ k E).
Qed.

Lemma made_directory (d : Disk) (q : jsstring) :
  canMake d q = true -> entry (made q d) q = Some Directory.
Proof.
  intros H. apply canMake_mkdir in H. unfold mkdir in H.
  exact (mkdirFrom_made _ _ _ _ H).
Qed.

(** Making the directory of a path does not change what the path holds. *)
Lemma made_dirname (d : Disk) (p : jsstring) : made (dirname p) d !! p = d !! p.
Proof.
  destruct (entry d (dirname p)) as [n|] eqn:E.
  - unfold made, mkdir. rewrite (mkdirFrom_entry _ _ _ _ E). reflexivity.
  - apply made_longer, (entry_dirname d), E.
Qed.

Lemma entry_made_dirname (d : Disk) (p : jsstring) :
  entry (made (dirname p) d) p = entry d p.
Proof. unfold entry. rewrite made_dirname. reflexivity. Qed.

Lemma made_overwrite (d : Disk) (q k : jsstring) (c c' : FileText) :
  d !! k = Some (File c) ->
  canMake (<[k := File c']> d) q = canMake d q /\
  made q (<[k := File c']> d) = <[k := File c']> (made q d).
Proof.
  intros H. unfold canMake, made, mkdir.
  rewrite (mkdirFrom_overwrite _ q d k c c' H).
  destruct (mkdirFrom (length q) q d) as [[[]|e] d']; split; reflexivity.
Qed.

Lemma isDirectoryAt_insert_file (d : Disk) (k p : jsstring) (c : FileText) :
  isDirectoryAt d p = false -> isDirectoryAt (<[k := File c]> d) p = false.
Proof.
  unfold isDirectoryAt, entry. destruct (alwaysThere p); [discriminate|].
  destruct (decide (p = k)) as [->|Hp].
  - rewrite lookup_insert_eq. reflexivity.
  - rewrite lookup_insert_ne by congruence. tauto.
Qed.

Section TextFiles.

Variable asFile : jsstring -> FileText.

Lemma writeFileSafe_ok (d : Disk) (p content : jsstring) :
  canWriteSafe d p = true ->
  writeFileSafe asFile p content d
  = (Ok tt, <[p := File (asFile content)]> (made (dirname p) d)).
Proof.
  unfold canWriteSafe. intros H. apply andb_true_iff in H as [Hm Hp].
  apply negb_true_iff in Hp.
  unfold writeFileSafe, ensureDir, bind. rewrite (canMake_mkdir d _ Hm).
  apply writeFile_ok. unfold canWrite, isDirectoryAt.
  rewrite entry_made_dirname, (made_directory d _ Hm).
  unfold isDirectoryAt in Hp. destruct (entry d p) as [[x|]|]; [reflexivity|discriminate|reflexivity].
Qed.

(** Where the directory of the path is there, nothing else changes. *)
Lemma writeFileSafe_in_directory (d : Disk) (p content : jsstring) :
  entry d (dirname p) = Some Directory -> isDirectoryAt d p = false ->
  writeFileSafe asFile p content d = (Ok tt, <[p := File (asFile content)]> d).
Proof.
  intros Hd Hp. destruct (made_existing d _ Hd) as [Hm Hsame].
  rewrite writeFileSafe_ok, Hsame; [reflexivity|].
  unfold canWriteSafe. rewrite Hm, Hp. reflexivity.
Qed.

Lemma writeFileSafe_fails (d : Disk) (p content : jsstring) :
  canWriteSafe d p = false ->
  exists e d', writeFileSafe asFile p content d = (Throw e, d') /\
               (d' = d \/ d' = made (dirname p) d).
Proof.
  unfold canWriteSafe. intros H. unfold writeFileSafe, ensureDir, bind.
  destruct (canMake d (dirname p)) eqn:Hm.
  - cbn [andb] in H. apply negb_false_iff in H.
    rewrite (canMake_mkdir d _ Hm).
    assert (Hw : canWrite (made (dirname p) d) p = false).
    { unfold canWrite. rewrite entry_made_dirname. unfold isDirectoryAt in H.
      destruct (entry d p) as [[x|]|]; [discriminate|reflexivity|discriminate]. }
    destruct (writeFile_fails _ p (asFile content) Hw) as (e & -> & _).
    exists e, (made (dirname p) d). split; [reflexivity|]. right. reflexivity.
  - destruct (cannotMake_mkdir d _ Hm) as [e ->].
    exists e, d. split; [reflexivity|]. left. reflexivity.
Qed.

End TextFiles.

End Writing.

Section StorePaths.

Lemma afterSeparator_noSep (s : jsstring) : noSep s -> afterSeparator s = None.
Proof.
  unfold noSep. induction s as [|c s IH]; intros H; [reflexivity|].
  cbn [afterSeparator]. destruct (Z.eqb_spec c SEP) as [->|_].
  - exfalso. apply H. left. reflexivity.
  - apply IH. intros Hin. apply H. right. exact Hin.
Qed.

Lemma dropSeparators_noSep (s : jsstring) : noSep s -> dropSeparators s = s.
Proof.
  unfold noSep. destruct s as [|c s]; intros H; [reflexivity|].
  apply dropSeparators_head, Z.eqb_neq. intros ->. apply H. left. reflexivity.
Qed.

(** The directory of a name alone is the root or the working directory. *)
Lemma dirname_name (x : jsstring) (abs : bool) :
  noSep x -> x <> [] ->
  dirname ((if abs then [SEP] else []) ++ x) = if abs then js "/" else js ".".
Proof.
  intros Hx Hne. destruct abs; cbn [app].
  - cbn [dirname]. rewrite Z.eqb_refl.
    rewrite (dropSeparators_noSep _ (noSep_rev x Hx)).
    rewrite (afterSeparator_noSep _ (noSep_rev x Hx)). reflexivity.
  - destruct x as [|c rest]; [contradiction|]. cbn [dirname].
    assert (Hrest : noSep rest) by (intros Hin; apply Hx; right; exact Hin).
    rewrite (dropSeparators_noSep _ (noSep_rev rest Hrest)).
    rewrite (afterSeparator_noSep _ (noSep_rev rest Hrest)).
    rewrite (plain_head (c :: rest) c rest Hx eq_refl). reflexivity.
Qed.

Lemma pathOf_proper (abs : bool) (segs : list jsstring) :
  segs <> [] -> Forall noSep segs -> Forall (fun seg => seg <> []) segs ->
  pathOf abs segs <> [] /\ pathOf abs segs <> [SEP].
Proof.
  intros Hne Hs Hn.
  assert (Hj : joinSegments segs <> []).
  { destruct segs as [|seg segs']; [contradiction|].
    inversion Hn as [|? ? Hseg _]; subst. cbn [joinSegments].
    destruct segs'; [exact Hseg|]. intros H. apply app_eq_nil in H as [H _]. contradiction. }
  unfold pathOf. destruct abs; cbn [app].
  - split; [discriminate|]. intros H. injection H as H. contradiction.
  - split; [exact Hj|]. intros H.
    pose proof (joinSegments_head segs SEP [] Hs Hn H) as Hc.
    rewrite Z.eqb_refl in Hc. discriminate Hc.
Qed.

(** The paths [join] gives for names in one directory: one text, then the
    name; and these paths have one directory. *)
Lemma join_names (a : jsstring) :
  exists base parent : jsstring,
    (forall x, plain x -> join a x = base ++ x) /\
    (forall x y, plain x -> plain y -> join (join a x) y = base ++ x ++ SEP :: y) /\
    (forall x, plain x -> dirname (base ++ x) = parent) /\
    (forall x y, plain x -> plain y -> dirname (base ++ x ++ SEP :: y) = base ++ x).
Proof.
  destruct (join_canonical a) as (abs & res & Hres & Hjoin).
  assert (Hs : Forall noSep (rev res)) by (apply Forall_rev, (canonical_noSep _ _ Hres)).
  assert (Hn : Forall (fun seg => seg <> []) (rev res))
    by (apply Forall_rev, (canonical_nonempty _ _ Hres)).
  assert (Hproper : forall x, plain x ->
            pathOf abs (rev res ++ [x]) <> [] /\ pathOf abs (rev res ++ [x]) <> [SEP]).
  { intros x Hx. apply pathOf_proper.
    - intros H. apply app_eq_nil in H as [_ H]. discriminate H.
    - apply Forall_app. split; [exact Hs|]. constructor; [apply Hx|constructor].
    - apply Forall_app. split; [exact Hn|]. constructor; [apply Hx|constructor]. }
  destruct (rev res) as [|seg segs] eqn:E.
  - exists (if abs then [SEP] else []), (if abs then js "/" else js ".").
    assert (H1 : forall x, plain x -> join a x = (if abs then [SEP] else []) ++ x).
    { intros x Hx. rewrite (Hjoin x Hx). cbn [rev]. rewrite E. reflexivity. }
    split; [exact H1|]. split; [|split].
    + intros x y Hx Hy. rewrite (Hjoin x Hx), (join_pathOf abs res x y Hres Hx Hy).
      cbn [rev]. rewrite E. cbn [app]. unfold pathOf. cbn [joinSegments].
      reflexivity.
    + intros x Hx. apply dirname_name; apply Hx.
    + intros x y Hx Hy. rewrite app_assoc. apply dirname_snoc; try apply Hy.
      * specialize (Hproper x Hx). cbn [app] in Hproper. apply Hproper.
      * specialize (Hproper x Hx). cbn [app] in Hproper. apply Hproper.
  - assert (Hne : seg :: segs <> []) by discriminate.
    exists (pathOf abs (seg :: segs) ++ [SEP]), (pathOf abs (seg :: segs)).
    assert (H1 : forall x, plain x -> join a x = (pathOf abs (seg :: segs) ++ [SEP]) ++ x).
    { intros x Hx. rewrite (Hjoin x Hx). cbn [rev]. rewrite E.
      rewrite (pathOf_snoc abs _ x Hne), <- app_assoc. reflexivity. }
    split; [exact H1|]. split; [|split].
    + intros x y Hx Hy. rewrite (Hjoin x Hx), (join_pathOf abs res x y Hres Hx Hy).
      cbn [rev]. rewrite E.
      rewrite (pathOf_snoc abs _ y) by (intros H; apply app_eq_nil in H as [_ H]; discriminate H).
      rewrite (pathOf_snoc abs _ x Hne), <- !app_assoc. reflexivity.
    + intros x Hx. rewrite <- app_assoc. cbn [app].
      destruct (pathOf_proper abs (seg :: segs) Hne Hs Hn) as [Ha Hb].
      apply dirname_snoc; try assumption; apply Hx.
    + intros x y Hx Hy. rewrite app_assoc.
      specialize (Hproper x Hx). rewrite (pathOf_snoc abs _ x Hne) in Hproper.
      replace ((pathOf abs (seg :: segs) ++ [SEP]) ++ x)
        with (pathOf abs (seg :: segs) ++ SEP :: x)
        by (rewrite <- app_assoc; reflexivity).
      apply dirname_snoc; try apply Hy; apply Hproper.
Qed.

Ltac solve_plain :=
  unfold plain, noSep; split; [vm_compute; intuition discriminate|];
  repeat split; discriminate.

Lemma plain_STATE_DIR : plain STATE_DIR.
Proof. solve_plain. Qed.

Lemma plain_STATE_FILE : plain STATE_FILE.
Proof. solve_plain. Qed.

Lemma plain_docs : plain (js "docs").
Proof. solve_plain. Qed.

Lemma plain_prompts : plain (js "prompts").
Proof. solve_plain. Qed.

Lemma plain_docFileName (t : DocumentType) : plain (docFileName t).
Proof. destruct t; solve_plain. Qed.

Lemma getDocPath_join (t : DocumentType) (cwd : jsstring) :
  getDocPath t cwd = join (getDocsDir cwd) (docFileName t).
Proof. destruct t; reflexivity. Qed.

(** The paths of a project, by the directory it is in. *)
Lemma project_paths (cwd : jsstring) :
  exists base parent : jsstring,
    getStateDirPath cwd = base ++ STATE_DIR /\
    getStateFilePath cwd = base ++ STATE_DIR ++ SEP :: STATE_FILE /\
    getDocsDir cwd = base ++ js "docs" /\
    (forall t, getDocPath t cwd = base ++ js "docs" ++ SEP :: docFileName t) /\
    getPromptsDir cwd = base ++ js "prompts" /\
    (forall name, plain name ->
       join (getPromptsDir cwd) name = base ++ js "prompts" ++ SEP :: name) /\
    (forall x, plain x -> dirname (base ++ x) = parent) /\
    (forall x y, plain x -> plain y -> dirname (base ++ x ++ SEP :: y) = base ++ x).
Proof.
  destruct (join_names cwd) as (base & parent & H1 & H2 & H3 & H4).
  exists base, parent. unfold getStateFilePath, getStateDirPath, getDocsDir, getPromptsDir.
  split; [apply H1, plain_STATE_DIR|].
  split; [apply H2; [apply plain_STATE_DIR|apply plain_STATE_FILE]|].
  split; [apply H1, plain_docs|].
  split; [intros t; rewrite getDocPath_join; apply H2; [apply plain_docs|apply plain_docFileName]|].
  split; [apply H1, plain_prompts|].
  split; [intros name Hn; apply H2; [apply plain_prompts|exact Hn]|].
  split; assumption.
Qed.

Lemma dirname_stateFile (cwd : jsstring) :
  dirname (getStateFilePath cwd) = getStateDirPath cwd.
Proof.
  destruct (project_paths cwd) as (base & parent & -> & -> & _ & _ & _ & _ & _ & H).
  apply H; [apply plain_STATE_DIR|apply plain_STATE_FILE].
Qed.

Lemma dirname_docPath (t : DocumentType) (cwd : jsstring) :
  dirname (getDocPath t cwd) = getDocsDir cwd.
Proof.
  destruct (project_paths cwd) as (base & parent & _ & _ & -> & Hd & _ & _ & _ & H).
  rewrite Hd. apply H; [apply plain_docs|apply plain_docFileName].
Qed.

Lemma dirname_project (cwd : jsstring) :
  dirname (getDocsDir cwd) = dirname (getStateDirPath cwd) /\
  dirname (getPromptsDir cwd) = dirname (getStateDirPath cwd).
Proof.
  destruct (project_paths cwd) as (base & parent & -> & _ & -> & _ & -> & _ & H & _).
  rewrite !H by (apply plain_docs || apply plain_prompts || apply plain_STATE_DIR).
  split; reflexivity.
Qed.

(** A path that ends in a name of two characters or more is neither the
    root nor the working directory. *)
Lemma alwaysThere_long (p : jsstring) : (2 <= length p)%nat -> alwaysThere p = false.
Proof.
  intros H. unfold alwaysThere, JsString.eqb.
  rewrite !bool_decide_eq_false_2; [reflexivity| |]; intros ->; cbn in H; lia.
Qed.

Lemma alwaysThere_project (cwd : jsstring) :
  alwaysThere (getStateFilePath cwd) = false /\
  alwaysThere (getStateDirPath cwd) = false /\
  alwaysThere (getDocsDir cwd) = false /\
  alwaysThere (getPromptsDir cwd) = false /\
  forall t, alwaysThere (getDocPath t cwd) = false.
Proof.
  destruct (project_paths cwd) as (base & parent & -> & -> & -> & Hd & -> & _).
  repeat split; try intros t; rewrite ?Hd; apply alwaysThere_long;
    rewrite !length_app; try destruct t; cbn; lia.
Qed.

Lemma entry_stateFile (d : Disk) (cwd : jsstring) :
  entry d (getStateFilePath cwd) = d !! getStateFilePath cwd.
Proof. apply entry_lookup, alwaysThere_project. Qed.

Lemma entry_stateDir (d : Disk) (cwd : jsstring) :
  entry d (getStateDirPath cwd) = d !! getStateDirPath cwd.
Proof. apply entry_lookup, alwaysThere_project. Qed.

Lemma entry_docsDir (d : Disk) (cwd : jsstring) :
  entry d (getDocsDir cwd) = d !! getDocsDir cwd.
Proof. apply entry_lookup, alwaysThere_project. Qed.

Lemma entry_promptsDir (d : Disk) (cwd : jsstring) :
  entry d (getPromptsDir cwd) = d !! getPromptsDir cwd.
Proof. apply entry_lookup, alwaysThere_project. Qed.

Lemma entry_docPath (d : Disk) (t : DocumentType) (cwd : jsstring) :
  entry d (getDocPath t cwd) = d !! getDocPath t cwd.
Proof. apply entry_lookup, alwaysThere_project. Qed.

(** The state file has the longest path of these, and no two of them are
    one path. *)
Lemma project_paths_apart (cwd : jsstring) (t : DocumentType) :
  getStateFilePath cwd <> getStateDirPath cwd /\
  getDocPath t cwd <> getStateFilePath cwd /\
  getDocPath t cwd <> getDocsDir cwd /\
  getDocsDir cwd <> getStateFilePath cwd /\
  getPromptsDir cwd <> getStateFilePath cwd /\
  (length (getStateDirPath cwd) < length (getStateFilePath cwd))%nat /\
  (length (getDocsDir cwd) < length (getStateFilePath cwd))%nat /\
  (length (getPromptsDir cwd) < length (getStateFilePath cwd))%nat /\
  (length (getDocsDir cwd) < length (getDocPath t cwd))%nat.
Proof.
  destruct (project_paths cwd) as (base & parent & -> & -> & -> & Hd & -> & _).
  rewrite Hd.
  assert (Hlen : forall x y : jsstring, (length x <> length y)%nat -> x <> y)
    by (intros x y H ->; contradiction).
  repeat split;
    try (apply Hlen; rewrite !length_app; destruct t; cbn; lia);
    try (rewrite !length_app; destruct t; cbn; lia).
Qed.

End StorePaths.

(* ===================================================================== *)
(** ** The state store *)
(* ===================================================================== *)

Section StoreRuns.

Variable cwd : jsstring.

Lemma loadState_run (d : Disk) :
  loadState cwd d =
  match d !! getStateFilePath cwd with
  | Some (File content) =>
      match JSON_parse content with
      | Some v => (Ok v, d)
      | None => (Throw (Error noProjectFound), d)
      end
  | _ => (Throw (Error noProjectFound), d)
  end.
Proof.
  unfold loadState, try_catch, bind, readFile, ret, throw.
  rewrite entry_stateFile.
  destruct (d !! getStateFilePath cwd) as [[content|]|]; try reflexivity.
  destruct (JSON_parse content); reflexivity.
Qed.

Lemma loadState_state (d : Disk) (s : DocForgeState) :
  d !! getStateFilePath cwd = Some (File (StateJson s)) ->
  loadState cwd d = (Ok (StateValue s), d).
Proof. intros H. rewrite loadState_run, H. reflexivity. Qed.

(** Where [writeFile] can write the state file. *)
Lemma canWrite_stateFile (d : Disk) :
  canWrite d (getStateFilePath cwd) = true <->
  (exists c, d !! getStateFilePath cwd = Some (File c)) \/
  (d !! getStateFilePath cwd = None /\ d !! getStateDirPath cwd = Some Directory).
Proof.
  unfold canWrite, isDirectoryAt.
  rewrite entry_stateFile, dirname_stateFile, entry_stateDir.
  destruct (d !! getStateFilePath cwd) as [[c|]|].
  - split; [eauto|reflexivity].
  - split; [discriminate|]. intros [[c H]|[H _]]; discriminate H.
  - destruct (d !! getStateDirPath cwd) as [[c|]|]; split; try discriminate; try tauto.
    + intros [[c' H]|[_ H]]; discriminate H.
    + intros [[c' H]|[_ H]]; discriminate H.
Qed.

Lemma canWrite_stored (d : Disk) (c : FileText) :
  d !! getStateFilePath cwd = Some (File c) -> canWrite d (getStateFilePath cwd) = true.
Proof. intros H. apply canWrite_stateFile. eauto. Qed.

Lemma saveState_run (d : Disk) (s : DocForgeState) :
  canWrite d (getStateFilePath cwd) = true ->
  saveState s cwd d = (Ok tt, <[getStateFilePath cwd := File (StateJson s)]> d).
Proof. intros H. unfold saveState. apply writeFile_ok, H. Qed.

Lemma saveState_stored (d : Disk) (s : DocForgeState) (c : FileText) :
  d !! getStateFilePath cwd = Some (File c) ->
  saveState s cwd d = (Ok tt, <[getStateFilePath cwd := File (StateJson s)]> d).
Proof. intros H. apply saveState_run, (canWrite_stored d c H). Qed.

Lemma projectExists_run (d : Disk) :
  projectExists cwd d = (Ok (bool_decide (is_Some (d !! getStateFilePath cwd))), d).
Proof.
  unfold projectExists, try_catch, bind, access, ret. rewrite entry_stateFile.
  destruct (d !! getStateFilePath cwd) as [c|] eqn:E.
  - rewrite bool_decide_eq_true_2 by eauto. reflexivity.
  - rewrite bool_decide_eq_false_2; [reflexivity|]. intros [x Hx]. discriminate.
Qed.

(** [initializeProject] where the state directory can be made and no
    directory is in the place of the state file. *)
Lemma initializeProject_run (d : Disk) (project : ProjectMetadata) :
  canMake d (getStateDirPath cwd) = true ->
  isDirectoryAt d (getStateFilePath cwd) = false ->
  initializeProject project cwd d
  = (Ok (createInitialState project),
     <[getStateFilePath cwd := File (StateJson (createInitialState project))]>
       (made (getStateDirPath cwd) d)).
Proof.
  intros Hm Hp. unfold initializeProject, bind.
  rewrite (canMake_mkdir d _ Hm).
  assert (Hw : canWrite (made (getStateDirPath cwd) d) (getStateFilePath cwd) = true).
  { unfold canWrite, isDirectoryAt. rewrite dirname_stateFile, (made_directory d _ Hm).
    rewrite <- dirname_stateFile, entry_made_dirname.
    unfold isDirectoryAt in Hp.
    destruct (entry d (getStateFilePath cwd)) as [[c|]|]; [reflexivity|discriminate|reflexivity]. }
  rewrite (writeFile_ok _ _ _ Hw). reflexivity.
Qed.

Lemma initializeProject_stored (d : Disk) (project : ProjectMetadata) (c : FileText) :
  d !! getStateFilePath cwd = Some (File c) ->
  d !! getStateDirPath cwd = Some Directory ->
  initializeProject project cwd d
  = (Ok (createInitialState project),
     <[getStateFilePath cwd := File (StateJson (createInitialState project))]> d).
Proof.
  intros Hf Hd.
  assert (He : entry d (getStateDirPath cwd) = Some Directory)
    by (rewrite entry_stateDir; exact Hd).
  destruct (made_existing d _ He) as [Hm Hsame].
  rewrite initializeProject_run, Hsame; [reflexivity|exact Hm|].
  unfold isDirectoryAt. rewrite entry_stateFile, Hf. reflexivity.
Qed.

Lemma updateState_run (d : Disk) (s : DocForgeState) (updates : PartialState) :
  d !! getStateFilePath cwd = Some (File (StateJson s)) ->
  updateState updates cwd d
  = (Ok (spread s updates), <[getStateFilePath cwd := File (StateJson (spread s updates))]> d).
Proof.
  intros H. unfold updateState, bind. rewrite (loadState_state d s H). cbn [asState ret].
  rewrite (saveState_stored d _ _ H). reflexivity.
Qed.

Lemma recordCheckpointResponse_run (d : Disk) (s : DocForgeState)
    (now stepId : jsstring) (dis cla mis : option jsstring) :
  d !! getStateFilePath cwd = Some (File (StateJson s)) ->
  recordCheckpointResponse now stepId dis cla mis cwd d
  = (Ok (withResponse now stepId dis cla mis s),
     <[getStateFilePath cwd := File (StateJson (withResponse now stepId dis cla mis s))]> d).
Proof.
  intros H. unfold recordCheckpointResponse, bind.
  rewrite (loadState_state d s H). cbn [asState ret].
  rewrite (saveState_stored d _ _ H). reflexivity.
Qed.

Lemma recordApproval_run (d : Disk) (s : DocForgeState)
    (now : jsstring) (t : DocumentType) (content : jsstring) :
  d !! getStateFilePath cwd = Some (File (StateJson s)) ->
  recordApproval now t content cwd d
  = (Ok (withApproval now t content s),
     <[getStateFilePath cwd := File (StateJson (withApproval now t content s))]> d).
Proof.
  intros H. unfold recordApproval, bind.
  rewrite (loadState_state d s H). cbn [asState ret].
  rewrite (saveState_stored d _ _ H). reflexivity.
Qed.

(** Filtering the approvals by document type. *)
Lemma otherThan_app (t : DocumentType) (l1 l2 : list Approval) :
  otherThan t (l1 ++ l2) = otherThan t l1 ++ otherThan t l2.
Proof. apply List.filter_app. Qed.

Lemma onlyFor_app (t : DocumentType) (l1 l2 : list Approval) :
  onlyFor t (l1 ++ l2) = onlyFor t l1 ++ onlyFor t l2.
Proof. apply List.filter_app. Qed.

Lemma otherThan_idem (t : DocumentType) (l : list Approval) :
  otherThan t (otherThan t l) = otherThan t l.
Proof.
  unfold otherThan. induction l as [|a l IH]; [reflexivity|]. cbn.
  destruct (bool_decide (documentType a <> t)) eqn:E; cbn; rewrite ?E, IH; reflexivity.
Qed.

Lemma onlyFor_otherThan (t : DocumentType) (l : list Approval) :
  onlyFor t (otherThan t l) = [].
Proof.
  unfold onlyFor, otherThan. induction l as [|a l IH]; [reflexivity|]. cbn.
  destruct (bool_decide (documentType a <> t)) eqn:E; cbn; [|exact IH].
  apply bool_decide_eq_true in E.
  rewrite bool_decide_eq_false_2 by exact E. exact IH.
Qed.

Lemma otherThan_other (t t' : DocumentType) (l : list Approval) :
  t' <> t -> onlyFor t' (otherThan t l) = onlyFor t' l.
Proof.
  intros Hne. unfold onlyFor, otherThan.
  induction l as [|a l IH]; [reflexivity|]. cbn.
  destruct (bool_decide (documentType a <> t)) eqn:E; cbn; rewrite IH; [reflexivity|].
  apply bool_decide_eq_false in E.
  rewrite bool_decide_eq_false_2; [reflexivity|].
  intros Heq. apply E. congruence.
Qed.

Lemma getHash_setHash (t : DocumentType) (h : jsstring) (hs : DocumentHashes) :
  getHash (setHash t h hs) t = Some h.
Proof. destruct t; reflexivity. Qed.

Lemma getHash_setHash_other (t t' : DocumentType) (h : jsstring) (hs : DocumentHashes) :
  t' <> t -> getHash (setHash t h hs) t' = getHash hs t'.
Proof. destruct t, t'; intros H; try reflexivity; congruence. Qed.

End StoreRuns.

Lemma projectWith_record (c : FileText) :
  projectWith c !! getStateFilePath demoCwd = Some (File c).
Proof. apply lookup_insert_eq. Qed.

Lemma projectWith_directories (c : FileText) :
  projectWith c !! getStateDirPath demoCwd = Some Directory /\
  projectWith c !! getDocsDir demoCwd = Some Directory /\
  projectWith c !! getPromptsDir demoCwd = Some Directory.
Proof. repeat split; vm_compute; reflexivity. Qed.

Lemma projectWith_again (c c' : FileText) :
  <[getStateFilePath demoCwd := File c']> (projectWith c) = projectWith c'.
Proof. apply insert_insert_eq. Qed.

Lemma demoDisk_state : demoDisk !! getStateFilePath demoCwd = Some (File (StateJson demoState)).
Proof. apply projectWith_record. Qed.

Section Approvals.

Lemma approvals_withApproval (now : jsstring) (t : DocumentType) (content : jsstring)
    (s : DocForgeState) :
  approvals (withApproval now t content s)
  = otherThan t (approvals s) ++ [newApproval now t content].
Proof. reflexivity. Qed.

Lemma onlyFor_new (now : jsstring) (t : DocumentType) (content : jsstring) :
  onlyFor t [newApproval now t content] = [newApproval now t content].
Proof. unfold onlyFor. cbn. rewrite bool_decide_eq_true_2; reflexivity. Qed.

Lemma otherThan_new (now : jsstring) (t : DocumentType) (content : jsstring) :
  otherThan t [newApproval now t content] = [].
Proof.
  unfold otherThan. cbn. rewrite bool_decide_eq_false_2; [reflexivity|].
  intros H. apply H. reflexivity.
Qed.

(** [approvals.find] reaches the entry appended by [recordApproval]: none of
    the entries before it is for the same document type. *)
Lemma find_withApproval (now : jsstring) (t : DocumentType) (content : jsstring)
    (s : DocForgeState) :
  List.find (fun a => bool_decide (documentType a = t))
            (approvals (withApproval now t content s))
  = Some (newApproval now t content).
Proof.
  rewrite approvals_withApproval. unfold otherThan.
  induction (approvals s) as [|a l IH]; cbn.
  - rewrite bool_decide_eq_true_2; reflexivity.
  - destruct (bool_decide (documentType a <> t)) eqn:E; cbn; [|exact IH].
    apply bool_decide_eq_true in E.
    rewrite bool_decide_eq_false_2 by exact E. exact IH.
Qed.

Lemma hasDocumentChanged_withApproval (now : jsstring) (t : DocumentType)
    (A B : jsstring) (s : DocForgeState) :
  hasDocumentChanged (withApproval now t A s) t B
  = negb (JsString.eqb (calculateHash A) (calculateHash B)).
Proof. unfold hasDocumentChanged. rewrite find_withApproval. reflexivity. Qed.

End Approvals.

(** C3. On a stored state, recordApproval(t, A) followed by recordApproval(t, B)
    both succeed; afterwards the approvals for [t] are exactly one entry, with
    the hash of B, documentHashes[t] is that hash, the approvals for the other
    document types are those of the start, in their order, and so are the
    other entries of documentHashes. The state returned is the one stored. *)
Theorem C3_recordApproval_replaces
    (d : Disk) (cwd : jsstring) (s : DocForgeState) (t : DocumentType)
    (A B now1 now2 : jsstring) :
  d !! getStateFilePath cwd = Some (File (StateJson s)) ->
  exists (s1 s2 : DocForgeState) (d1 d2 : Disk),
    recordApproval now1 t A cwd d = (Ok s1, d1) /\
    recordApproval now2 t B cwd d1 = (Ok s2, d2) /\
    d2 !! getStateFilePath cwd = Some (File (StateJson s2)) /\
    onlyFor t (approvals s2)
      = [{| documentType := t; contentHash := calculateHash B; approvedAt := now2 |}] /\
    getHash (documentHashes s2) t = Some (calculateHash B) /\
    otherThan t (approvals s2) = otherThan t (approvals s) /\
    (forall t', t' <> t -> onlyFor t' (approvals s2) = onlyFor t' (approvals s)) /\
    (forall t', t' <> t -> getHash (documentHashes s2) t' = getHash (documentHashes s) t').
Proof.
  intros H.
  pose (s1 := withApproval now1 t A s).
  pose (d1 := <[getStateFilePath cwd := File (StateJson s1)]> d).
  assert (H1 : d1 !! getStateFilePath cwd = Some (File (StateJson s1)))
    by apply lookup_insert_eq.
  exists s1, (withApproval now2 t B s1), d1,
    (<[getStateFilePath cwd := File (StateJson (withApproval now2 t B s1))]> d1).
  split; [exact (recordApproval_run cwd d s now1 t A H)|].
  split; [exact (recordApproval_run cwd d1 s1 now2 t B H1)|].
  split; [apply lookup_insert_eq|].
  subst d1 s1. clear H1.
  rewrite !approvals_withApproval.
  split.
  { rewrite onlyFor_app, onlyFor_otherThan, onlyFor_new. reflexivity. }
  split.
  { apply getHash_setHash. }
  split.
  { rewrite !otherThan_app, !otherThan_idem, !otherThan_new, !app_nil_r. reflexivity. }
  split.
  { intros t' Hne.
    rewrite onlyFor_app, (otherThan_other t t') by exact Hne.
    rewrite onlyFor_app, (otherThan_other t t') by exact Hne.
    unfold onlyFor, newApproval. cbn.
    rewrite !bool_decide_eq_false_2 by congruence.
    rewrite !app_nil_r. reflexivity. }
  { intros t' Hne. cbn.
    rewrite !getHash_setHash_other by exact Hne. reflexivity. }
Qed.

Lemma C3_recordApproval_witness :
  exists (s1 s2 : DocForgeState) (d1 d2 : Disk),
    recordApproval (js "t1") rfc (js "A") demoCwd demoDisk = (Ok s1, d1) /\
    recordApproval (js "t2") rfc (js "B") demoCwd d1 = (Ok s2, d2) /\
    d2 !! getStateFilePath demoCwd = Some (File (StateJson s2)) /\
    onlyFor rfc (approvals s2)
      = [{| documentType := rfc; contentHash := calculateHash (js "B");
            approvedAt := js "t2" |}] /\
    getHash (documentHashes s2) rfc = Some (calculateHash (js "B")) /\
    otherThan rfc (approvals s2) = otherThan rfc (approvals demoState) /\
    (forall t', t' <> rfc -> onlyFor t' (approvals s2) = onlyFor t' (approvals demoState)) /\
    (forall t', t' <> rfc ->
       getHash (documentHashes s2) t' = getHash (documentHashes demoState) t').
Proof.
  apply (C3_recordApproval_replaces demoDisk demoCwd demoState rfc
           (js "A") (js "B") (js "t1") (js "t2")).
  apply projectWith_record.
Defined.

(** C10. On a stored state, recordCheckpointResponse returns and stores a state
    that differs from it in checkpointResponses only, and recordApproval one
    that differs in approvals and documentHashes only: version, project,
    currentStep, documentProgress and strictMode are those of the stored
    state after both, and so are the fields the operation is not about. *)
Theorem C10_record_operations_frame
    (d : Disk) (cwd : jsstring) (s : DocForgeState)
    (now stepId : jsstring) (dis cla mis : option jsstring)
    (t : DocumentType) (content : jsstring) :
  d !! getStateFilePath cwd = Some (File (StateJson s)) ->
  (exists s',
     recordCheckpointResponse now stepId dis cla mis cwd d
       = (Ok s', <[getStateFilePath cwd := File (StateJson s')]> d) /\
     version s' = version s /\ project s' = project s /\
     currentStep s' = currentStep s /\ approvals s' = approvals s /\
     documentHashes s' = documentHashes s /\
     documentProgress s' = documentProgress s /\ strictMode s' = strictMode s) /\
  (exists s',
     recordApproval now t content cwd d
       = (Ok s', <[getStateFilePath cwd := File (StateJson s')]> d) /\
     version s' = version s /\ project s' = project s /\
     currentStep s' = currentStep s /\
     checkpointResponses s' = checkpointResponses s /\
     documentProgress s' = documentProgress s /\ strictMode s' = strictMode s).
Proof.
  intros H. split.
  - exists (withResponse now stepId dis cla mis s).
    split; [exact (recordCheckpointResponse_run cwd d s now stepId dis cla mis H)|].
    repeat split.
  - exists (withApproval now t content s).
    split; [exact (recordApproval_run cwd d s now t content H)|].
    repeat split.
Qed.

Lemma C10_record_operations_witness :
  exists s',
    recordApproval (js "t1") plan (js "A") demoCwd demoDisk
      = (Ok s', <[getStateFilePath demoCwd := File (StateJson s')]> demoDisk) /\
    project s' = demoProject /\ currentStep s' = rfc_goals.
Proof.
  destruct (C10_record_operations_frame demoDisk demoCwd demoState
              (js "t1") (js "rfc.goals") None None None plan (js "A")
              demoDisk_state) as [_ [s' (Hrun & _ & Hp & Hc & _)]].
  exists s'. split; [exact Hrun|]. split; [exact Hp|exact Hc].
Defined.

Section ShallowMerge.

Lemma mergedOver_default {A : Type} (old : A) (upd : option A) :
  mergedOver old upd (default old upd).
Proof. destruct upd; cbn; split; congruence. Qed.

End ShallowMerge.

(** C8. On a stored state [s], updateState(p) stores and returns the state
    whose every top-level field is the one of [p] where [p] has it, whole, and
    the one of [s] where [p] has not. A documentProgress given in [p] replaces
    the stored one with all its sub-objects: nothing of the old one is kept. *)
Theorem C8_updateState_shallow_merge
    (d : Disk) (cwd : jsstring) (s : DocForgeState) (p : PartialState) :
  d !! getStateFilePath cwd = Some (File (StateJson s)) ->
  exists s',
    updateState p cwd d = (Ok s', <[getStateFilePath cwd := File (StateJson s')]> d) /\
    mergedOver (version s) (p_version p) (version s') /\
    mergedOver (project s) (p_project p) (project s') /\
    mergedOver (currentStep s) (p_currentStep p) (currentStep s') /\
    mergedOver (checkpointResponses s) (p_checkpointResponses p) (checkpointResponses s') /\
    mergedOver (approvals s) (p_approvals p) (approvals s') /\
    mergedOver (documentHashes s) (p_documentHashes p) (documentHashes s') /\
    mergedOver (documentProgress s) (p_documentProgress p) (documentProgress s') /\
    mergedOver (strictMode s) (p_strictMode p) (strictMode s') /\
    (forall dp, p_documentProgress p = Some dp ->
       progress_rfc (documentProgress s') = progress_rfc dp /\
       progress_plan (documentProgress s') = progress_plan dp /\
       progress_rollout (documentProgress s') = progress_rollout dp).
Proof.
  intros H. exists (spread s p).
  split; [exact (updateState_run cwd d s p H)|].
  cbn. repeat (split; [apply mergedOver_default|]).
  intros dp ->. cbn. repeat split.
Qed.

Lemma C8_updateState_witness :
  let d : Disk := projectWith (StateJson demoProgressState) in
  exists s',
    updateState demoUpdates demoCwd d
      = (Ok s', <[getStateFilePath demoCwd := File (StateJson s')]> d) /\
    currentStep s' = plan_stages /\
    documentProgress s' = demoPlanOnly /\
    problem (progress_rfc (documentProgress s')) = None.
Proof.
  intros d.
  destruct (C8_updateState_shallow_merge d demoCwd demoProgressState demoUpdates
              (projectWith_record _))
    as [s' (Hrun & _ & _ & Hstep & _ & _ & _ & Hprog & _ & _)].
  exists s'. split; [exact Hrun|].
  split; [exact (proj2 Hstep eq_refl)|].
  assert (Hdp : documentProgress s' = demoPlanOnly) by exact (proj1 Hprog _ eq_refl).
  split; [exact Hdp|]. rewrite Hdp. reflexivity.
Defined.

(** C1, as the design document states it, fails: on a disk that holds a record
    at the location, initializeProject succeeds, and the record afterwards is
    the fresh initial state, not the one that was there. *)
Lemma C1_initializeProject_overwrites :
  demoDisk !! getStateFilePath demoCwd = Some (File (StateJson demoState)) /\
  initializeProject demoProject demoCwd demoDisk
    = (Ok (createInitialState demoProject),
       projectWith (StateJson (createInitialState demoProject))) /\
  currentStep demoState = rfc_goals /\
  currentStep (createInitialState demoProject) = rfc_problem.
Proof.
  split; [exact demoDisk_state|]. split; [|split; reflexivity].
  rewrite (initializeProject_stored demoCwd demoDisk demoProject _ demoDisk_state)
    by apply projectWith_directories.
  unfold demoDisk. rewrite projectWith_again. reflexivity.
Qed.

(** C1, amended. initializeProject does not look for a record: where one
    exists at the location, a file in the state directory, it returns the
    fresh initial state of the project and stores it in the place of the
    record. The refusal is the init command's: when a record exists at the
    location, whatever its content, initCommand ends with exit status 1 and
    the disk is as before. *)
Theorem C1_init_guard
    (d : Disk) (cwd : jsstring) (project : ProjectMetadata) (strict : bool) :
  (forall c, d !! getStateFilePath cwd = Some (File c) ->
     d !! getStateDirPath cwd = Some Directory ->
     initializeProject project cwd d
     = (Ok (createInitialState project),
        <[getStateFilePath cwd := File (StateJson (createInitialState project))]> d)) /\
  (is_Some (d !! getStateFilePath cwd) ->
   initCommand strict project cwd d = (Throw (ProcessExit 1), d)).
Proof.
  split; [intros c Hf Hd; exact (initializeProject_stored cwd d project c Hf Hd)|].
  intros H. unfold initCommand, bind.
  rewrite projectExists_run, bool_decide_eq_true_2 by exact H.
  reflexivity.
Qed.

Lemma C1_init_guard_witness :
  is_Some (demoDisk !! getStateFilePath demoCwd) /\
  initCommand true demoProject demoCwd demoDisk = (Throw (ProcessExit 1), demoDisk) /\
  initializeProject demoProject demoCwd demoDisk
  = (Ok (createInitialState demoProject),
     <[getStateFilePath demoCwd := File (StateJson (createInitialState demoProject))]>
       demoDisk).
Proof.
  assert (H : is_Some (demoDisk !! getStateFilePath demoCwd))
    by (rewrite demoDisk_state; eauto).
  split; [exact H|]. split.
  - exact (proj2 (C1_init_guard demoDisk demoCwd demoProject true) H).
  - exact (proj1 (C1_init_guard demoDisk demoCwd demoProject true)
             (StateJson demoState) demoDisk_state
             (proj1 (projectWith_directories (StateJson demoState)))).
Defined.

(** C6, as stated, fails: a record whose text is well-formed JSON but no state
    is neither refused nor turned into a state: loadState returns its value
    as parsed. *)
Lemma C6_loadState_returns_malformed :
  emptyObjectDisk !! getStateFilePath demoCwd = Some (File (OtherJson (js "{}"))) /\
  loadState demoCwd emptyObjectDisk = (Ok (OtherValue (js "{}")), emptyObjectDisk) /\
  fst (loadState demoCwd emptyObjectDisk) <> Throw (Error noProjectFound) /\
  (forall s, fst (loadState demoCwd emptyObjectDisk) <> Ok (StateValue s)).
Proof.
  assert (H : emptyObjectDisk !! getStateFilePath demoCwd = Some (File (OtherJson (js "{}"))))
    by apply projectWith_record.
  split; [exact H|].
  rewrite loadState_run, H. cbn -[getStateFilePath].
  split; [reflexivity|]. split; [discriminate|]. intros s. discriminate.
Qed.

(** C6, amended. loadState fails with one and the same error, the one of the
    "No DocForge project found" message, when there is no record and when the
    record's text does not parse; it returns nothing then, and the disk is as
    before. A record whose text does parse is returned as the parsed value,
    whole, with no check that it has the shape of a state. *)
Theorem C6_loadState_absent_or_unparsable (d : Disk) (cwd : jsstring) :
  (d !! getStateFilePath cwd = None ->
   loadState cwd d = (Throw (Error noProjectFound), d)) /\
  (forall content,
     d !! getStateFilePath cwd = Some (File content) -> JSON_parse content = None ->
     loadState cwd d = (Throw (Error noProjectFound), d)) /\
  (forall content v,
     d !! getStateFilePath cwd = Some (File content) -> JSON_parse content = Some v ->
     loadState cwd d = (Ok v, d)).
Proof.
  rewrite loadState_run. split; [|split].
  - intros ->. reflexivity.
  - intros content -> ->. reflexivity.
  - intros content v -> ->. reflexivity.
Qed.

Lemma C6_loadState_witness :
  let corrupt : Disk := projectWith (NotJson (js "{ version: ")) in
  loadState demoCwd (∅ : Disk) = (Throw (Error noProjectFound), ∅) /\
  loadState demoCwd corrupt = (Throw (Error noProjectFound), corrupt) /\
  loadState demoCwd demoDisk = (Ok (StateValue demoState), demoDisk).
Proof.
  intros corrupt. split; [|split].
  - apply (proj1 (C6_loadState_absent_or_unparsable ∅ demoCwd)). apply lookup_empty.
  - apply (proj1 (proj2 (C6_loadState_absent_or_unparsable corrupt demoCwd))
             (NotJson (js "{ version: "))); [apply projectWith_record|reflexivity].
  - apply (proj2 (proj2 (C6_loadState_absent_or_unparsable demoDisk demoCwd))
             (StateJson demoState)); [exact demoDisk_state|reflexivity].
Defined.




(* ===================================================================== *)
(** ** The document validator *)
(* ===================================================================== *)

Section CaseFolding.

Ltac decide_Z :=
  repeat match goal with
    | |- context [(?a =? ?b)%Z] =>
        first [ rewrite (proj2 (Z.eqb_neq a b)) by lia
              | rewrite (proj2 (Z.eqb_eq a b)) by lia ]
    | |- context [(?a <=? ?b)%Z] =>
        first [ rewrite (proj2 (Z.leb_le a b)) by lia
              | rewrite (proj2 (Z.leb_gt a b)) by lia ]
    end.

(** Only the letters a to z are moved, to A to Z. *)
Lemma canonicalize_cases (c : Z) :
  (97 <= c <= 122 /\ canonicalize c = c - 32) \/
  (~ 97 <= c <= 122 /\ canonicalize c = c).
Proof.
  unfold canonicalize.
  destruct (Z.leb_spec 97 c), (Z.leb_spec c 122); cbn [andb]; [left|right..];
    (split; [lia|reflexivity]).
Qed.

Lemma isWhiteSpace_canonicalize (c : Z) :
  isWhiteSpace (canonicalize c) = isWhiteSpace c.
Proof.
  destruct (canonicalize_cases c) as [[H ->]|[_ ->]]; [|reflexivity].
  unfold isWhiteSpace. decide_Z. reflexivity.
Qed.

Lemma isLineTerminator_canonicalize (c : Z) :
  isLineTerminator (canonicalize c) = isLineTerminator c.
Proof.
  destruct (canonicalize_cases c) as [[H ->]|[_ ->]]; [|reflexivity].
  unfold isLineTerminator. decide_Z. reflexivity.
Qed.

Lemma isDigit_canonicalize (c : Z) :
  (48 <=? canonicalize c) && (canonicalize c <=? 57) = (48 <=? c) && (c <=? 57).
Proof.
  destruct (canonicalize_cases c) as [[H ->]|[_ ->]]; [|reflexivity].
  decide_Z. reflexivity.
Qed.

Lemma atomMatches_canonicalize (a : Atom) (c c' : Z) :
  canonicalize c = canonicalize c' -> atomMatches a c = atomMatches a c'.
Proof.
  intros H. destruct a; cbn.
  - rewrite H. reflexivity.
  - rewrite <- (isWhiteSpace_canonicalize c), H. apply isWhiteSpace_canonicalize.
  - rewrite <- (isDigit_canonicalize c), H. apply isDigit_canonicalize.
  - rewrite <- (isLineTerminator_canonicalize c), H, isLineTerminator_canonicalize.
    reflexivity.
Qed.

Lemma atLineStart_samePrev (p q : option Z) :
  samePrev p q -> atLineStart p = atLineStart q.
Proof.
  unfold samePrev. destruct p, q; cbn; intros [=]; try reflexivity.
  rewrite <- (isLineTerminator_canonicalize z), H0. apply isLineTerminator_canonicalize.
Qed.

Lemma sameUpToCase_cons_inv (c : Z) (x y : jsstring) :
  sameUpToCase (c :: x) y ->
  exists c' y', y = c' :: y' /\ canonicalize c = canonicalize c' /\ sameUpToCase x y'.
Proof.
  unfold sameUpToCase. destruct y as [|c' y']; cbn; intros [=]. eauto.
Qed.

Lemma sameUpToCase_nil_inv (y : jsstring) : sameUpToCase [] y -> y = [].
Proof. unfold sameUpToCase. destruct y; cbn; intros [=]. reflexivity. Qed.

Lemma star_caseBlind (a : Atom) (k : option Z -> jsstring -> bool) :
  caseBlind k -> caseBlind (star a k).
Proof.
  intros Hk p q x. revert p q.
  induction x as [|c x IH]; intros p q y Hp Hxy.
  - apply sameUpToCase_nil_inv in Hxy as ->. cbn.
    rewrite (Hk p q [] []); [reflexivity|exact Hp|reflexivity].
  - destruct (sameUpToCase_cons_inv _ _ _ Hxy) as (c' & y' & -> & Hc & Hy).
    cbn. rewrite (Hk p q (c :: x) (c' :: y') Hp Hxy).
    rewrite (atomMatches_canonicalize a c c' Hc).
    rewrite (IH (Some c) (Some c') y'); [reflexivity| |exact Hy].
    unfold samePrev. cbn. rewrite Hc. reflexivity.
Qed.

Lemma matchAt_caseBlind (r : RegExp) :
  forall k, caseBlind k -> caseBlind (matchAt r k).
Proof.
  induction r as [| |a|a|r1 IH1 r2 IH2|r IH]; intros k Hk; cbn.
  - exact Hk.
  - intros p q x y Hp Hxy.
    rewrite (atLineStart_samePrev p q Hp), (Hk p q x y Hp Hxy). reflexivity.
  - intros p q x y Hp Hxy. destruct x as [|c x].
    + apply sameUpToCase_nil_inv in Hxy as ->. reflexivity.
    + destruct (sameUpToCase_cons_inv _ _ _ Hxy) as (c' & y' & -> & Hc & Hy).
      rewrite (atomMatches_canonicalize a c c' Hc).
      rewrite (Hk (Some c) (Some c') x y'); [reflexivity| |exact Hy].
      unfold samePrev. cbn. rewrite Hc. reflexivity.
  - apply star_caseBlind. exact Hk.
  - apply IH1, IH2, Hk.
  - intros p q x y Hp Hxy.
    rewrite (IH k Hk p q x y Hp Hxy), (Hk p q x y Hp Hxy). reflexivity.
Qed.

Lemma searchFrom_caseBlind (r : RegExp) : caseBlind (searchFrom r).
Proof.
  assert (Ht : caseBlind (fun _ _ => true)) by (intros p q x y _ _; reflexivity).
  intros p q x. revert p q.
  induction x as [|c x IH]; intros p q y Hp Hxy.
  - apply sameUpToCase_nil_inv in Hxy as ->. cbn.
    rewrite (matchAt_caseBlind r _ Ht p q [] []); [reflexivity|exact Hp|reflexivity].
  - destruct (sameUpToCase_cons_inv _ _ _ Hxy) as (c' & y' & -> & Hc & Hy).
    cbn. rewrite (matchAt_caseBlind r _ Ht p q (c :: x) (c' :: y') Hp Hxy).
    rewrite (IH (Some c) (Some c') y'); [reflexivity| |exact Hy].
    unfold samePrev. cbn. rewrite Hc. reflexivity.
Qed.

(** [test] under flag i does not see the case of ASCII letters. *)
Lemma test_sameUpToCase (r : RegExp) (x y : jsstring) :
  sameUpToCase x y -> test r x = test r y.
Proof. intros H. apply searchFrom_caseBlind; [reflexivity|exact H]. Qed.

End CaseFolding.

Section Validator.

Lemma validateDocumentByType_sections (t : DocumentType) (content : jsstring) :
  validateDocumentByType t content = validateDocument content (sectionsOf t).
Proof. destruct t; reflexivity. Qed.

Lemma checkSection_fold (content : jsstring) (sections : list SectionRequirement) :
  forall missing warns,
    fold_left (checkSection content) sections (missing, warns)
    = (missing ++ map name (List.filter (requiredMissing content) sections),
       warns ++ map warningFor (List.filter (optionalMissing content) sections)).
Proof.
  induction sections as [|sec sections IH]; intros missing warns; cbn.
  - rewrite !app_nil_r. reflexivity.
  - unfold requiredMissing, optionalMissing, missingIn in *.
    destruct (test (pattern sec) content), (required sec); cbn; rewrite IH;
      rewrite <- ?app_assoc; reflexivity.
Qed.

Lemma validateDocument_spec (content : jsstring) (sections : list SectionRequirement) :
  validateDocument content sections
  = {| valid := forallb (fun sec => negb (requiredMissing content sec)) sections;
       missingSections := map name (List.filter (requiredMissing content) sections);
       warnings := map warningFor (List.filter (optionalMissing content) sections) |}.
Proof.
  unfold validateDocument. rewrite checkSection_fold. cbn. f_equal.
  induction sections as [|sec sections IH]; [reflexivity|]. cbn.
  destruct (requiredMissing content sec); cbn; [reflexivity|exact IH].
Qed.

Lemma validateDocument_sameUpToCase (x y : jsstring) (sections : list SectionRequirement) :
  sameUpToCase x y -> validateDocument x sections = validateDocument y sections.
Proof.
  intros H. unfold validateDocument. f_equal.
  assert (Hc : forall acc sec, checkSection x acc sec = checkSection y acc sec).
  { intros acc sec. unfold checkSection.
    rewrite (test_sameUpToCase (pattern sec) x y H). reflexivity. }
  generalize (@nil jsstring, @nil jsstring).
  induction sections as [|sec sections IH]; intros acc; cbn; [reflexivity|].
  rewrite Hc. apply IH.
Qed.

(** Within a table no two sections have the same name. *)
Lemma section_names_distinct (t : DocumentType) (sec sec' : SectionRequirement) :
  In sec (sectionsOf t) -> In sec' (sectionsOf t) ->
  name sec = name sec' -> required sec = required sec'.
Proof.
  destruct t; cbn [sectionsOf RFC_SECTIONS PLAN_SECTIONS ROLLOUT_SECTIONS In];
    intros H H';
    repeat (destruct H as [<-|H]; [|]); try contradiction;
    repeat (destruct H' as [<-|H']; [|]); try contradiction;
    intros Hn; try reflexivity; vm_compute in Hn; discriminate Hn.
Qed.

(** Skipping over what comes before the place of a match. *)
Lemma searchFrom_skip (r : RegExp) (pre s : jsstring) :
  forall prev,
    matchAt r (fun _ _ => true) (from_option Some prev (last pre)) s = true ->
    searchFrom r prev (pre ++ s) = true.
Proof.
  induction pre as [|c pre IH]; intros prev H.
  - cbn in *. destruct s; cbn; rewrite H; reflexivity.
  - cbn [app searchFrom]. rewrite (IH (Some c));
      [destruct (matchAt r (fun _ _ => true) prev (c :: pre ++ s)); reflexivity|].
    destruct pre as [|c' pre]; [exact H|].
    rewrite last_cons_cons in H.
    destruct (last (c' :: pre)) eqn:E; [exact H|].
    apply last_None in E. discriminate E.
Qed.

Lemma approachSection_in_table : In approachSection RFC_SECTIONS.
Proof. cbn. tauto. Qed.

(** A heading "## Proposed Approach" at the start of a line is a heading
    for the section "Approach", whatever follows it. *)
Lemma proposed_approach_matches (pre post : jsstring) :
  atLineStart (last pre) = true ->
  test (pattern approachSection) (pre ++ js "## Proposed Approach" ++ post) = true.
Proof.
  intros H. apply searchFrom_skip.
  replace (from_option Some None (last pre)) with (last pre)
    by (destruct (last pre); reflexivity).
  cbn -[atLineStart]. rewrite H. reflexivity.
Qed.

End Validator.

Section ValidatorResults.

Lemma forallb_false_exists {A : Type} (f : A -> bool) (l : list A) :
  forallb f l = false <-> exists x, In x l /\ f x = false.
Proof.
  induction l as [|a l IH]; cbn.
  - split; [discriminate|]. intros (x & [] & _).
  - rewrite andb_false_iff, IH. split.
    + intros [H|(x & Hx & Hf)]; [exists a; auto|exists x; auto].
    + intros (x & [<-|Hx] & Hf); [left; exact Hf|right; exists x; auto].
Qed.

Lemma requiredMissing_true (content : jsstring) (sec : SectionRequirement) :
  requiredMissing content sec = true
  <-> required sec = true /\ test (pattern sec) content = false.
Proof.
  unfold requiredMissing, missingIn.
  rewrite andb_true_iff, negb_true_iff. reflexivity.
Qed.

Lemma optionalMissing_true (content : jsstring) (sec : SectionRequirement) :
  optionalMissing content sec = true
  <-> required sec = false /\ test (pattern sec) content = false.
Proof.
  unfold optionalMissing, missingIn.
  rewrite andb_true_iff, !negb_true_iff. reflexivity.
Qed.

Lemma missingSections_In (t : DocumentType) (content n : jsstring) :
  In n (missingSections (validateDocumentByType t content)) <->
  exists sec, In sec (sectionsOf t) /\ name sec = n /\
              required sec = true /\ test (pattern sec) content = false.
Proof.
  rewrite validateDocumentByType_sections, validateDocument_spec. cbn.
  rewrite in_map_iff. split.
  - intros (sec & Hn & Hin). apply List.filter_In in Hin as [Hin Hm].
    apply requiredMissing_true in Hm. exists sec. tauto.
  - intros (sec & Hin & Hn & Hm). exists sec. split; [exact Hn|].
    apply List.filter_In. split; [exact Hin|]. apply requiredMissing_true. exact Hm.
Qed.

Lemma warnings_In (t : DocumentType) (content : jsstring) (sec : SectionRequirement) :
  In sec (sectionsOf t) -> required sec = false -> test (pattern sec) content = false ->
  In (js "Optional section missing: " ++ name sec)
     (warnings (validateDocumentByType t content)).
Proof.
  intros Hin Hr Ht.
  rewrite validateDocumentByType_sections, validateDocument_spec. cbn.
  apply in_map_iff. exists sec. split; [reflexivity|].
  apply List.filter_In. split; [exact Hin|]. apply optionalMissing_true. tauto.
Qed.

Lemma valid_false (t : DocumentType) (content : jsstring) :
  valid (validateDocumentByType t content) = false <->
  exists sec, In sec (sectionsOf t) /\
              required sec = true /\ test (pattern sec) content = false.
Proof.
  rewrite validateDocumentByType_sections, validateDocument_spec. cbn.
  rewrite forallb_false_exists. split.
  - intros (sec & Hin & Hm). apply negb_false_iff, requiredMissing_true in Hm.
    exists sec. tauto.
  - intros (sec & Hin & Hm). exists sec. split; [exact Hin|].
    apply negb_false_iff, requiredMissing_true. exact Hm.
Qed.

Lemma approach_named (sec : SectionRequirement) :
  In sec RFC_SECTIONS -> name sec = js "Approach" -> sec = approachSection.
Proof.
  cbn [RFC_SECTIONS In]. intros H.
  repeat (destruct H as [<-|H]; [|]); try contradiction;
    intros Hn; try reflexivity; vm_compute in Hn; discriminate Hn.
Qed.

End ValidatorResults.

(** C7. For every document type and text, validate gives valid = false exactly
    when some required section of the type's table has a pattern that matches
    nowhere in the text. The name of every such section is in missingSections,
    and missingSections holds nothing else. An optional section whose pattern
    matches nowhere gives a warning and its name is not in missingSections, so
    it has no part in validity. Two texts that differ only in the case of
    letters get the same result. A line that starts with the heading
    "## Proposed Approach", whatever follows, stands for the RFC section
    "Approach". *)
Theorem C7_validate_required_sections (t : DocumentType) (text : jsstring) :
  (valid (validateDocumentByType t text) = false <->
     exists sec, In sec (sectionsOf t) /\
                 required sec = true /\ test (pattern sec) text = false) /\
  (forall sec, In sec (sectionsOf t) ->
     required sec = true -> test (pattern sec) text = false ->
     In (name sec) (missingSections (validateDocumentByType t text))) /\
  (forall n, In n (missingSections (validateDocumentByType t text)) ->
     exists sec, In sec (sectionsOf t) /\ name sec = n /\
                 required sec = true /\ test (pattern sec) text = false) /\
  (forall sec, In sec (sectionsOf t) ->
     required sec = false -> test (pattern sec) text = false ->
     In (js "Optional section missing: " ++ name sec)
        (warnings (validateDocumentByType t text)) /\
     ~ In (name sec) (missingSections (validateDocumentByType t text))) /\
  (forall text', sameUpToCase text' text ->
     validateDocumentByType t text' = validateDocumentByType t text) /\
  (forall pre post, atLineStart (last pre) = true ->
     ~ In (js "Approach")
          (missingSections
             (validateDocumentByType rfc (pre ++ js "## Proposed Approach" ++ post)))).
Proof.
  split; [apply valid_false|].
  split.
  { intros sec Hin Hr Ht. apply missingSections_In. exists sec. tauto. }
  split.
  { intros n Hn. apply missingSections_In. exact Hn. }
  split.
  { intros sec Hin Hr Ht. split; [apply warnings_In; assumption|].
    intros Hm. apply missingSections_In in Hm as (sec' & Hin' & Hn & Hr' & _).
    pose proof (section_names_distinct t sec' sec Hin' Hin Hn) as Heq.
    congruence. }
  split.
  { intros text' H. rewrite !validateDocumentByType_sections.
    apply validateDocument_sameUpToCase. exact H. }
  intros pre post Hpre Hm.
  apply missingSections_In in Hm as (sec & Hin & Hn & _ & Ht).
  apply (approach_named sec Hin) in Hn. subst sec.
  rewrite (proposed_approach_matches pre post Hpre) in Ht. discriminate Ht.
Qed.

Lemma C7_validate_witness :
  In goalsSection (sectionsOf rfc) /\
  required goalsSection = true /\
  test (pattern goalsSection) rfcWithoutGoals = false /\
  In (js "Goals") (missingSections (validateDocumentByType rfc rfcWithoutGoals)) /\
  valid (validateDocumentByType rfc rfcWithoutGoals) = false /\
  sameUpToCase (js "## GOALS and non-goals") (js "## Goals and Non-Goals") /\
  validateDocumentByType rfc (js "## GOALS and non-goals")
    = validateDocumentByType rfc (js "## Goals and Non-Goals") /\
  atLineStart (last (js "# RFC" ++ [0x0A])) = true /\
  ~ In (js "Approach")
       (missingSections
          (validateDocumentByType rfc
             ((js "# RFC" ++ [0x0A]) ++ js "## Proposed Approach" ++ js " (draft)"))).
Proof.
  assert (Hin : In goalsSection (sectionsOf rfc)) by (cbn; tauto).
  assert (Ht : test (pattern goalsSection) rfcWithoutGoals = false)
    by (vm_compute; reflexivity).
  assert (Hcase : sameUpToCase (js "## GOALS and non-goals") (js "## Goals and Non-Goals"))
    by (vm_compute; reflexivity).
  assert (Hstart : atLineStart (last (js "# RFC" ++ [0x0A])) = true)
    by (vm_compute; reflexivity).
  split; [exact Hin|]. split; [reflexivity|]. split; [exact Ht|].
  destruct (C7_validate_required_sections rfc rfcWithoutGoals)
    as (Hvalid & Hmissing & _ & _ & _ & Happroach).
  split; [exact (Hmissing goalsSection Hin eq_refl Ht)|].
  split.
  { apply Hvalid. exists goalsSection. split; [exact Hin|]. split; [reflexivity|exact Ht]. }
  split; [exact Hcase|].
  split.
  { destruct (C7_validate_required_sections rfc (js "## Goals and Non-Goals"))
      as (_ & _ & _ & _ & Hsame & _).
    exact (Hsame _ Hcase). }
  split; [exact Hstart|].
  exact (Happroach _ (js " (draft)") Hstart).
Defined.

Example validateRfc_without_goals :
  validateDocumentByType rfc rfcWithoutGoals
  = {| valid := false;
       missingSections := [js "Goals"];
       warnings := [js "Optional section missing: Open Questions";
                    js "Optional section missing: Assumptions"] |}.
Proof. vm_compute. reflexivity. Qed.

(** C4. With strictMode off, strictModeCheck passes with no error, whatever the
    text. With strictMode on it passes exactly when validate finds the text
    valid, then with no error; when it does not pass, its errors are the
    message "Missing required section: " with the section's name, once for
    every required section of the table whose pattern matches nowhere in the
    text, in the order of the table. *)
Theorem C4_strictModeCheck_gate
    (state : DocForgeState) (t : DocumentType) (text : jsstring) :
  (strictMode state = false ->
   strictModeCheck state t text = {| passes := true; errors := [] |}) /\
  (strictMode state = true ->
   passes (strictModeCheck state t text) = valid (validateDocumentByType t text) /\
   (passes (strictModeCheck state t text) = true ->
    errors (strictModeCheck state t text) = []) /\
   (passes (strictModeCheck state t text) = false ->
    errors (strictModeCheck state t text)
    = map (fun sec => js "Missing required section: " ++ name sec)
          (List.filter (fun sec => required sec && negb (test (pattern sec) text))
                       (sectionsOf t)))).
Proof.
  unfold strictModeCheck. split; intros ->; cbn [negb]; [reflexivity|].
  destruct (valid (validateDocumentByType t text)) eqn:Hv; cbn.
  - split; [reflexivity|]. split; [reflexivity|discriminate].
  - split; [reflexivity|]. split; [discriminate|]. intros _.
    rewrite validateDocumentByType_sections, validateDocument_spec. cbn.
    rewrite map_map. reflexivity.
Qed.

Lemma C4_strictModeCheck_witness :
  let strictState := set_strictMode true demoState in
  strictMode demoState = false /\
  strictModeCheck demoState rfc rfcWithoutGoals = {| passes := true; errors := [] |} /\
  strictMode strictState = true /\
  passes (strictModeCheck strictState rfc rfcWithoutGoals) = false /\
  errors (strictModeCheck strictState rfc rfcWithoutGoals)
  = [js "Missing required section: Goals"].
Proof.
  intros strictState.
  split; [reflexivity|].
  split; [exact (proj1 (C4_strictModeCheck_gate demoState rfc rfcWithoutGoals) eq_refl)|].
  split; [reflexivity|].
  destruct (proj2 (C4_strictModeCheck_gate strictState rfc rfcWithoutGoals) eq_refl)
    as (Hp & _ & He).
  assert (Hf : passes (strictModeCheck strictState rfc rfcWithoutGoals) = false)
    by (rewrite Hp; vm_compute; reflexivity).
  split; [exact Hf|]. rewrite (He Hf). vm_compute. reflexivity.
Defined.

(* ===================================================================== *)
(** * Further properties of the code *)
(* ===================================================================== *)

(** ** The state store: load, save, initialize *)

Section StoreFrame.

Variable cwd : jsstring.

Lemma loadState_disk (d : Disk) : snd (loadState cwd d) = d.
Proof.
  rewrite loadState_run.
  destruct (d !! getStateFilePath cwd) as [[c|]|]; try reflexivity.
  destruct (JSON_parse c); reflexivity.
Qed.

(** Without a record that parses, the three operations that load first stop
    with the error of [loadState]. *)
Lemma loadState_fails_run (d : Disk) :
  loadState cwd d = (Throw (Error noProjectFound), d) ->
  (forall updates, updateState updates cwd d = (Throw (Error noProjectFound), d)) /\
  (forall now stepId dis cla mis,
     recordCheckpointResponse now stepId dis cla mis cwd d
       = (Throw (Error noProjectFound), d)) /\
  (forall now t content,
     recordApproval now t content cwd d = (Throw (Error noProjectFound), d)).
Proof.
  intros H. repeat split; intros;
    unfold updateState, recordCheckpointResponse, recordApproval, bind;
    rewrite H; reflexivity.
Qed.

Lemma runOp_run (d : Disk) (s : DocForgeState) (op : RecordOp) :
  d !! getStateFilePath cwd = Some (File (StateJson s)) ->
  runOp cwd op d
  = (Ok (applyOp s op), <[getStateFilePath cwd := File (StateJson (applyOp s op))]> d).
Proof.
  intros H. destruct op; cbn [runOp applyOp].
  - apply recordCheckpointResponse_run. exact H.
  - apply recordApproval_run. exact H.
Qed.

Lemma runOps_run (ops : list RecordOp) :
  forall (d : Disk) (s : DocForgeState),
    d !! getStateFilePath cwd = Some (File (StateJson s)) ->
    runOps cwd ops d
    = (Ok tt, <[getStateFilePath cwd := File (StateJson (fold_left applyOp ops s))]> d).
Proof.
  induction ops as [|op ops IH]; intros d s H; cbn [runOps fold_left].
  - unfold ret. rewrite insert_id by exact H. reflexivity.
  - unfold bind. rewrite (runOp_run d s op H).
    rewrite (IH _ (applyOp s op)) by apply lookup_insert_eq.
    rewrite insert_insert_eq. reflexivity.
Qed.

End StoreFrame.



(** X2. initializeProject makes the state directory, with the directories
    above it that are missing, and writes the fresh initial state there.
    Where the directory can be made and no directory is in the place of the
    state file, it succeeds: afterwards the state directory is there,
    projectExists is true, loadState returns the state initializeProject
    returned, and whatever else the disk held is kept; in a directory that
    exists and holds no state directory, the disk afterwards is the disk
    before with that directory and the state file in it added. Where a
    regular file is in the place of the state directory it throws EEXIST, and
    where the
    directory cannot be made it throws; the disk is then as before and no
    project exists. The state returned is at the first step rfc.problem, has
    no checkpoint response and no approval, strict mode off and the given
    metadata; no document is approved in it, every content counts as changed,
    and no phase is complete. *)
Theorem X2_initializeProject_then_load
    (d : Disk) (cwd : jsstring) (project : ProjectMetadata) :
  let s := createInitialState project in
  (canMake d (getStateDirPath cwd) = true ->
   isDirectoryAt d (getStateFilePath cwd) = false ->
   exists d' : Disk,
     initializeProject project cwd d = (Ok s, d') /\
     d' !! getStateDirPath cwd = Some Directory /\
     projectExists cwd d' = (Ok true, d') /\
     loadState cwd d' = (Ok (StateValue s), d') /\
     (forall k n, k <> getStateFilePath cwd -> d !! k = Some n -> d' !! k = Some n)) /\
  (entry d (dirname (getStateDirPath cwd)) = Some Directory ->
   d !! getStateDirPath cwd = None -> d !! getStateFilePath cwd = None ->
   initializeProject project cwd d
   = (Ok s, <[getStateFilePath cwd := File (StateJson s)]>
              (<[getStateDirPath cwd := Directory]> d))) /\
  (forall c, d !! getStateDirPath cwd = Some (File c) ->
     initializeProject project cwd d = (Throw EEXIST, d)) /\
  (canMake d (getStateDirPath cwd) = false ->
   exists e, initializeProject project cwd d = (Throw e, d)) /\
  Types.project s = project /\
  currentStep s = rfc_problem /\
  checkpointResponses s = [] /\ approvals s = [] /\ strictMode s = false /\
  areAllDocumentsApproved s = false /\
  (forall t, isDocumentApproved s t = false) /\
  (forall t content, hasDocumentChanged s t content = true) /\
  (forall ph, isPhaseComplete s ph = false).
Proof.
  cbn zeta. split; [|split; [|split; [|split]]].
  - intros Hm Hp. eexists. split; [apply initializeProject_run; assumption|].
    destruct (project_paths_apart cwd rfc) as (Hne & _).
    split.
    { rewrite lookup_insert_ne by exact Hne.
      rewrite <- entry_stateDir. apply made_directory, Hm. }
    split.
    { rewrite projectExists_run, bool_decide_eq_true_2; [reflexivity|].
      rewrite lookup_insert_eq. eauto. }
    split; [apply loadState_state, lookup_insert_eq|].
    intros k n Hk Hn. rewrite lookup_insert_ne by congruence. apply made_keeps, Hn.
  - intros Hup Hdir Hfile.
    destruct (project_paths_apart cwd rfc) as (Hne & _ & _ & _ & _ & Hlen & _).
    assert (Hsome : getStateDirPath cwd <> []).
    { destruct (project_paths cwd) as (base & parent & Hs & _). rewrite Hs.
      intros E. apply (f_equal (@length Z)) in E. rewrite length_app in E.
      cbn in E. lia. }
    unfold initializeProject, bind. rewrite mkdir_new;
      [|exact Hsome|rewrite entry_stateDir; exact Hdir|exact Hup].
    unfold writeFile.
    rewrite entry_stateFile, lookup_insert_ne, Hfile by congruence.
    rewrite dirname_stateFile, entry_stateDir, lookup_insert_eq. reflexivity.
  - intros c Hc. unfold initializeProject, bind.
    rewrite (mkdir_file d _ c) by (rewrite entry_stateDir; exact Hc). reflexivity.
  - intros Hm. unfold initializeProject, bind.
    destruct (cannotMake_mkdir d _ Hm) as [e ->]. exists e. reflexivity.
  - repeat split. intros ph. destruct ph; vm_compute; reflexivity.
Qed.

Lemma X2_initializeProject_witness :
  (exists d' : Disk,
     initializeProject demoProject demoCwd freshDirectory
     = (Ok (createInitialState demoProject), d') /\
     d' !! getStateDirPath demoCwd = Some Directory /\
     loadState demoCwd d' = (Ok (StateValue (createInitialState demoProject)), d')) /\
  initializeProject demoProject demoCwd freshDirectory
  = (Ok (createInitialState demoProject),
     <[js "/work/.docforge/state.json"
       := File (StateJson (createInitialState demoProject))]>
       (<[js "/work/.docforge" := Directory]> freshDirectory)) /\
  initializeProject demoProject demoCwd
    (<[js "/work/.docforge" := File (NotJson (js "text"))]> freshDirectory)
  = (Throw EEXIST, <[js "/work/.docforge" := File (NotJson (js "text"))]> freshDirectory).
Proof.
  split; [|split].
  - destruct (proj1 (X2_initializeProject_then_load freshDirectory demoCwd demoProject))
      as (d' & Hrun & Hdir & _ & Hload & _).
    + vm_compute. reflexivity.
    + vm_compute. reflexivity.
    + exists d'. split; [exact Hrun|]. split; [exact Hdir|exact Hload].
  - apply (proj1 (proj2 (X2_initializeProject_then_load freshDirectory demoCwd
                           demoProject))); vm_compute; reflexivity.
  - apply (proj1 (proj2 (proj2 (X2_initializeProject_then_load _ demoCwd demoProject)))
             (NotJson (js "text"))).
    apply lookup_insert_eq.
Defined.

(** X3. projectExists never throws and never writes: it returns true exactly
    when there is a file at the state path. Whenever loadState succeeds it
    returns true; it also returns true on a record that loadState refuses
    because it does not parse. *)
Theorem X3_projectExists_total (d : Disk) (cwd : jsstring) :
  exists b : bool,
    projectExists cwd d = (Ok b, d) /\
    (b = true <-> is_Some (d !! getStateFilePath cwd)) /\
    (forall v, loadState cwd d = (Ok v, d) -> b = true) /\
    (forall raw, d !! getStateFilePath cwd = Some (File (NotJson raw)) ->
       b = true /\ loadState cwd d = (Throw (Error noProjectFound), d)).
Proof.
  exists (bool_decide (is_Some (d !! getStateFilePath cwd))).
  split; [apply projectExists_run|].
  split; [apply bool_decide_eq_true|].
  split.
  - intros v. rewrite loadState_run.
    destruct (d !! getStateFilePath cwd) as [c|] eqn:E; [|discriminate].
    intros _. apply bool_decide_eq_true_2. eauto.
  - intros raw H. rewrite loadState_run, H. split; [|reflexivity].
    apply bool_decide_eq_true_2. eauto.
Qed.

Lemma X3_projectExists_witness :
  let corrupt : Disk := projectWith (NotJson (js "{ version: ")) in
  exists b : bool,
    projectExists demoCwd corrupt = (Ok b, corrupt) /\ b = true /\
    loadState demoCwd corrupt = (Throw (Error noProjectFound), corrupt).
Proof.
  intros corrupt.
  destruct (X3_projectExists_total corrupt demoCwd) as (b & Hrun & _ & _ & Hraw).
  exists b. split; [exact Hrun|].
  exact (Hraw (js "{ version: ") (projectWith_record _)).
Defined.

(** X4. Where the location has no record, or one whose text does not parse,
    updateState, recordCheckpointResponse and recordApproval all stop with the
    "No DocForge project found" error and write nothing: no record is
    created on the way. *)
Theorem X4_operations_without_project
    (d : Disk) (cwd : jsstring) (updates : PartialState)
    (now stepId : jsstring) (dis cla mis : option jsstring)
    (t : DocumentType) (content : jsstring) :
  (d !! getStateFilePath cwd = None \/
   exists raw, d !! getStateFilePath cwd = Some (File (NotJson raw))) ->
  updateState updates cwd d = (Throw (Error noProjectFound), d) /\
  recordCheckpointResponse now stepId dis cla mis cwd d
    = (Throw (Error noProjectFound), d) /\
  recordApproval now t content cwd d = (Throw (Error noProjectFound), d).
Proof.
  intros H.
  assert (Hload : loadState cwd d = (Throw (Error noProjectFound), d)).
  { rewrite loadState_run. destruct H as [-> | [raw ->]]; reflexivity. }
  destruct (loadState_fails_run cwd d Hload) as (Hu & Hc & Ha).
  split; [apply Hu|]. split; [apply Hc|apply Ha].
Qed.

Lemma X4_operations_without_project_witness :
  (∅ : Disk) !! getStateFilePath demoCwd = None /\
  recordApproval (js "t1") rfc (js "A") demoCwd ∅ = (Throw (Error noProjectFound), ∅).
Proof.
  assert (H : (∅ : Disk) !! getStateFilePath demoCwd = None) by apply lookup_empty.
  split; [exact H|].
  exact (proj2 (proj2 (X4_operations_without_project ∅ demoCwd demoUpdates
                         (js "t1") (js "rfc.goals") None None None rfc (js "A")
                         (or_introl H)))).
Defined.

(** ** The state store: sequences of record operations *)

Section Ledger.

Lemma approvalFor_other (now : jsstring) (t t' : DocumentType) (content : jsstring)
    (s : DocForgeState) :
  t <> t' ->
  approvalFor t' (withApproval now t content s) = approvalFor t' s.
Proof.
  intros Hne. unfold approvalFor. rewrite approvals_withApproval. unfold otherThan.
  induction (approvals s) as [|a l IH]; cbn.
  - rewrite bool_decide_eq_false_2 by exact Hne. reflexivity.
  - destruct (bool_decide (documentType a <> t)) eqn:E; cbn.
    + destruct (bool_decide (documentType a = t')); [reflexivity|exact IH].
    + apply bool_decide_eq_false in E.
      rewrite bool_decide_eq_false_2; [exact IH|].
      intros Heq. apply E. intros Ht. apply Hne. congruence.
Qed.

Lemma approvalFor_applyOp (t : DocumentType) (s : DocForgeState) (op : RecordOp) :
  approvalFor t (applyOp s op) = lastApproval t (approvalFor t s) [op].
Proof.
  destruct op as [now stepId dis cla mis | now t' content]; cbn; [reflexivity|].
  destruct (bool_decide (t' = t)) eqn:E.
  - apply bool_decide_eq_true in E. subst t'. apply find_withApproval.
  - apply bool_decide_eq_false in E. apply approvalFor_other. exact E.
Qed.

Lemma approvalFor_ops (t : DocumentType) (ops : list RecordOp) :
  forall s, approvalFor t (fold_left applyOp ops s) = lastApproval t (approvalFor t s) ops.
Proof.
  induction ops as [|op ops IH]; intros s; [reflexivity|].
  cbn [fold_left]. rewrite IH, approvalFor_applyOp. reflexivity.
Qed.

Lemma lastApproval_is_Some (t : DocumentType) (ops : list RecordOp) :
  forall before,
    is_Some (lastApproval t before ops) <->
    is_Some before \/ exists now content, In (Approve now t content) ops.
Proof.
  induction ops as [|op ops IH]; intros before.
  - cbn. split; [auto|]. intros [H|(now & content & [])]. exact H.
  - unfold lastApproval in *. cbn [fold_left]. rewrite IH. clear IH.
    destruct op as [now stepId dis cla mis | now t' content].
    + split.
      * intros [H|(n & c & H)]; [left; exact H|right; exists n, c; right; exact H].
      * intros [H|(n & c & [H|H])]; [left; exact H|discriminate H|right; eauto].
    + destruct (bool_decide (t' = t)) eqn:E.
      * apply bool_decide_eq_true in E. subst t'. split.
        -- intros _. right. exists now, content. left. reflexivity.
        -- intros _. left. eauto.
      * apply bool_decide_eq_false in E. split.
        -- intros [H|(n & c & H)]; [left; exact H|right; exists n, c; right; exact H].
        -- intros [H|(n & c & [H|H])]; [left; exact H| |right; eauto].
           injection H as _ Ht _. contradiction.
Qed.

Lemma isDocumentApproved_approvalFor (s : DocForgeState) (t : DocumentType) :
  isDocumentApproved s t = true <-> is_Some (approvalFor t s).
Proof.
  unfold isDocumentApproved, approvalFor.
  induction (approvals s) as [|a l IH]; cbn.
  - split; [discriminate|]. intros [x Hx]. discriminate.
  - destruct (bool_decide (documentType a = t)); cbn; [|exact IH].
    split; eauto.
Qed.

Lemma otherThan_types (t : DocumentType) (l : list Approval) :
  ~ In t (map documentType (otherThan t l)).
Proof.
  unfold otherThan. intros H. apply in_map_iff in H as (a & Ha & Hin).
  apply List.filter_In in Hin as [_ Hb]. apply bool_decide_eq_true in Hb. contradiction.
Qed.

Lemma otherThan_NoDup (t : DocumentType) (l : list Approval) :
  List.NoDup (map documentType l) -> List.NoDup (map documentType (otherThan t l)).
Proof.
  unfold otherThan. induction l as [|a l IH]; cbn; intros H; [constructor|].
  inversion H as [|x xs Hnotin Hnd]; subst.
  destruct (bool_decide (documentType a <> t)); cbn; [|apply IH; exact Hnd].
  constructor; [|apply IH; exact Hnd].
  intros Hin. apply Hnotin.
  apply in_map_iff in Hin as (b & Hb & Hin). apply List.filter_In in Hin as [Hin _].
  apply in_map_iff. exists b. tauto.
Qed.

Lemma NoDup_snoc {A : Type} (l : list A) (x : A) :
  List.NoDup l -> ~ In x l -> List.NoDup (l ++ [x]).
Proof.
  induction l as [|a l IH]; cbn; intros Hnd Hx.
  - constructor; [tauto|constructor].
  - inversion Hnd as [|y ys Hnotin Hnd']; subst. constructor.
    + rewrite in_app_iff. cbn. intros [H|[H|[]]]; [contradiction|].
      apply Hx. left. symmetry. exact H.
    + apply IH; [exact Hnd'|]. intros H. apply Hx. right. exact H.
Qed.

Lemma ledgerConsistent_applyOp (s : DocForgeState) (op : RecordOp) :
  ledgerConsistent s -> ledgerConsistent (applyOp s op).
Proof.
  intros [Hnd Hsync]. destruct op as [now stepId dis cla mis | now t content].
  - split; [exact Hnd|]. intros t. exact (Hsync t).
  - split.
    + cbn [applyOp]. rewrite approvals_withApproval, map_app.
      apply NoDup_snoc; [apply otherThan_NoDup; exact Hnd|apply otherThan_types].
    + intros t'. rewrite (approvalFor_applyOp t' s (Approve now t content)).
      cbn. destruct (bool_decide (t = t')) eqn:E.
      * apply bool_decide_eq_true in E. subst t'. apply getHash_setHash.
      * apply bool_decide_eq_false in E.
        rewrite getHash_setHash_other by congruence. apply Hsync.
Qed.

Lemma ledgerConsistent_ops (ops : list RecordOp) :
  forall s, ledgerConsistent s -> ledgerConsistent (fold_left applyOp ops s).
Proof.
  induction ops as [|op ops IH]; intros s H; [exact H|].
  cbn [fold_left]. apply IH, ledgerConsistent_applyOp, H.
Qed.

Lemma frame_ops (ops : list RecordOp) :
  forall s,
    let s' := fold_left applyOp ops s in
    version s' = version s /\ project s' = project s /\
    currentStep s' = currentStep s /\ documentProgress s' = documentProgress s /\
    strictMode s' = strictMode s /\
    checkpointResponses s' = checkpointResponses s ++ responsesOf ops.
Proof.
  induction ops as [|op ops IH]; intros s; cbn zeta.
  - cbn. rewrite app_nil_r. repeat split.
  - cbn [fold_left]. destruct (IH (applyOp s op)) as (Hv & Hp & Hc & Hd & Hs & Hr).
    rewrite Hv, Hp, Hc, Hd, Hs, Hr.
    destruct op; cbn; repeat split. rewrite <- app_assoc. reflexivity.
Qed.

End Ledger.

(** X5. Checkpoint responses are only ever appended. After any sequence of
    recordCheckpointResponse and recordApproval calls on a stored state, the
    stored responses are the old ones followed by one entry for each
    recordCheckpointResponse call, in call order, equal calls giving equal
    entries (nothing is merged or dropped); version, project, currentStep,
    documentProgress and strictMode are those of the start. *)
Theorem X5_record_sequences_append_responses
    (d : Disk) (cwd : jsstring) (s : DocForgeState) (ops : list RecordOp) :
  d !! getStateFilePath cwd = Some (File (StateJson s)) ->
  exists (s' : DocForgeState) (d' : Disk),
    runOps cwd ops d = (Ok tt, d') /\
    loadState cwd d' = (Ok (StateValue s'), d') /\
    checkpointResponses s' = checkpointResponses s ++ responsesOf ops /\
    version s' = version s /\ project s' = project s /\
    currentStep s' = currentStep s /\ documentProgress s' = documentProgress s /\
    strictMode s' = strictMode s.
Proof.
  intros H. eexists _, _. split; [exact (runOps_run cwd ops d s H)|].
  split; [apply loadState_state, lookup_insert_eq|].
  destruct (frame_ops ops s) as (Hv & Hp & Hc & Hd & Hs & Hr). tauto.
Qed.

Lemma X5_record_sequences_witness :
  exists (s' : DocForgeState) (d' : Disk),
    runOps demoCwd [Respond (js "t1") (js "rfc.goals") (Some (js "no")) None None;
                    Respond (js "t1") (js "rfc.goals") (Some (js "no")) None None]
           demoDisk = (Ok tt, d') /\
    loadState demoCwd d' = (Ok (StateValue s'), d') /\
    length (checkpointResponses s') = 2%nat.
Proof.
  destruct (X5_record_sequences_append_responses demoDisk demoCwd demoState
              [Respond (js "t1") (js "rfc.goals") (Some (js "no")) None None;
               Respond (js "t1") (js "rfc.goals") (Some (js "no")) None None]
              demoDisk_state) as (s' & d' & Hrun & Hload & Hr & _).
  exists s', d'. split; [exact Hrun|]. split; [exact Hload|].
  rewrite Hr. reflexivity.
Defined.

(** X6. The approval ledger stays consistent. If in the stored state no
    document type has two approvals and documentHashes holds for each type the
    hash of its approval (none where there is none), then the same is true of
    the state stored after any sequence of recordCheckpointResponse and
    recordApproval calls. The initial state is consistent, so every state
    reached from initializeProject by these calls is. *)
Theorem X6_ledger_stays_consistent
    (d : Disk) (cwd : jsstring) (s : DocForgeState) (ops : list RecordOp) :
  (forall p, ledgerConsistent (createInitialState p)) /\
  (d !! getStateFilePath cwd = Some (File (StateJson s)) ->
   ledgerConsistent s ->
   exists (s' : DocForgeState) (d' : Disk),
     runOps cwd ops d = (Ok tt, d') /\
     loadState cwd d' = (Ok (StateValue s'), d') /\
     ledgerConsistent s').
Proof.
  split.
  - intros p. split; [constructor|]. intros t. destruct t; reflexivity.
  - intros H Hc. eexists _, _. split; [exact (runOps_run cwd ops d s H)|].
    split; [apply loadState_state, lookup_insert_eq|].
    apply ledgerConsistent_ops, Hc.
Qed.

Lemma X6_ledger_witness :
  exists (s' : DocForgeState) (d' : Disk),
    runOps demoCwd [Approve (js "t1") rfc (js "A"); Approve (js "t2") rfc (js "B")]
           demoDisk = (Ok tt, d') /\
    loadState demoCwd d' = (Ok (StateValue s'), d') /\
    ledgerConsistent s'.
Proof.
  assert (Hc : ledgerConsistent demoState).
  { split; [constructor|]. intros t. destruct t; reflexivity. }
  exact (proj2 (X6_ledger_stays_consistent demoDisk demoCwd demoState
                  [Approve (js "t1") rfc (js "A"); Approve (js "t2") rfc (js "B")])
               demoDisk_state Hc).
Defined.

(** X7. Approvals do not expire and the last one counts. After any sequence of
    recordCheckpointResponse and recordApproval calls on a stored state, the
    approval found for a document type is the one of the last recordApproval
    call for that type in the sequence, with the hash of that call's content,
    or the one found before if there was no such call. So a document is
    approved afterwards exactly when it was before or some call approved it,
    and areAllDocumentsApproved is true exactly when that holds of rfc, plan
    and rollout. *)
Theorem X7_approvals_follow_last_call
    (d : Disk) (cwd : jsstring) (s : DocForgeState) (ops : list RecordOp) :
  d !! getStateFilePath cwd = Some (File (StateJson s)) ->
  exists (s' : DocForgeState) (d' : Disk),
    runOps cwd ops d = (Ok tt, d') /\
    loadState cwd d' = (Ok (StateValue s'), d') /\
    (forall t, approvalFor t s' = lastApproval t (approvalFor t s) ops) /\
    (forall t, isDocumentApproved s' t = true <->
               isDocumentApproved s t = true \/
               exists now content, In (Approve now t content) ops) /\
    (areAllDocumentsApproved s' = true <->
     forall t, isDocumentApproved s t = true \/
               exists now content, In (Approve now t content) ops).
Proof.
  intros H. eexists _, _. split; [exact (runOps_run cwd ops d s H)|].
  split; [apply loadState_state, lookup_insert_eq|].
  assert (Hap : forall t,
             isDocumentApproved (fold_left applyOp ops s) t = true <->
             isDocumentApproved s t = true \/
             exists now content, In (Approve now t content) ops).
  { intros t. rewrite !isDocumentApproved_approvalFor, approvalFor_ops.
    apply lastApproval_is_Some. }
  split; [intros t; apply approvalFor_ops|]. split; [exact Hap|].
  unfold areAllDocumentsApproved. cbn [forallb]. rewrite !andb_true_iff.
  rewrite !Hap. split.
  - intros (Hr & Hp & Ho & _) t. destruct t; assumption.
  - intros Hall. repeat split; apply Hall.
Qed.

Lemma X7_approvals_witness :
  exists (s' : DocForgeState) (d' : Disk),
    runOps demoCwd [Approve (js "t1") rfc (js "A"); Approve (js "t2") plan (js "B");
                    Respond (js "t3") (js "plan.stages") None None None;
                    Approve (js "t4") rollout (js "C"); Approve (js "t5") rfc (js "D")]
           demoDisk = (Ok tt, d') /\
    loadState demoCwd d' = (Ok (StateValue s'), d') /\
    approvalFor rfc s' = Some (newApproval (js "t5") rfc (js "D")) /\
    areAllDocumentsApproved s' = true.
Proof.
  destruct (X7_approvals_follow_last_call demoDisk demoCwd demoState
              [Approve (js "t1") rfc (js "A"); Approve (js "t2") plan (js "B");
               Respond (js "t3") (js "plan.stages") None None None;
               Approve (js "t4") rollout (js "C"); Approve (js "t5") rfc (js "D")]
              demoDisk_state) as (s' & d' & Hrun & Hload & Hfor & _ & Hall).
  exists s', d'. split; [exact Hrun|]. split; [exact Hload|].
  split; [rewrite Hfor; reflexivity|].
  apply Hall. intros t. right. destruct t.
  - exists (js "t1"), (js "A"). cbn. tauto.
  - exists (js "t2"), (js "B"). cbn. tauto.
  - exists (js "t4"), (js "C"). cbn. tauto.
Defined.

Section Confinement.

Variable paths : list jsstring.

Lemma entry_agree (d1 d2 : Disk) (q : jsstring) :
  (forall k, In k paths -> d1 !! k = d2 !! k) -> In q paths -> entry d1 q = entry d2 q.
Proof. intros H Hq. unfold entry. rewrite (H q Hq). reflexivity. Qed.

Lemma insert_agree (d1 d2 : Disk) (q : jsstring) (n : Node) :
  (forall k, In k paths -> d1 !! k = d2 !! k) ->
  forall k, In k paths -> <[q := n]> d1 !! k = <[q := n]> d2 !! k.
Proof.
  intros H k Hk. destruct (decide (k = q)) as [->|Hne].
  - rewrite !lookup_insert_eq. reflexivity.
  - rewrite !lookup_insert_ne by congruence. apply H, Hk.
Qed.

Lemma confined_ret {A : Type} (a : A) : confined paths (ret a).
Proof. split; [intros d k _; reflexivity|]. intros d1 d2 H. split; [reflexivity|exact H]. Qed.

Lemma confined_throw {A : Type} (e : Exception) : confined paths (@throw A e).
Proof. split; [intros d k _; reflexivity|]. intros d1 d2 H. split; [reflexivity|exact H]. Qed.

Lemma confined_bind {A B : Type} (m : IO A) (f : A -> IO B) :
  confined paths m -> (forall a, confined paths (f a)) -> confined paths (bind m f).
Proof.
  intros [Hw Hr] Hf. split.
  - intros d k Hk. unfold bind. specialize (Hw d k Hk).
    destruct (m d) as [[a|e] d'] eqn:E; cbn [snd] in *; [|exact Hw].
    rewrite (proj1 (Hf a) d' k Hk). exact Hw.
  - intros d1 d2 H. unfold bind. destruct (Hr d1 d2 H) as [Hres Hdisk].
    destruct (m d1) as [[a1|e1] d1'], (m d2) as [[a2|e2] d2']; cbn [fst snd] in *;
      try discriminate Hres.
    + injection Hres as <-. exact (proj2 (Hf a1) d1' d2' Hdisk).
    + injection Hres as <-. split; [reflexivity|exact Hdisk].
Qed.

Lemma confined_try_catch {A : Type} (m : IO A) (h : Exception -> IO A) :
  confined paths m -> (forall e, confined paths (h e)) -> confined paths (try_catch m h).
Proof.
  intros [Hw Hr] Hh. split.
  - intros d k Hk. unfold try_catch. specialize (Hw d k Hk).
    destruct (m d) as [[a|e] d'] eqn:E; cbn [snd] in *; [exact Hw|].
    rewrite (proj1 (Hh e) d' k Hk). exact Hw.
  - intros d1 d2 H. unfold try_catch. destruct (Hr d1 d2 H) as [Hres Hdisk].
    destruct (m d1) as [[a1|e1] d1'], (m d2) as [[a2|e2] d2']; cbn [fst snd] in *;
      try discriminate Hres.
    + split; [exact Hres|exact Hdisk].
    + injection Hres as <-. exact (proj2 (Hh e1) d1' d2' Hdisk).
Qed.

Lemma confined_access (q : jsstring) : In q paths -> confined paths (access q).
Proof.
  intros Hq. split; [intros d k _; unfold access; destruct (entry d q); reflexivity|].
  intros d1 d2 H. unfold access. rewrite (entry_agree d1 d2 q H Hq).
  destruct (entry d2 q); (split; [reflexivity|exact H]).
Qed.

Lemma confined_readFile (q : jsstring) : In q paths -> confined paths (readFile q).
Proof.
  intros Hq.
  split; [intros d k _; unfold readFile; destruct (entry d q) as [[c|]|]; reflexivity|].
  intros d1 d2 H. unfold readFile. rewrite (entry_agree d1 d2 q H Hq).
  destruct (entry d2 q) as [[c|]|]; (split; [reflexivity|exact H]).
Qed.

Lemma confined_writeFile (q : jsstring) (c : FileText) :
  In q paths -> In (dirname q) paths -> confined paths (writeFile q c).
Proof.
  intros Hq Hd. split.
  - intros d k Hk. unfold writeFile.
    assert (Hne : q <> k) by (intros ->; contradiction).
    destruct (entry d q) as [[x|]|]; cbn [snd];
      [apply lookup_insert_ne, Hne|reflexivity|].
    destruct (entry d (dirname q)) as [[x|]|]; cbn [snd];
      [reflexivity|apply lookup_insert_ne, Hne|reflexivity].
  - intros d1 d2 H. unfold writeFile.
    rewrite (entry_agree d1 d2 q H Hq), (entry_agree d1 d2 (dirname q) H Hd).
    destruct (entry d2 q) as [[x|]|]; cbn [fst snd];
      [split; [reflexivity|apply insert_agree, H]|split; [reflexivity|exact H]|].
    destruct (entry d2 (dirname q)) as [[x|]|]; cbn [fst snd];
      [split; [reflexivity|exact H]|split; [reflexivity|apply insert_agree, H]
      |split; [reflexivity|exact H]].
Qed.

Lemma confined_mkdirFrom (f : nat) :
  forall q, (forall k, In k (q :: ancestors f q) -> In k paths) ->
            confined paths (mkdirFrom f q).
Proof.
  induction f as [|f IH]; intros q Hq.
  - assert (Hin : In q paths) by (apply Hq; left; reflexivity).
    split.
    + intros d k _. cbn [mkdirFrom]. destruct (entry d q) as [[c|]|]; reflexivity.
    + intros d1 d2 H. cbn [mkdirFrom]. rewrite (entry_agree d1 d2 q H Hin).
      destruct (entry d2 q) as [[c|]|]; (split; [reflexivity|exact H]).
  - assert (Hin : In q paths) by (apply Hq; left; reflexivity).
    assert (Hrec : confined paths (mkdirFrom f (dirname q)))
      by (apply IH; intros k Hk; apply Hq; right; exact Hk).
    destruct Hrec as [Hw Hr]. split.
    + intros d k Hk. cbn [mkdirFrom].
      destruct (entry d q) as [[c|]|]; try reflexivity.
      specialize (Hw d k Hk).
      destruct (mkdirFrom f (dirname q) d) as [[[]|e] d']; cbn [snd] in *; [|exact Hw].
      rewrite lookup_insert_ne by (intros ->; contradiction). exact Hw.
    + intros d1 d2 H. cbn [mkdirFrom]. rewrite (entry_agree d1 d2 q H Hin).
      destruct (entry d2 q) as [[c|]|]; try (split; [reflexivity|exact H]).
      destruct (Hr d1 d2 H) as [Hres Hdisk].
      destruct (mkdirFrom f (dirname q) d1) as [[[]|e1] d1'],
               (mkdirFrom f (dirname q) d2) as [[[]|e2] d2']; cbn [fst snd] in *;
        try discriminate Hres.
      * split; [reflexivity|apply insert_agree, Hdisk].
      * split; [reflexivity|exact Hdisk].
Qed.

End Confinement.

Section StoreConfined.

Variable cwd : jsstring.

Lemma ancestors_more (f f' : nat) :
  (f <= f')%nat -> forall p k, In k (ancestors f p) -> In k (ancestors f' p).
Proof.
  revert f'. induction f as [|f IH]; intros f' Hle p k; [intros []|].
  destruct f' as [|f']; [lia|]. cbn [ancestors]. intros [E|Hin]; [left; exact E|].
  right. apply (IH f'); [lia|exact Hin].
Qed.

Lemma storePaths_stateFile : In (getStateFilePath cwd) (storePaths cwd).
Proof. left. reflexivity. Qed.

Lemma storePaths_unfold :
  exists f, (length (getStateDirPath cwd) <= f)%nat /\
            ancestors (length (getStateFilePath cwd)) (getStateFilePath cwd)
            = getStateDirPath cwd :: ancestors f (getStateDirPath cwd).
Proof.
  destruct (project_paths_apart cwd rfc) as (_ & _ & _ & _ & _ & Hlen & _).
  destruct (length (getStateFilePath cwd)) as [|n] eqn:E; [lia|].
  exists n. split; [lia|]. cbn [ancestors]. rewrite dirname_stateFile. reflexivity.
Qed.

Lemma storePaths_stateDir :
  forall k, In k (upTo (getStateDirPath cwd)) -> In k (storePaths cwd).
Proof.
  intros k Hk. unfold storePaths, upTo in *. destruct storePaths_unfold as (f & Hf & ->).
  right. destruct Hk as [<-|Hk]; [left; reflexivity|].
  right. exact (ancestors_more _ f Hf _ _ Hk).
Qed.

(** The directories above an output directory are those above the state
    directory. *)
Lemma storePaths_above (q : jsstring) :
  dirname q = dirname (getStateDirPath cwd) ->
  (length q <= length (getStateDirPath cwd))%nat ->
  forall k, In k (ancestors (length q) q) -> In k (storePaths cwd).
Proof.
  intros Hq Hlen k Hk. apply storePaths_stateDir. right.
  destruct (length q) as [|n] eqn:E; [destruct Hk|].
  destruct (length (getStateDirPath cwd)) as [|m] eqn:Em; [lia|].
  cbn [ancestors] in *. rewrite <- Hq. destruct Hk as [<-|Hk]; [left; reflexivity|].
  right. apply (ancestors_more n m); [lia|exact Hk].
Qed.

Lemma confined_loadState : confined (storePaths cwd) (loadState cwd).
Proof.
  apply confined_try_catch; [|intros e; apply confined_throw].
  apply confined_bind; [apply confined_readFile, storePaths_stateFile|].
  intros c. destruct (JSON_parse c); [apply confined_ret|apply confined_throw].
Qed.

Lemma confined_saveState (s : DocForgeState) : confined (storePaths cwd) (saveState s cwd).
Proof.
  apply confined_writeFile; [apply storePaths_stateFile|].
  rewrite dirname_stateFile. apply storePaths_stateDir. left. reflexivity.
Qed.

Lemma confined_loaded {A : Type} (f : DocForgeState -> IO A) :
  (forall s, confined (storePaths cwd) (f s)) ->
  confined (storePaths cwd) (await v <- loadState cwd; await state <- asState v; f state).
Proof.
  intros Hf. apply confined_bind; [apply confined_loadState|]. intros v.
  apply confined_bind; [destruct v; [apply confined_ret|apply confined_throw]|].
  exact Hf.
Qed.

Lemma confined_initializeProject (project : ProjectMetadata) :
  confined (storePaths cwd) (initializeProject project cwd).
Proof.
  unfold initializeProject.
  apply confined_bind; [apply confined_mkdirFrom, storePaths_stateDir|]. intros _.
  apply confined_bind; [apply confined_saveState|]. intros _. apply confined_ret.
Qed.

Lemma confined_projectExists : confined (storePaths cwd) (projectExists cwd).
Proof.
  apply confined_try_catch; [|intros e; apply confined_ret].
  apply confined_bind; [apply confined_access, storePaths_stateFile|].
  intros _. apply confined_ret.
Qed.

Lemma confined_saved (s : DocForgeState) :
  confined (storePaths cwd) (await_ saveState s cwd; ret s).
Proof. apply confined_bind; [apply confined_saveState|]. intros _. apply confined_ret. Qed.

Lemma outputDirs_short :
  (length (getDocsDir cwd) <= length (getStateDirPath cwd))%nat /\
  (length (getPromptsDir cwd) <= length (getStateDirPath cwd))%nat.
Proof.
  destruct (project_paths cwd) as (base & parent & -> & _ & -> & _ & -> & _).
  rewrite !length_app. cbn. lia.
Qed.

Lemma confined_more {A : Type} (q : jsstring) (paths : list jsstring) (m : IO A) :
  confined paths m -> confined (q :: paths) m.
Proof.
  intros [Hw Hr]. split.
  - intros d k Hk. apply Hw. intros Hin. apply Hk. right. exact Hin.
  - intros d1 d2 H.
    destruct (Hr d1 d2 (fun k Hk => H k (or_intror Hk))) as [Hres Hdisk].
    split; [exact Hres|]. intros k [<-|Hk]; [|apply Hdisk, Hk].
    destruct (in_dec (fun x y : jsstring => decide (x = y)) q paths) as [Hin|Hout]; [apply Hdisk, Hin|].
    rewrite !Hw by exact Hout. apply H. left. reflexivity.
Qed.

Lemma confined_outputDir (q : jsstring) :
  In q (projectPaths cwd) ->
  dirname q = dirname (getStateDirPath cwd) ->
  (length q <= length (getStateDirPath cwd))%nat ->
  confined (projectPaths cwd) (ensureDir q).
Proof.
  intros Hin Hq Hlen. apply confined_mkdirFrom. intros k [<-|Hk]; [exact Hin|].
  right. right. exact (storePaths_above q Hq Hlen k Hk).
Qed.

Lemma confined_initCommand (strict : bool) (project : ProjectMetadata) :
  confined (projectPaths cwd) (initCommand strict project cwd).
Proof.
  assert (Hstore : forall (A : Type) (m : IO A),
             confined (storePaths cwd) m -> confined (projectPaths cwd) m)
    by (intros A m H; apply confined_more, confined_more, H).
  destruct (dirname_project cwd) as [Hdocs Hprompts].
  destruct outputDirs_short as [Ldocs Lprompts].
  unfold initCommand.
  apply confined_bind; [apply Hstore, confined_projectExists|]. intros b.
  apply confined_bind; [destruct b; [apply confined_throw|apply confined_ret]|]. intros _.
  apply confined_bind; [apply Hstore, confined_initializeProject|]. intros s.
  apply confined_bind;
    [apply confined_outputDir; [left; reflexivity|exact Hdocs|exact Ldocs]|]. intros _.
  apply confined_bind;
    [apply confined_outputDir; [right; left; reflexivity|exact Hprompts|exact Lprompts]|].
  intros _. destruct strict; [apply Hstore, confined_saveState|apply confined_ret].
Qed.

End StoreConfined.

(** X8. An operation of the store on the project of a directory is confined
    to the state file of the project and the directories above it
    ([storePaths]): it leaves every other path of the disk as it is, and what
    it returns and what it leaves at those paths depend on nothing else the
    disk holds. This holds of projectExists, loadState, saveState,
    initializeProject, updateState, recordCheckpointResponse and
    recordApproval. The init command is confined to those paths and the two
    output directories [docs] and [prompts] of the project. The state file
    is [.docforge/state.json] under the working directory, also when that is
    the root. *)
Theorem X8_store_confined_to_its_paths
    (now : jsstring) (cwd : jsstring) (s : DocForgeState) (project : ProjectMetadata)
    (updates : PartialState) (stepId : jsstring) (dis cla mis : option jsstring)
    (t : DocumentType) (content : jsstring) (strict : bool) :
  confined (storePaths cwd) (projectExists cwd) /\
  confined (storePaths cwd) (loadState cwd) /\
  confined (storePaths cwd) (saveState s cwd) /\
  confined (storePaths cwd) (initializeProject project cwd) /\
  confined (storePaths cwd) (updateState updates cwd) /\
  confined (storePaths cwd) (recordCheckpointResponse now stepId dis cla mis cwd) /\
  confined (storePaths cwd) (recordApproval now t content cwd) /\
  confined (projectPaths cwd) (initCommand strict project cwd) /\
  In (getStateFilePath cwd) (storePaths cwd) /\
  (forall k, In k (storePaths cwd) ->
     exists n : nat, k = Nat.iter n dirname (getStateFilePath cwd)) /\
  getStateFilePath (js "/") = js "/.docforge/state.json" /\
  getStateFilePath (js "/work/") = js "/work/.docforge/state.json" /\
  getStateFilePath (js "") = js ".docforge/state.json".
Proof.
  split; [apply confined_projectExists|].
  split; [apply confined_loadState|].
  split; [apply confined_saveState|].
  split; [apply confined_initializeProject|].
  split; [apply confined_loaded; intros s0; apply confined_saved|].
  split; [apply confined_loaded; intros s0; apply confined_saved|].
  split; [apply confined_loaded; intros s0; apply confined_saved|].
  split; [apply confined_initCommand|].
  split; [apply storePaths_stateFile|].
  split; [|repeat split; vm_compute; reflexivity].
  intros k [<-|Hk]; [exists 0%nat; reflexivity|].
  unfold storePaths, upTo in *.
  assert (H : forall f p, In k (ancestors f p) -> exists n, k = Nat.iter (S n) dirname p).
  { clear Hk. induction f as [|f IH]; intros p; [intros []|].
    cbn [ancestors]. intros [<-|Hin]; [exists 0%nat; reflexivity|].
    destruct (IH _ Hin) as [n ->]. exists (S n).
    clear. induction n as [|n IHn]; [reflexivity|].
    change (Nat.iter (S (S n)) dirname (dirname p))
      with (dirname (Nat.iter (S n) dirname (dirname p))).
    rewrite IHn. reflexivity. }
  destruct (H _ _ Hk) as [n ->]. exists (S n). reflexivity.
Qed.

(** On a disk that holds, beside the project, a document and a file of
    another directory, recording an approval leaves both as they are, and
    returns what it returns without them. *)
Lemma X8_store_confined_witness :
  let other : Disk :=
    <[js "/work/docs/RFC.md" := File (NotJson (js "# RFC"))]>
      (<[js "/elsewhere/.docforge/state.json" := File (NotJson (js "x"))]> demoDisk) in
  let m := recordApproval (js "2026-01-01T00:00:00.000Z") rfc (js "# RFC") demoCwd in
  snd (m other) !! js "/work/docs/RFC.md" = Some (File (NotJson (js "# RFC"))) /\
  snd (m other) !! js "/elsewhere/.docforge/state.json" = Some (File (NotJson (js "x"))) /\
  fst (m other) = fst (m demoDisk).
Proof.
  intros other m.
  pose proof (X8_store_confined_to_its_paths (js "2026-01-01T00:00:00.000Z") demoCwd
                demoState demoProject demoUpdates (js "") None None None rfc (js "# RFC")
                false) as H.
  destruct H as (_ & _ & _ & _ & _ & _ & [Hw Hr] & _).
  assert (Hout : forall k, In k (storePaths demoCwd) -> other !! k = demoDisk !! k).
  { intros k Hk. unfold other.
    rewrite !lookup_insert_ne; [reflexivity| |];
      intros <-; vm_compute in Hk; intuition discriminate. }
  split; [|split].
  - rewrite Hw by (vm_compute; intuition discriminate).
    unfold other. apply lookup_insert_eq.
  - rewrite Hw by (vm_compute; intuition discriminate).
    unfold other. rewrite lookup_insert_ne by discriminate. apply lookup_insert_eq.
  - exact (proj1 (Hr other demoDisk Hout)).
Defined.

(** X9. hasDocumentChanged on a document type without approval is true for
    every content: a document never approved always counts as changed. When
    it is false, the first approval of that type holds the raw hash of the
    content; and in a state with a consistent ledger it is false exactly when
    documentHashes holds the raw hash of the content for that type. *)
Theorem X9_hasDocumentChanged_edges
    (s : DocForgeState) (t : DocumentType) (content : jsstring) :
  (isDocumentApproved s t = false -> hasDocumentChanged s t content = true) /\
  (hasDocumentChanged s t content = false ->
   exists a, approvalFor t s = Some a /\ contentHash a = calculateHash content) /\
  (ledgerConsistent s ->
   (hasDocumentChanged s t content = false <->
    getHash (documentHashes s) t = Some (calculateHash content))).
Proof.
  assert (Hspec : hasDocumentChanged s t content
                  = match approvalFor t s with
                    | None => true
                    | Some a => negb (JsString.eqb (contentHash a) (calculateHash content))
                    end) by reflexivity.
  split; [|split].
  - intros H. rewrite Hspec.
    destruct (approvalFor t s) as [a|] eqn:E; [|reflexivity].
    assert (Ht : isDocumentApproved s t = true)
      by (apply isDocumentApproved_approvalFor; rewrite E; eauto).
    congruence.
  - rewrite Hspec. destruct (approvalFor t s) as [a|]; [|discriminate].
    intros H. apply negb_false_iff, bool_decide_eq_true in H. eauto.
  - intros [_ Hsync]. rewrite Hspec, (Hsync t).
    destruct (approvalFor t s) as [a|]; cbn.
    + rewrite negb_false_iff. unfold JsString.eqb. rewrite bool_decide_eq_true.
      split; congruence.
    + split; discriminate.
Qed.

Lemma X9_hasDocumentChanged_witness :
  isDocumentApproved demoState plan = false /\
  hasDocumentChanged demoState plan (js "anything") = true.
Proof.
  split; [reflexivity|].
  exact (proj1 (X9_hasDocumentChanged_edges demoState plan (js "anything")) eq_refl).
Defined.

(** ** The step graph: remaining steps, phases, progress *)

Section StepGraphMore.

Lemma stateAt_currentStep (s : StepId) (st : DocForgeState) :
  currentStep (stateAt s st) = s.
Proof. reflexivity. Qed.

Lemma getRemainingSteps_currentStep (st st' : DocForgeState) :
  currentStep st = currentStep st' -> getRemainingSteps st = getRemainingSteps st'.
Proof. unfold getRemainingSteps. intros ->. reflexivity. Qed.

Lemma getRemainingSteps_rank (st : DocForgeState) :
  getRemainingSteps st = 14 - Z.of_nat (rank (currentStep st)).
Proof.
  rewrite (getRemainingSteps_currentStep st (stateAt (currentStep st) st)) by reflexivity.
  destruct (currentStep st); vm_compute; reflexivity.
Qed.

Lemma follow_to_complete (s : StepId) : follow (14 - rank s) s = Some complete.
Proof. destruct s; reflexivity. Qed.

Lemma rank_le_14 (s : StepId) : (rank s <= 14)%nat.
Proof. destruct s; cbn; lia. Qed.

Lemma rank_injective (s s' : StepId) : rank s = rank s' -> s = s'.
Proof. destruct s, s'; cbn; intros H; try reflexivity; discriminate H. Qed.

(** A phase is complete exactly from its sentinel step on. *)
Lemma isPhaseComplete_rank (st : DocForgeState) (ph : DocumentType) :
  isPhaseComplete st ph = true <-> (rank (sentinel ph) <= rank (currentStep st))%nat.
Proof.
  rewrite isPhaseComplete_spec, orb_true_iff, Nat.ltb_lt, bool_decide_eq_true.
  destruct (currentStep st), ph; cbn; split; intros H;
    try lia; try (left; lia); try (right; reflexivity);
    destruct H as [H|H]; try lia; discriminate H.
Qed.

Lemma getProgressPercentage_currentStep (st st' : DocForgeState) :
  currentStep st = currentStep st' ->
  getProgressPercentage st = getProgressPercentage st'.
Proof. unfold getProgressPercentage. intros ->. reflexivity. Qed.

End StepGraphMore.

(** X10. getRemainingSteps counts the uses of getNextStep that lead from the
    current step to the step complete: it is between 0 and 14, following
    getNextStep that many times ends at complete, it is 0 at complete only,
    and it goes down by one with every advance. *)
Theorem X10_getRemainingSteps_counts_steps_to_complete (st : DocForgeState) :
  0 <= getRemainingSteps st <= 14 /\
  follow (Z.to_nat (getRemainingSteps st)) (currentStep st) = Some complete /\
  (getRemainingSteps st = 0 <-> currentStep st = complete) /\
  (forall s', getNextStep (currentStep st) = Some s' ->
     getRemainingSteps (stateAt s' st) = getRemainingSteps st - 1).
Proof.
  rewrite getRemainingSteps_rank. pose proof (rank_le_14 (currentStep st)) as Hle.
  split; [lia|]. split.
  { replace (Z.to_nat (14 - Z.of_nat (rank (currentStep st))))
      with (14 - rank (currentStep st))%nat by lia.
    apply follow_to_complete. }
  split.
  { split.
    - intros H. apply rank_injective. cbn. lia.
    - intros ->. reflexivity. }
  intros s' H. rewrite getRemainingSteps_rank, stateAt_currentStep.
  apply getNextStep_rank in H. lia.
Qed.

Lemma X10_getRemainingSteps_witness :
  getNextStep (currentStep demoState) = Some rfc_approach /\
  getRemainingSteps (stateAt rfc_approach demoState) = getRemainingSteps demoState - 1.
Proof.
  split; [reflexivity|].
  exact (proj2 (proj2 (proj2 (X10_getRemainingSteps_counts_steps_to_complete demoState)))
               rfc_approach eq_refl).
Defined.

(** X11. The phases follow each other in the order rfc, plan, rollout,
    prompts along getNextStep: the next step is in the same phase, unless the
    step is the [<phase>.complete] step of rfc, plan or rollout, and then it is
    the first step of the phase that follows. The checkpoints are exactly the
    steps of rfc, plan and rollout other than these [<phase>.complete] steps.
    getPhaseSteps of a phase lists the entries of exactly the steps of that
    phase, and the four lists one after the other are the table in order. *)
Theorem X11_phases_in_order (s : StepId) :
  (forall s', getNextStep s = Some s' ->
     ((exists t, s = sentinel t) /\
      phaseIndex (getPhase s') = S (phaseIndex (getPhase s)) /\
      s' = firstStepOf (getPhase s')) \/
     ((forall t, s <> sentinel t) /\ getPhase s' = getPhase s)) /\
  (isCheckpoint s = true <->
   getPhase s <> phase_prompts /\ forall t, s <> sentinel t) /\
  (forall p, In (STEPS s) (getPhaseSteps p) <-> getPhase s = p) /\
  map id (getPhaseSteps phase_rfc ++ getPhaseSteps phase_plan ++
          getPhaseSteps phase_rollout ++ getPhaseSteps phase_prompts) = STEPS_keys.
Proof.
  split; [|split; [|split]].
  - intros s' H. destruct s; cbn in H; try discriminate H; injection H as <-;
      first [ left; split; [|split; reflexivity];
              first [exists rfc; reflexivity | exists plan; reflexivity
                    | exists rollout; reflexivity]
            | right; split; [intros t; destruct t; discriminate|reflexivity] ].
  - destruct s; cbn; (split; [|]);
      first
        [ solve [intros _; split; [discriminate|intros t; destruct t; discriminate]]
        | solve [intros _; reflexivity]
        | solve [discriminate]
        | solve [intros [Hp _]; exfalso; apply Hp; reflexivity]
        | solve [intros [_ Hs]; exfalso;
                 first [apply (Hs rfc); reflexivity | apply (Hs plan); reflexivity
                       | apply (Hs rollout); reflexivity]] ].
  - intros p. destruct s, p; vm_compute; split; intros H; try reflexivity;
      try discriminate H; try tauto;
      repeat (destruct H as [H|H]; [discriminate H|]); try contradiction.
  - vm_compute. reflexivity.
Qed.

Lemma X11_phases_witness :
  getNextStep rfc_complete = Some plan_stages /\
  getPhase plan_stages <> getPhase rfc_complete /\
  plan_stages = firstStepOf (getPhase plan_stages).
Proof.
  split; [reflexivity|]. split; [discriminate|].
  destruct (proj1 (X11_phases_in_order rfc_complete) plan_stages eq_refl)
    as [(_ & _ & H)|[H _]]; [exact H|].
  exfalso. apply (H rfc). reflexivity.
Defined.

(** X12. A phase, once complete, stays complete: if isPhaseComplete holds at
    the current step, it holds at every step reached from it by getNextStep.
    Completion goes down the order of the phases: when rollout is complete so
    is plan, and when plan is complete so is rfc. From the step
    [<phase>.complete] of a phase on, that is at every step reached from it,
    the phase is complete, and at the step complete all three are. *)
Theorem X12_phase_completion_is_kept
    (st : DocForgeState) (ph : DocumentType) (n : nat) (s' : StepId) :
  (follow n (currentStep st) = Some s' ->
   isPhaseComplete st ph = true -> isPhaseComplete (stateAt s' st) ph = true) /\
  (isPhaseComplete st rollout = true -> isPhaseComplete st plan = true) /\
  (isPhaseComplete st plan = true -> isPhaseComplete st rfc = true) /\
  (follow n (sentinel ph) = Some s' -> isPhaseComplete (stateAt s' st) ph = true) /\
  isPhaseComplete (stateAt complete st) ph = true.
Proof.
  rewrite !isPhaseComplete_rank, !stateAt_currentStep.
  split; [|split; [|split; [|split]]].
  - intros H. apply follow_rank in H. lia.
  - cbn. lia.
  - cbn. lia.
  - intros H. apply follow_rank in H. lia.
  - destruct ph; cbn; lia.
Qed.

Lemma X12_phase_completion_witness :
  let st := stateAt plan_stages demoState in
  follow 5 (currentStep st) = Some rollout_procedures /\
  isPhaseComplete st rfc = true /\
  isPhaseComplete (stateAt rollout_procedures st) rfc = true.
Proof.
  intros st.
  assert (Hf : follow 5 (currentStep st) = Some rollout_procedures) by reflexivity.
  assert (Hc : isPhaseComplete st rfc = true) by (vm_compute; reflexivity).
  split; [exact Hf|]. split; [exact Hc|].
  exact (proj1 (X12_phase_completion_is_kept st rfc 5 rollout_procedures) Hf Hc).
Defined.

(** X13. getProgressPercentage, computed in floating point as the source does,
    is at every step the integer nearest to 100 times the position of the
    step divided by 14, as exact arithmetic gives it: 0 at rfc.problem, 100 at
    complete and there only, between 0 and 100 everywhere, and larger after
    every advance. *)
Theorem X13_getProgressPercentage_exact (st : DocForgeState) :
  getProgressPercentage st = Number_ofZ (exactPercentage (rank (currentStep st))) /\
  0 <= exactPercentage (rank (currentStep st)) <= 100 /\
  (exactPercentage (rank (currentStep st)) = 0 <-> currentStep st = rfc_problem) /\
  (exactPercentage (rank (currentStep st)) = 100 <-> currentStep st = complete) /\
  (forall s', getNextStep (currentStep st) = Some s' ->
     exactPercentage (rank (currentStep st)) < exactPercentage (rank s')).
Proof.
  rewrite (getProgressPercentage_currentStep st (stateAt (currentStep st) st))
    by reflexivity.
  split; [destruct (currentStep st); vm_compute; reflexivity|].
  split; [destruct (currentStep st); vm_compute; split; discriminate|].
  split; [destruct (currentStep st); vm_compute; split; congruence|].
  split; [destruct (currentStep st); vm_compute; split; congruence|].
  intros s' H. apply getNextStep_rank in H. rewrite H.
  destruct (currentStep st); vm_compute; reflexivity.
Qed.

Lemma X13_getProgressPercentage_witness :
  getNextStep (currentStep demoState) = Some rfc_approach /\
  getProgressPercentage demoState = Number_ofZ 7 /\
  getProgressPercentage (stateAt rfc_approach demoState) = Number_ofZ 14.
Proof.
  split; [reflexivity|].
  split.
  - exact (proj1 (X13_getProgressPercentage_exact demoState)).
  - exact (proj1 (X13_getProgressPercentage_exact (stateAt rfc_approach demoState))).
Defined.

(** ** The content hasher: what the normalized hash does not see *)

Section Normalization.

Lemma list_ind2 {A : Type} (P : list A -> Prop) :
  P [] -> (forall a, P [a]) -> (forall a b l, P l -> P (b :: l) -> P (a :: b :: l)) ->
  forall l, P l.
Proof.
  intros H0 H1 H2 l.
  assert (H : P l /\ forall a, P (a :: l)); [|exact (proj1 H)].
  induction l as [|b l [IH IH']]; [split; [exact H0|exact H1]|].
  split; [apply IH'|]. intros a. apply H2; [exact IH|apply IH'].
Qed.

Lemma replaceCRLF_pair (s : jsstring) :
  replaceCRLF (0x0D :: 0x0A :: s) = 0x0A :: replaceCRLF s.
Proof. reflexivity. Qed.

Lemma replaceCRLF_other (c : Z) (s : jsstring) :
  c <> 0x0D -> replaceCRLF (c :: s) = c :: replaceCRLF s.
Proof.
  intros H. cbn [replaceCRLF].
  destruct c as [|p|p]; try reflexivity.
  do 4 (destruct p as [p|p|]; try reflexivity). contradiction.
Qed.

Lemma replaceCRLF_lone (s : jsstring) :
  (forall s', s <> 0x0A :: s') -> replaceCRLF (0x0D :: s) = 0x0D :: replaceCRLF s.
Proof.
  intros H. destruct s as [|c s']; [reflexivity|].
  cbn [replaceCRLF].
  destruct c as [|p|p]; try reflexivity.
  do 4 (destruct p as [p|p|]; try reflexivity).
  exfalso. apply (H s'). reflexivity.
Qed.

(** The three ways the scan can go at a character. *)
Lemma replaceCRLF_cases (c : Z) (s : jsstring) :
  (c = 0x0D /\ exists s', s = 0x0A :: s' /\
                          replaceCRLF (c :: s) = 0x0A :: replaceCRLF s') \/
  replaceCRLF (c :: s) = c :: replaceCRLF s.
Proof.
  destruct (Z.eq_dec c 0x0D) as [->|Hc]; [|right; apply replaceCRLF_other, Hc].
  destruct s as [|b s']; [right; reflexivity|].
  destruct (Z.eq_dec b 0x0A) as [->|Hb].
  - left. split; [reflexivity|]. exists s'. split; reflexivity.
  - right. apply replaceCRLF_lone. intros s'' [= H _]. contradiction.
Qed.

Lemma replaceCRLF_cons2 (a b : Z) (s : jsstring) :
  (a = 0x0D /\ b = 0x0A) \/
  (~ (a = 0x0D /\ b = 0x0A) /\
   forall s', replaceCRLF (a :: b :: s') = a :: replaceCRLF (b :: s')).
Proof.
  destruct (Z.eq_dec a 0x0D) as [->|Ha].
  - destruct (Z.eq_dec b 0x0A) as [->|Hb]; [left; split; reflexivity|].
    right. split; [tauto|]. intros s'. apply replaceCRLF_lone.
    intros s'' [= H _]. contradiction.
  - right. split; [tauto|]. intros s'. apply replaceCRLF_other, Ha.
Qed.

Lemma replaceCRLF_toCRLF (x : jsstring) : replaceCRLF (toCRLF x) = x.
Proof.
  induction x as [|c x IH]; [reflexivity|]. cbn [toCRLF].
  destruct (Z.eqb_spec c 0x0A) as [->|Hc].
  - rewrite replaceCRLF_pair, IH. reflexivity.
  - destruct (Z.eq_dec c 0x0D) as [->|Hd].
    + rewrite replaceCRLF_lone, IH; [reflexivity|].
      intros s' H. destruct x as [|b x']; [discriminate H|].
      cbn [toCRLF] in H. destruct (Z.eqb_spec b 0x0A); injection H as H _; lia.
    + rewrite replaceCRLF_other, IH by exact Hd. reflexivity.
Qed.

Lemma replaceCRLF_without_CR (x : jsstring) : ~ In 0x0D x -> replaceCRLF x = x.
Proof.
  induction x as [|c x IH]; [reflexivity|]. intros H.
  rewrite replaceCRLF_other, IH; [reflexivity| |]; intros Hc; apply H; cbn; tauto.
Qed.

Lemma allWhiteSpace_cons (c : Z) (w : jsstring) :
  allWhiteSpace (c :: w) <-> isWhiteSpace c = true /\ allWhiteSpace w.
Proof. unfold allWhiteSpace. cbn. apply andb_true_iff. Qed.

Lemma allWhiteSpace_app (v w : jsstring) :
  allWhiteSpace (v ++ w) <-> allWhiteSpace v /\ allWhiteSpace w.
Proof.
  unfold allWhiteSpace. rewrite forallb_app. apply andb_true_iff.
Qed.

Lemma allWhiteSpace_rev (w : jsstring) : allWhiteSpace w -> allWhiteSpace (rev w).
Proof.
  unfold allWhiteSpace. rewrite !forallb_forall. intros H c Hc.
  apply H, in_rev, Hc.
Qed.

Lemma allWhiteSpace_replaceCRLF (w : jsstring) :
  allWhiteSpace w -> allWhiteSpace (replaceCRLF w).
Proof.
  induction w as [| |a b l IHl IHbl] using list_ind2; intros H.
  - exact H.
  - destruct (replaceCRLF_cases a []) as [(_ & s' & Hs & _)| ->]; [discriminate Hs|exact H].
  - destruct (replaceCRLF_cases a (b :: l)) as [(_ & s' & Hs & ->)| ->].
    + injection Hs as -> <-. apply allWhiteSpace_cons in H as [_ H].
      apply allWhiteSpace_cons in H as [Hb H].
      apply allWhiteSpace_cons. split; [exact Hb|apply IHl, H].
    + apply allWhiteSpace_cons in H as [Ha H].
      apply allWhiteSpace_cons. split; [exact Ha|apply IHbl, H].
Qed.

(** White space before a text only adds white space before its image. *)
Lemma replaceCRLF_after_whiteSpace (w x : jsstring) :
  allWhiteSpace w -> exists v, allWhiteSpace v /\ replaceCRLF (w ++ x) = v ++ replaceCRLF x.
Proof.
  induction w as [| |a b l IHl IHbl] using list_ind2; intros H.
  - exists []. split; reflexivity.
  - cbn [app]. apply allWhiteSpace_cons in H as [Ha _].
    destruct (replaceCRLF_cases a x) as [(-> & s' & -> & ->)| ->].
    + exists []. split; [reflexivity|]. cbn [app].
      rewrite replaceCRLF_other by discriminate. reflexivity.
    + exists [a]. split; [|reflexivity]. apply allWhiteSpace_cons. split; [exact Ha|reflexivity].
  - cbn [app]. apply allWhiteSpace_cons in H as [Ha H].
    destruct (replaceCRLF_cases a (b :: l ++ x)) as [(_ & s' & Hs & ->)| ->].
    + injection Hs as -> <-. apply allWhiteSpace_cons in H as [Hb H].
      destruct (IHl H) as (v & Hv & ->).
      exists (0x0A :: v). split; [|reflexivity].
      apply allWhiteSpace_cons. split; [reflexivity|exact Hv].
    + destruct (IHbl H) as (v & Hv & Heq). cbn [app] in Heq. rewrite Heq.
      exists (a :: v). split; [|reflexivity].
      apply allWhiteSpace_cons. split; [exact Ha|exact Hv].
Qed.

(** White space after a text changes its image at most in the white space
    that ends it. *)
Lemma replaceCRLF_before_whiteSpace (x w : jsstring) :
  allWhiteSpace w ->
  exists y v v0, allWhiteSpace v /\ allWhiteSpace v0 /\
                 replaceCRLF (x ++ w) = y ++ v /\ replaceCRLF x = y ++ v0.
Proof.
  intros H. induction x as [| |a b l IHl IHbl] using list_ind2.
  - exists [], (replaceCRLF w), []. cbn [app].
    split; [apply allWhiteSpace_replaceCRLF, H|]. repeat split.
  - cbn [app].
    destruct (replaceCRLF_cases a w) as [(-> & s' & -> & ->)| ->].
    + exists [], (0x0A :: replaceCRLF s'), [0x0D]. cbn [app].
      apply allWhiteSpace_cons in H as [_ H].
      split; [apply allWhiteSpace_cons; split;
              [reflexivity|apply allWhiteSpace_replaceCRLF, H]|].
      repeat split.
    + exists [a], (replaceCRLF w), []. cbn [app].
      split; [apply allWhiteSpace_replaceCRLF, H|]. split; [reflexivity|].
      split; [reflexivity|].
      destruct (replaceCRLF_cases a []) as [(_ & s' & Hs & _)| ->];
        [discriminate Hs|reflexivity].
  - cbn [app].
    destruct (replaceCRLF_cons2 a b l) as [[-> ->]|[_ Heq2]].
    + rewrite !replaceCRLF_pair.
      destruct IHl as (y & v & v0 & Hv & Hv0 & -> & ->).
      exists (0x0A :: y), v, v0. repeat split; assumption.
    + rewrite !Heq2.
      destruct IHbl as (y & v & v0 & Hv & Hv0 & Heq & Heq0).
      cbn [app] in Heq. rewrite Heq, Heq0.
      exists (a :: y), v, v0. repeat split; assumption.
Qed.

Lemma trimStart_whiteSpace (v z : jsstring) :
  allWhiteSpace v -> trimStart (v ++ z) = trimStart z.
Proof.
  induction v as [|c v IH]; intros H; [reflexivity|].
  apply allWhiteSpace_cons in H as [Hc H]. cbn. rewrite Hc. apply IH, H.
Qed.

Lemma trimStart_nil_whiteSpace (y : jsstring) : trimStart y = [] -> allWhiteSpace y.
Proof.
  induction y as [|c y IH]; [reflexivity|]. cbn.
  destruct (isWhiteSpace c) eqn:E; [|discriminate].
  intros H. apply allWhiteSpace_cons. split; [exact E|apply IH, H].
Qed.

Lemma trimStart_app (y v : jsstring) :
  trimStart y <> [] -> trimStart (y ++ v) = trimStart y ++ v.
Proof.
  induction y as [|c y IH]; [intros H; contradiction|]. cbn.
  destruct (isWhiteSpace c); [exact IH|reflexivity].
Qed.

Lemma trimEnd_whiteSpace (z v : jsstring) :
  allWhiteSpace v -> trimEnd (z ++ v) = trimEnd z.
Proof.
  intros H. unfold trimEnd. rewrite rev_app_distr.
  rewrite trimStart_whiteSpace by (apply allWhiteSpace_rev, H). reflexivity.
Qed.

Lemma trimEnd_all_whiteSpace (v : jsstring) : allWhiteSpace v -> trimEnd v = [].
Proof.
  intros H. rewrite <- (app_nil_l v), trimEnd_whiteSpace by exact H. reflexivity.
Qed.

Lemma trim_whiteSpace_after (y v : jsstring) :
  allWhiteSpace v -> trim (y ++ v) = trim y.
Proof.
  intros H. unfold trim.
  destruct (trimStart y) as [|c t] eqn:E.
  - assert (Hy : allWhiteSpace y) by apply trimStart_nil_whiteSpace, E.
    rewrite trimStart_whiteSpace by exact Hy.
    destruct (trimStart v) as [|c' t'] eqn:Ev; [reflexivity|].
    apply trimEnd_all_whiteSpace.
    (* what trimStart leaves of white space is white space *)
    clear -H Ev. revert c' t' Ev.
    induction v as [|a v IH]; intros c' t' Ev; [discriminate Ev|].
    apply allWhiteSpace_cons in H as [Ha H]. cbn in Ev. rewrite Ha in Ev.
    apply (IH H c' t' Ev).
  - rewrite trimStart_app by (rewrite E; discriminate).
    rewrite E. apply trimEnd_whiteSpace, H.
Qed.

Lemma trim_whiteSpace_before (v z : jsstring) :
  allWhiteSpace v -> trim (v ++ z) = trim z.
Proof. intros H. unfold trim. rewrite trimStart_whiteSpace by exact H. reflexivity. Qed.

End Normalization.

(** X14. Turning the LF line endings of a text into CR LF and replacing CR LF
    by LF again gives the text back, whatever the text. So for a text with no
    CR in it, the text with CR LF line endings has the same content hash, and
    contentEquals holds between the two. *)
Theorem X14_content_hash_ignores_CRLF (x : jsstring) :
  replaceCRLF (toCRLF x) = x /\
  (~ In 0x0D x ->
   calculateContentHash (toCRLF x) = calculateContentHash x /\
   contentEquals (toCRLF x) x = true).
Proof.
  split; [apply replaceCRLF_toCRLF|]. intros H.
  assert (Heq : calculateContentHash (toCRLF x) = calculateContentHash x).
  { unfold calculateContentHash.
    rewrite replaceCRLF_toCRLF, (replaceCRLF_without_CR x H). reflexivity. }
  split; [exact Heq|].
  unfold contentEquals, JsString.eqb. rewrite Heq. apply bool_decide_eq_true_2. reflexivity.
Qed.

Lemma X14_content_hash_witness :
  let unix := js "# RFC" ++ [0x0A] ++ js "## Goals" ++ [0x0A] in
  let windows := js "# RFC" ++ [0x0D; 0x0A] ++ js "## Goals" ++ [0x0D; 0x0A] in
  ~ In 0x0D unix /\ toCRLF unix = windows /\ contentEquals windows unix = true.
Proof.
  intros unix windows.
  assert (H : ~ In 0x0D unix).
  { vm_compute. intros H. repeat (destruct H as [H|H]; [discriminate H|]). exact H. }
  split; [exact H|]. split; [reflexivity|].
  exact (proj2 (proj2 (X14_content_hash_ignores_CRLF unix) H)).
Defined.

(** X15. The content hash does not see white space around a text: for every
    text and every two runs of white space and line terminators, the text
    with the runs before and after it has the content hash of the text alone,
    and contentEquals holds between them. This is so also where a CR that
    ends a run meets an LF that starts the text, or the other way round. *)
Theorem X15_content_hash_ignores_surrounding_whiteSpace (w1 x w2 : jsstring) :
  allWhiteSpace w1 -> allWhiteSpace w2 ->
  calculateContentHash (w1 ++ x ++ w2) = calculateContentHash x /\
  contentEquals (w1 ++ x ++ w2) x = true.
Proof.
  intros H1 H2.
  assert (Heq : calculateContentHash (w1 ++ x ++ w2) = calculateContentHash x).
  { unfold calculateContentHash. f_equal.
    destruct (replaceCRLF_after_whiteSpace w1 (x ++ w2) H1) as (v1 & Hv1 & ->).
    destruct (replaceCRLF_before_whiteSpace x w2 H2) as (y & v & v0 & Hv & Hv0 & -> & ->).
    rewrite trim_whiteSpace_before by exact Hv1.
    rewrite !trim_whiteSpace_after by assumption. reflexivity. }
  split; [exact Heq|].
  unfold contentEquals, JsString.eqb. rewrite Heq. apply bool_decide_eq_true_2. reflexivity.
Qed.

Lemma X15_content_hash_witness :
  allWhiteSpace (js "  " ++ [0x0D]) /\ allWhiteSpace [0x0D; 0x0A; 0x0A] /\
  contentEquals ((js "  " ++ [0x0D]) ++ ([0x0A] ++ js "text") ++ [0x0D; 0x0A; 0x0A])
                ([0x0A] ++ js "text") = true.
Proof.
  assert (H1 : allWhiteSpace (js "  " ++ [0x0D])) by reflexivity.
  assert (H2 : allWhiteSpace [0x0D; 0x0A; 0x0A]) by reflexivity.
  split; [exact H1|]. split; [exact H2|].
  exact (proj2 (X15_content_hash_ignores_surrounding_whiteSpace
                  (js "  " ++ [0x0D]) ([0x0A] ++ js "text") [0x0D; 0x0A; 0x0A] H1 H2)).
Defined.

(** ** The document validator: more text, no headings, no text *)

Section Matching.

Lemma star_extendsTo (y : jsstring) (a : Atom) (k k' : option Z -> jsstring -> bool) :
  extendsTo y k k' -> extendsTo y (star a k) (star a k').
Proof.
  intros Hk p s. revert p.
  induction s as [|c s IH]; intros p; cbn [star].
  - destruct (k p []) eqn:E; [|discriminate]. intros _.
    apply Hk in E. cbn [app] in E |- *.
    destruct y as [|c y]; cbn [star]; rewrite E; reflexivity.
  - destruct (k p (c :: s)) eqn:E.
    + intros _. apply Hk in E. cbn [app star] in *. rewrite E. reflexivity.
    + destruct (atomMatches a c) eqn:Ea; [|discriminate]. intros H.
      cbn [app star]. rewrite Ea, (IH _ H).
      destruct (k' p (c :: s ++ y)); reflexivity.
Qed.

Lemma matchAt_extendsTo (y : jsstring) (r : RegExp) :
  forall k k', extendsTo y k k' -> extendsTo y (matchAt r k) (matchAt r k').
Proof.
  induction r as [| |a|a|r1 IH1 r2 IH2|r IH]; intros k k' Hk; cbn [matchAt].
  - exact Hk.
  - intros p s. destruct (atLineStart p); [apply Hk|discriminate].
  - intros p [|c s]; [discriminate|]. cbn [app].
    destruct (atomMatches a c); [apply Hk|discriminate].
  - apply star_extendsTo, Hk.
  - apply IH1, IH2, Hk.
  - intros p s. destruct (matchAt r k p s) eqn:E.
    + intros _. rewrite (IH k k' Hk p s E). reflexivity.
    + intros H. rewrite (Hk p s H). destruct (matchAt r k' p (s ++ y)); reflexivity.
Qed.

Lemma searchFrom_app (r : RegExp) (y s : jsstring) :
  forall p, searchFrom r p s = true -> searchFrom r p (s ++ y) = true.
Proof.
  assert (Ht : extendsTo y (fun _ _ => true) (fun _ _ => true))
    by (intros q u _; reflexivity).
  induction s as [|c s IH]; intros p; cbn [searchFrom].
  - destruct (matchAt r (fun _ _ => true) p []) eqn:E; [|discriminate]. intros _.
    apply (matchAt_extendsTo y r _ _ Ht) in E. cbn [app] in E |- *.
    destruct y as [|c y]; cbn [searchFrom]; rewrite E; reflexivity.
  - destruct (matchAt r (fun _ _ => true) p (c :: s)) eqn:E.
    + intros _. apply (matchAt_extendsTo y r _ _ Ht) in E.
      cbn [app searchFrom] in *. rewrite E. reflexivity.
    + intros H. cbn [app searchFrom]. rewrite (IH _ H).
      destruct (matchAt r (fun _ _ => true) p (c :: s ++ y)); reflexivity.
Qed.

Lemma star_lineBlind (a : Atom) (k : option Z -> jsstring -> bool) :
  lineBlind k -> lineBlind (star a k).
Proof.
  intros Hk p q s Hpq. destruct s as [|c s]; cbn [star]; rewrite (Hk p q _ Hpq); reflexivity.
Qed.

Lemma matchAt_lineBlind (r : RegExp) :
  forall k, lineBlind k -> lineBlind (matchAt r k).
Proof.
  induction r as [| |a|a|r1 IH1 r2 IH2|r IH]; intros k Hk; cbn [matchAt].
  - exact Hk.
  - intros p q s Hpq. rewrite Hpq, (Hk p q s Hpq). reflexivity.
  - intros p q s _. reflexivity.
  - apply star_lineBlind, Hk.
  - apply IH1, IH2, Hk.
  - intros p q s Hpq. rewrite (IH k Hk p q s Hpq), (Hk p q s Hpq). reflexivity.
Qed.

Lemma searchFrom_lineBlind (r : RegExp) : lineBlind (searchFrom r).
Proof.
  intros p q s Hpq.
  assert (Ht : lineBlind (fun _ _ => true)) by (intros ? ? ? _; reflexivity).
  destruct s as [|c s]; cbn [searchFrom];
    rewrite (matchAt_lineBlind r _ Ht p q _ Hpq); reflexivity.
Qed.

Lemma searchFrom_after (r : RegExp) (pre s : jsstring) :
  forall p, searchFrom r (from_option Some p (last pre)) s = true ->
            searchFrom r p (pre ++ s) = true.
Proof.
  induction pre as [|c pre IH]; intros p H; [exact H|].
  cbn [app searchFrom]. rewrite (IH (Some c)).
  - destruct (matchAt r (fun _ _ => true) p (c :: pre ++ s)); reflexivity.
  - destruct pre as [|c' pre]; [exact H|].
    rewrite last_cons_cons in H.
    destruct (last (c' :: pre)) eqn:E; [exact H|].
    apply last_None in E. discriminate E.
Qed.

(** A match in a text is a match in the text with whole lines before it and
    anything after it. *)
Lemma test_embedded (r : RegExp) (pre x post : jsstring) :
  atLineStart (last pre) = true ->
  test r x = true -> test r (pre ++ x ++ post) = true.
Proof.
  intros Hpre H. unfold test in *. apply searchFrom_after, searchFrom_app.
  rewrite <- H. apply searchFrom_lineBlind.
  destruct (last pre); [exact Hpre|reflexivity].
Qed.

Lemma matchAt_weaken (r : RegExp) :
  forall (k k' : option Z -> jsstring -> bool) p s,
    (forall p s, k p s = true -> k' p s = true) ->
    matchAt r k p s = true -> matchAt r k' p s = true.
Proof.
  intros k k' p s Hk H.
  apply (matchAt_extendsTo [] r k k') in H.
  - rewrite app_nil_r in H. exact H.
  - intros q u Hq. rewrite app_nil_r. apply Hk, Hq.
Qed.

Lemma searchFrom_weaken (r r' : RegExp) (s : jsstring) :
  (forall p u, matchAt r (fun _ _ => true) p u = true ->
               matchAt r' (fun _ _ => true) p u = true) ->
  forall p, searchFrom r p s = true -> searchFrom r' p s = true.
Proof.
  intros Hr. induction s as [|c s IH]; intros p; cbn [searchFrom].
  - destruct (matchAt r (fun _ _ => true) p []) eqn:E; [|discriminate].
    rewrite (Hr _ _ E). reflexivity.
  - destruct (matchAt r (fun _ _ => true) p (c :: s)) eqn:E.
    + rewrite (Hr _ _ E). reflexivity.
    + intros H. rewrite (IH _ H).
      destruct (matchAt r' (fun _ _ => true) p (c :: s)); reflexivity.
Qed.

(** A pattern that starts with [^##] matches only where a line starts with
    "##". *)
Lemma heading_pattern_needs_heading (rest : list RegExp) (content : jsstring) :
  test (seqOf (LineStart :: lit "##" :: rest)) content = true ->
  hasLevel2Heading content = true.
Proof.
  unfold hasLevel2Heading, test. apply searchFrom_weaken. intros p u.
  change (matchAt LineStart
            (matchAt (lit "##") (matchAt (seqOf rest) (fun _ _ => true))) p u = true ->
          matchAt LineStart
            (matchAt (lit "##") (matchAt Empty (fun _ _ => true))) p u = true).
  apply matchAt_weaken. intros q v. apply matchAt_weaken. intros; reflexivity.
Qed.

End Matching.

Section ValidatorMore.

Lemma warnings_In_iff (t : DocumentType) (content w : jsstring) :
  In w (warnings (validateDocumentByType t content)) <->
  exists sec, In sec (sectionsOf t) /\ warningFor sec = w /\
              required sec = false /\ test (pattern sec) content = false.
Proof.
  rewrite validateDocumentByType_sections, validateDocument_spec. cbn.
  rewrite in_map_iff. split.
  - intros (sec & Hw & Hin). apply List.filter_In in Hin as [Hin Hm].
    apply optionalMissing_true in Hm. exists sec. tauto.
  - intros (sec & Hin & Hw & Hm). exists sec. split; [exact Hw|].
    apply List.filter_In. split; [exact Hin|]. apply optionalMissing_true. exact Hm.
Qed.

Lemma valid_true (t : DocumentType) (content : jsstring) :
  valid (validateDocumentByType t content) = true <->
  missingSections (validateDocumentByType t content) = [].
Proof.
  rewrite validateDocumentByType_sections. unfold validateDocument.
  destruct (fold_left (checkSection content) (sectionsOf t) ([], [])) as [m w]. cbn.
  destruct m; cbn; split; congruence.
Qed.

Lemma missingSections_sublist (t : DocumentType) (content : jsstring) :
  sublist (missingSections (validateDocumentByType t content)) (requiredNames t).
Proof.
  rewrite validateDocumentByType_sections, validateDocument_spec. cbn.
  unfold requiredNames, requiredMissing.
  induction (sectionsOf t) as [|sec secs IH]; cbn; [constructor|].
  destruct (required sec); cbn; [|exact IH].
  destruct (missingIn content sec); cbn; [apply sublist_skip|apply sublist_cons]; exact IH.
Qed.

Lemma requiredNames_NoDup (t : DocumentType) : List.NoDup (requiredNames t).
Proof.
  destruct t; vm_compute;
    repeat (constructor; [cbn; intuition discriminate|]); constructor.
Qed.

Lemma all_missing (content : jsstring) (secs : list SectionRequirement) :
  (forall sec, In sec secs -> test (pattern sec) content = false) ->
  validateDocument content secs
  = {| valid := forallb (fun sec => negb (required sec)) secs;
       missingSections := map name (List.filter required secs);
       warnings := map warningFor (List.filter (fun sec => negb (required sec)) secs) |}.
Proof.
  intros H. rewrite validateDocument_spec.
  assert (Hr : forall sec, In sec secs -> requiredMissing content sec = required sec).
  { intros sec Hin. unfold requiredMissing, missingIn. rewrite (H sec Hin).
    apply andb_true_r. }
  assert (Ho : forall sec, In sec secs ->
                 optionalMissing content sec = negb (required sec)).
  { intros sec Hin. unfold optionalMissing, missingIn. rewrite (H sec Hin).
    apply andb_true_r. }
  f_equal.
  - clear Ho. induction secs as [|sec secs IH]; [reflexivity|]. cbn.
    rewrite (Hr sec) by (left; reflexivity).
    rewrite IH; [reflexivity| |]; intros; [apply H|apply Hr]; right; assumption.
  - f_equal. apply List.filter_ext_in. exact Hr.
  - f_equal. apply List.filter_ext_in. exact Ho.
Qed.

Lemma rfc_patterns_are_headings (sec : SectionRequirement) :
  In sec RFC_SECTIONS ->
  exists rest, pattern sec = seqOf (LineStart :: lit "##" :: rest).
Proof.
  cbn [RFC_SECTIONS In]. intros H.
  repeat (destruct H as [<-|H]; [eexists; reflexivity|]). contradiction.
Qed.

End ValidatorMore.

(** X16. Text added around a document never hides a section. For every
    document type, a section whose pattern matches in a text still matches
    when whole lines are put before the text and anything after it: the
    missing sections and the warnings of the larger text are among those of
    the text, and if the text is valid so is the larger text. *)
Theorem X16_validation_survives_added_text
    (t : DocumentType) (pre x post : jsstring) :
  atLineStart (last pre) = true ->
  (forall n, In n (missingSections (validateDocumentByType t (pre ++ x ++ post))) ->
             In n (missingSections (validateDocumentByType t x))) /\
  (forall w, In w (warnings (validateDocumentByType t (pre ++ x ++ post))) ->
             In w (warnings (validateDocumentByType t x))) /\
  (valid (validateDocumentByType t x) = true ->
   valid (validateDocumentByType t (pre ++ x ++ post)) = true).
Proof.
  intros Hpre.
  assert (Hkeep : forall sec, test (pattern sec) (pre ++ x ++ post) = false ->
                              test (pattern sec) x = false).
  { intros sec H. destruct (test (pattern sec) x) eqn:E; [|reflexivity].
    rewrite (test_embedded _ pre x post Hpre E) in H. discriminate H. }
  assert (Hm : forall n,
             In n (missingSections (validateDocumentByType t (pre ++ x ++ post))) ->
             In n (missingSections (validateDocumentByType t x))).
  { intros n. rewrite !missingSections_In.
    intros (sec & Hin & Hn & Hr & Ht). exists sec. auto. }
  split; [exact Hm|]. split.
  - intros w. rewrite !warnings_In_iff.
    intros (sec & Hin & Hn & Hr & Ht). exists sec. auto.
  - rewrite !valid_true. intros Hx.
    destruct (missingSections (validateDocumentByType t (pre ++ x ++ post)))
      as [|n l] eqn:E; [reflexivity|].
    exfalso. specialize (Hm n). rewrite Hx in Hm. apply Hm. left. reflexivity.
Qed.

Lemma X16_validation_witness :
  let pre := js "<!-- draft -->" ++ [0x0A] in
  let post := js "## Appendix" ++ [0x0A] in
  atLineStart (last pre) = true /\
  In (js "Goals") (missingSections (validateDocumentByType rfc rfcWithoutGoals)) /\
  (forall n, In n (missingSections
                     (validateDocumentByType rfc (pre ++ rfcWithoutGoals ++ post))) ->
             n = js "Goals").
Proof.
  intros pre post.
  assert (Hpre : atLineStart (last pre) = true) by reflexivity.
  split; [exact Hpre|]. split; [vm_compute; tauto|].
  intros n Hn.
  apply (proj1 (X16_validation_survives_added_text rfc pre rfcWithoutGoals post Hpre)) in Hn.
  vm_compute in Hn. destruct Hn as [Hn|[]]. symmetry. exact Hn.
Defined.

(** X17. The result of validate is well formed. It is valid exactly when
    missingSections is empty; missingSections lists names of required sections
    of the type's table only, each at most once and in the order of the table,
    so there are never more than the table has required sections; and a plan
    or a rollout never gets a warning, since their tables have no optional
    section. *)
Theorem X17_validation_result_shape (t : DocumentType) (content : jsstring) :
  (valid (validateDocumentByType t content) = true <->
   missingSections (validateDocumentByType t content) = []) /\
  sublist (missingSections (validateDocumentByType t content)) (requiredNames t) /\
  List.NoDup (missingSections (validateDocumentByType t content)) /\
  (length (missingSections (validateDocumentByType t content))
   <= length (requiredNames t))%nat /\
  (t <> rfc -> warnings (validateDocumentByType t content) = []).
Proof.
  split; [apply valid_true|].
  pose proof (missingSections_sublist t content) as Hsub.
  split; [exact Hsub|]. split.
  { apply NoDup_ListNoDup. refine (sublist_NoDup _ _ _ Hsub).
    apply NoDup_ListNoDup, requiredNames_NoDup. }
  split; [apply sublist_length, Hsub|].
  intros Ht.
  destruct (warnings (validateDocumentByType t content)) as [|w l] eqn:E; [reflexivity|].
  exfalso.
  assert (Hw : In w (warnings (validateDocumentByType t content)))
    by (rewrite E; left; reflexivity).
  apply warnings_In_iff in Hw as (sec & Hin & _ & Hr & _).
  destruct t; [contradiction| |]; cbn in Hin;
    repeat (destruct Hin as [<-|Hin]; [discriminate Hr|]); contradiction.
Qed.

Lemma X17_validation_result_witness :
  plan <> rfc /\ warnings (validateDocumentByType plan (js "no plan here")) = [].
Proof.
  assert (H : plan <> rfc) by discriminate.
  split; [exact H|].
  exact (proj2 (proj2 (proj2 (proj2
           (X17_validation_result_shape plan (js "no plan here"))))) H).
Defined.

(** X18. A text without a line that starts with "##" is no RFC: validateRfc
    finds it invalid with all six required sections missing, in table order,
    and warns of both optional ones. The empty text is such a text, and for
    every document type the empty text is invalid with every required section
    of the type missing. *)
Theorem X18_no_heading_no_sections (t : DocumentType) (content : jsstring) :
  (hasLevel2Heading content = false ->
   validateRfc content
   = {| valid := false;
        missingSections := requiredNames rfc;
        warnings := [js "Optional section missing: Open Questions";
                     js "Optional section missing: Assumptions"] |}) /\
  hasLevel2Heading [] = false /\
  valid (validateDocumentByType t []) = false /\
  missingSections (validateDocumentByType t []) = requiredNames t.
Proof.
  split; [|split; [reflexivity|destruct t; vm_compute; split; reflexivity]].
  intros H. unfold validateRfc. rewrite all_missing; [reflexivity|].
  intros sec Hin. destruct (rfc_patterns_are_headings sec Hin) as [rest ->].
  destruct (test (seqOf (LineStart :: lit "##" :: rest)) content) eqn:E; [|reflexivity].
  apply heading_pattern_needs_heading in E. congruence.
Qed.

Lemma X18_no_heading_witness :
  let text := js "# Goals" ++ [0x0A] ++ js "Problem: slow builds" ++ [0x0A] ++
              js " ## Approach" in
  hasLevel2Heading text = false /\
  valid (validateRfc text) = false /\
  length (missingSections (validateRfc text)) = 6%nat.
Proof.
  intros text.
  assert (H : hasLevel2Heading text = false) by (vm_compute; reflexivity).
  split; [exact H|].
  rewrite (proj1 (X18_no_heading_no_sections rfc text) H).
  split; reflexivity.
Defined.

(** ** The approve command: one document *)

Section ApproveProperties.

Variable render : DocumentType -> DocForgeState -> jsstring.
Variable asFile : jsstring -> FileText.

Lemma getDocPath_not_state (t : DocumentType) (cwd : jsstring) :
  getDocPath t cwd <> getStateFilePath cwd.
Proof. apply project_paths_apart. Qed.

(** Writing a document leaves the state file as it is, also where it makes
    the directory of the documents. *)
Lemma made_docsDir_state (cwd : jsstring) (d : Disk) :
  made (getDocsDir cwd) d !! getStateFilePath cwd = d !! getStateFilePath cwd.
Proof. apply made_longer, (project_paths_apart cwd rfc). Qed.

Lemma writeDocument_state (content : FileText) (t : DocumentType) (cwd : jsstring)
    (d : Disk) :
  <[getDocPath t cwd := File content]> (made (getDocsDir cwd) d) !! getStateFilePath cwd
  = d !! getStateFilePath cwd.
Proof.
  rewrite lookup_insert_ne by apply getDocPath_not_state. apply made_docsDir_state.
Qed.

(** Is the document long enough to count as generated? *)
Lemma approveDocument_skip (now : jsstring) (state : DocForgeState)
    (t : DocumentType) (force : bool) (cwd : jsstring) (d : Disk) :
  (length (trim (render t state)) < 50)%nat ->
  approveDocument render asFile now state t force cwd d = (Ok tt, d).
Proof.
  intros H. unfold approveDocument.
  rewrite (proj2 (Nat.ltb_lt _ _) H), orb_true_r. reflexivity.
Qed.

Lemma approveDocument_long (now : jsstring) (state : DocForgeState)
    (t : DocumentType) (force : bool) (cwd : jsstring) :
  (50 <= length (trim (render t state)))%nat ->
  approveDocument render asFile now state t force cwd
  = let content := render t state in
    if negb (valid (validateDocumentByType t content))
       && (negb (passes (strictModeCheck state t content)) && negb force)
    then ret tt
    else
      await_ writeFileSafe asFile (getDocPath t cwd) content;
      await_ recordApproval now t content cwd;
      ret tt.
Proof.
  intros H. unfold approveDocument.
  assert (Hne : JsString.eqb (render t state) [] = false).
  { apply bool_decide_eq_false. intros E. rewrite E in H. cbn in H. lia. }
  rewrite Hne, (proj2 (Nat.ltb_ge _ _) H). reflexivity.
Qed.

End ApproveProperties.

(** X19. approveDocument writes nothing, and returns normally, in two cases:
    when the rendered document is shorter than 50 characters once trimmed,
    whatever the force option; and when strict mode is on, the document is not
    valid and force is not given. In both the disk, approvals included, is as
    before. *)
Theorem X19_approveDocument_blocked
    (render : DocumentType -> DocForgeState -> jsstring) (asFile : jsstring -> FileText)
    (now : jsstring) (state : DocForgeState) (t : DocumentType) (force : bool)
    (cwd : jsstring) (d : Disk) :
  ((length (trim (render t state)) < 50)%nat ->
   approveDocument render asFile now state t force cwd d = (Ok tt, d)) /\
  (strictMode state = true ->
   valid (validateDocumentByType t (render t state)) = false ->
   force = false ->
   approveDocument render asFile now state t force cwd d = (Ok tt, d)).
Proof.
  split; [apply approveDocument_skip|].
  intros Hs Hv ->.
  destruct (Nat.lt_ge_cases (length (trim (render t state))) 50) as [Hlt|Hge];
    [apply approveDocument_skip, Hlt|].
  rewrite (approveDocument_long render asFile now state t false cwd Hge). cbn zeta.
  unfold strictModeCheck. rewrite Hs, Hv. reflexivity.
Qed.

Lemma X19_approveDocument_blocked_witness :
  let strictState := set_strictMode true demoState in
  strictMode strictState = true /\
  valid (validateDocumentByType rfc (demoRender rfc strictState)) = false /\
  approveDocument demoRender NotJson (js "t1") strictState rfc false demoCwd demoDisk
    = (Ok tt, demoDisk) /\
  (length (trim (demoRender plan demoState)) < 50)%nat /\
  approveDocument demoRender NotJson (js "t1") demoState plan true demoCwd demoDisk
    = (Ok tt, demoDisk).
Proof.
  intros strictState.
  assert (Hv : valid (validateDocumentByType rfc (demoRender rfc strictState)) = false)
    by (vm_compute; reflexivity).
  assert (Hl : (length (trim (demoRender plan demoState)) < 50)%nat)
    by (vm_compute; lia).
  split; [reflexivity|]. split; [exact Hv|]. split.
  - exact (proj2 (X19_approveDocument_blocked demoRender NotJson (js "t1") strictState
                    rfc false demoCwd demoDisk) eq_refl Hv eq_refl).
  - split; [exact Hl|].
    exact (proj1 (X19_approveDocument_blocked demoRender NotJson (js "t1") demoState
                    plan true demoCwd demoDisk) Hl).
Defined.

(** X20. When the rendered document has at least 50 characters once trimmed,
    and it is valid, or strict mode is off, or force is given, approveDocument
    goes on to write the document to its file under docs, making that
    directory where it is missing. Where that can be done (the directory can
    be made and the path of the document is no directory) the document is
    written and, on a stored state, an approval with the raw hash of the
    rendered text is recorded in the stored state (not in the state it was
    given), after which the document is approved and unchanged with respect
    to that text. So without strict mode a document with missing sections is
    approved without force. If the location has no record, the document file
    is written all the same and the call fails with the "No DocForge project
    found" error. Where the document cannot be written the call fails, and
    the state file is as before: no approval is recorded. *)
Theorem X20_approveDocument_approves
    (render : DocumentType -> DocForgeState -> jsstring) (asFile : jsstring -> FileText)
    (now : jsstring) (state : DocForgeState) (t : DocumentType) (force : bool)
    (cwd : jsstring) (d : Disk) :
  (50 <= length (trim (render t state)))%nat ->
  valid (validateDocumentByType t (render t state)) = true
    \/ strictMode state = false \/ force = true ->
  (canWriteSafe d (getDocPath t cwd) = true ->
   (forall s0, d !! getStateFilePath cwd = Some (File (StateJson s0)) ->
      exists d',
        approveDocument render asFile now state t force cwd d = (Ok tt, d') /\
        d' !! getDocPath t cwd = Some (File (asFile (render t state))) /\
        d' !! getStateFilePath cwd
          = Some (File (StateJson (withApproval now t (render t state) s0))) /\
        isDocumentApproved (withApproval now t (render t state) s0) t = true /\
        hasDocumentChanged (withApproval now t (render t state) s0) t (render t state)
          = false) /\
   (d !! getStateFilePath cwd = None ->
    approveDocument render asFile now state t force cwd d
    = (Throw (Error noProjectFound),
       <[getDocPath t cwd := File (asFile (render t state))]>
         (made (getDocsDir cwd) d)))) /\
  (entry d (getDocsDir cwd) = Some Directory ->
   made (getDocsDir cwd) d = d /\
   canWriteSafe d (getDocPath t cwd) = negb (isDirectoryAt d (getDocPath t cwd))) /\
  (canWriteSafe d (getDocPath t cwd) = false ->
   exists e d',
     approveDocument render asFile now state t force cwd d = (Throw e, d') /\
     d' !! getStateFilePath cwd = d !! getStateFilePath cwd /\
     d' !! getDocPath t cwd = d !! getDocPath t cwd).
Proof.
  intros Hlen Hok.
  rewrite (approveDocument_long render asFile now state t force cwd Hlen). cbn zeta.
  assert (Hgo : negb (valid (validateDocumentByType t (render t state)))
                && (negb (passes (strictModeCheck state t (render t state)))
                    && negb force) = false).
  { destruct Hok as [Hv|[Hs| ->]].
    - rewrite Hv. reflexivity.
    - unfold strictModeCheck. rewrite Hs. cbn. apply andb_false_r.
    - cbn. rewrite !andb_false_r. reflexivity. }
  rewrite Hgo. pose proof (getDocPath_not_state t cwd) as Hne.
  split; [|split].
  - intros Hcan.
    pose proof (writeFileSafe_ok asFile d (getDocPath t cwd) (render t state) Hcan) as Hw.
    rewrite dirname_docPath in Hw. split.
    + intros s0 Hs0.
      assert (Hs1 : <[getDocPath t cwd := File (asFile (render t state))]>
                      (made (getDocsDir cwd) d)
                      !! getStateFilePath cwd = Some (File (StateJson s0)))
        by (rewrite writeDocument_state; exact Hs0).
      eexists. split.
      { unfold bind. rewrite Hw, (recordApproval_run cwd _ s0 now t _ Hs1). reflexivity. }
      split; [rewrite lookup_insert_ne by congruence; apply lookup_insert_eq|].
      split; [apply lookup_insert_eq|].
      split.
      * apply isDocumentApproved_approvalFor. unfold approvalFor.
        rewrite find_withApproval. eauto.
      * rewrite hasDocumentChanged_withApproval. unfold JsString.eqb.
        rewrite bool_decide_eq_true_2; reflexivity.
    + intros Hnone.
      assert (Hs1 : <[getDocPath t cwd := File (asFile (render t state))]>
                      (made (getDocsDir cwd) d)
                      !! getStateFilePath cwd = None)
        by (rewrite writeDocument_state; exact Hnone).
      assert (Hload : loadState cwd (<[getDocPath t cwd := File (asFile (render t state))]>
                                       (made (getDocsDir cwd) d))
                      = (Throw (Error noProjectFound),
                         <[getDocPath t cwd := File (asFile (render t state))]>
                           (made (getDocsDir cwd) d)))
        by (rewrite loadState_run, Hs1; reflexivity).
      unfold bind. rewrite Hw.
      destruct (loadState_fails_run cwd _ Hload) as (_ & _ & ->).
      reflexivity.
  - intros Hdir. destruct (made_existing d _ Hdir) as [Hm Hsame].
    split; [exact Hsame|]. unfold canWriteSafe.
    rewrite dirname_docPath, Hm. reflexivity.
  - intros Hcan.
    destruct (writeFileSafe_fails asFile d (getDocPath t cwd) (render t state) Hcan)
      as (e & d' & Hw & Hd').
    exists e, d'. unfold bind at 1. rewrite Hw. split; [reflexivity|].
    rewrite dirname_docPath in Hd'. destruct Hd' as [->| ->]; [split; reflexivity|].
    split; [apply made_docsDir_state|].
    apply made_longer, (project_paths_apart cwd t).
Qed.

Lemma X20_approveDocument_witness :
  (50 <= length (trim (demoRender rfc demoState)))%nat /\
  valid (validateDocumentByType rfc (demoRender rfc demoState)) = false /\
  strictMode demoState = false /\
  canWriteSafe demoDisk (getDocPath rfc demoCwd) = true /\
  (exists d',
     approveDocument demoRender NotJson (js "t1") demoState rfc false demoCwd demoDisk
       = (Ok tt, d') /\
     d' !! getDocPath rfc demoCwd = Some (File (NotJson rfcWithoutGoals)) /\
     d' !! getStateFilePath demoCwd
       = Some (File (StateJson (withApproval (js "t1") rfc rfcWithoutGoals demoState)))) /\
  let blocked : Disk := <[getDocPath rfc demoCwd := Directory]> demoDisk in
  canWriteSafe blocked (getDocPath rfc demoCwd) = false /\
  exists e d',
    approveDocument demoRender NotJson (js "t1") demoState rfc false demoCwd blocked
      = (Throw e, d') /\
    d' !! getStateFilePath demoCwd = Some (File (StateJson demoState)).
Proof.
  assert (Hlen : (50 <= length (trim (demoRender rfc demoState)))%nat)
    by (vm_compute; lia).
  assert (Hcan : canWriteSafe demoDisk (getDocPath rfc demoCwd) = true)
    by (vm_compute; reflexivity).
  split; [exact Hlen|]. split; [vm_compute; reflexivity|]. split; [reflexivity|].
  split; [exact Hcan|]. split.
  - destruct (proj1 (proj1 (X20_approveDocument_approves demoRender NotJson (js "t1")
                              demoState rfc false demoCwd demoDisk Hlen
                              (or_intror (or_introl eq_refl))) Hcan)
                    demoState demoDisk_state) as (d' & Hrun & Hdoc & Hst & _).
    exists d'. split; [exact Hrun|]. split; [exact Hdoc|exact Hst].
  - intros blocked.
    assert (Hno : canWriteSafe blocked (getDocPath rfc demoCwd) = false)
      by (vm_compute; reflexivity).
    split; [exact Hno|].
    destruct (proj2 (proj2 (X20_approveDocument_approves demoRender NotJson (js "t1")
                              demoState rfc false demoCwd blocked Hlen
                              (or_intror (or_introl eq_refl)))) Hno)
      as (e & d' & Hrun & Hst & _).
    exists e, d'. split; [exact Hrun|]. rewrite Hst. unfold blocked.
    rewrite lookup_insert_ne by discriminate. exact demoDisk_state.
Defined.

(** ** The agents: advancing and feedback *)

Section AgentProperties.

Lemma set_currentStep_stateAt (n : StepId) (st : DocForgeState) :
  set_currentStep n st = stateAt n st.
Proof. reflexivity. Qed.

Lemma advanceIfAllowed_run (cwd : jsstring) (st : DocForgeState) (d : Disk) :
  canWrite d (getStateFilePath cwd) = true ->
  advanceIfAllowed cwd st goOn d
  = match getNextStep (currentStep st) with
    | Some n => (Ok (stateAt n st), <[getStateFilePath cwd := File (StateJson (stateAt n st))]> d)
    | None => (Ok st, d)
    end.
Proof.
  intros Hcan. unfold advanceIfAllowed. cbn [goOn shouldContinue negb].
  destruct (getNextStep (currentStep st)); [|reflexivity].
  unfold bind. rewrite (saveState_run cwd d _ Hcan). reflexivity.
Qed.

Lemma advanceIfAllowed_fails (cwd : jsstring) (st : DocForgeState) (d : Disk)
    (result : CheckpointResult) (s' : StepId) :
  canWrite d (getStateFilePath cwd) = false ->
  shouldContinue result = true -> getNextStep (currentStep st) = Some s' ->
  exists e, advanceIfAllowed cwd st result d = (Throw e, d).
Proof.
  intros Hcan Hgo Hs. unfold advanceIfAllowed. rewrite Hgo, Hs. cbn [negb].
  unfold bind, saveState.
  destruct (writeFile_fails d _ (JSON_stringify (set_currentStep s' st)) Hcan)
    as (e & -> & _).
  exists e. reflexivity.
Qed.

Lemma advanceIfAllowed_complete (cwd : jsstring) (st : DocForgeState) (d : Disk)
    (result : CheckpointResult) :
  currentStep st = complete -> advanceIfAllowed cwd st result d = (Ok st, d).
Proof.
  intros H. unfold advanceIfAllowed. rewrite H.
  destruct (shouldContinue result); reflexivity.
Qed.

Lemma advanceTimes_complete (cwd : jsstring) (n : nat) (st : DocForgeState) (d : Disk) :
  currentStep st = complete -> advanceTimes cwd n st d = (Ok st, d).
Proof.
  intros H. induction n as [|n IH]; [reflexivity|].
  cbn [advanceTimes]. unfold bind. rewrite advanceIfAllowed_complete by exact H. exact IH.
Qed.

Lemma canWrite_saved (cwd : jsstring) (d : Disk) (c : FileText) :
  canWrite (<[getStateFilePath cwd := File c]> d) (getStateFilePath cwd) = true.
Proof. apply (canWrite_stored cwd _ c), lookup_insert_eq. Qed.

Lemma advanceTimes_reaches (cwd : jsstring) (n : nat) :
  forall (st : DocForgeState) (d : Disk),
    currentStep st = complete \/ canWrite d (getStateFilePath cwd) = true ->
    (14 - rank (currentStep st) <= n)%nat ->
    exists d', advanceTimes cwd n st d = (Ok (stateAt complete st), d') /\
               (currentStep st <> complete ->
                d' !! getStateFilePath cwd = Some (File (StateJson (stateAt complete st)))).
Proof.
  induction n as [|n IH]; intros st d Hcan Hn.
  - assert (Hc : currentStep st = complete).
    { apply rank_injective. pose proof (rank_le_14 (currentStep st)). cbn. lia. }
    exists d. split; [|contradiction]. cbn. destruct st; cbn in *. subst. reflexivity.
  - destruct (getNextStep (currentStep st)) as [s'|] eqn:E.
    + assert (Hw : canWrite d (getStateFilePath cwd) = true).
      { destruct Hcan as [Hc|Hw]; [|exact Hw]. rewrite Hc in E. discriminate E. }
      cbn [advanceTimes]. unfold bind. rewrite (advanceIfAllowed_run cwd st d Hw), E.
      pose proof (getNextStep_rank _ _ E) as Hr.
      destruct (IH (stateAt s' st) (<[getStateFilePath cwd := File (StateJson (stateAt s' st))]> d))
        as (d' & Hrun & Hd'); [right; apply canWrite_saved|cbn; lia|].
      exists d'. split; [exact Hrun|]. intros _.
      destruct (decide (s' = complete)) as [->|Hne].
      * rewrite advanceTimes_complete in Hrun by reflexivity.
        injection Hrun as <-. apply lookup_insert_eq.
      * apply Hd'. exact Hne.
    + apply getNextStep_terminal in E.
      exists d. split; [|contradiction].
      rewrite advanceTimes_complete by exact E.
      destruct st; cbn in *. subst. reflexivity.
Qed.

Lemma startsWith_phase (s : StepId) (t : DocumentType) :
  startsWith (StepId_str s) (DocumentType_str t) = true <-> getPhase s = phaseOfDocument t.
Proof. destruct s, t; vm_compute; split; congruence. Qed.

Lemma joinWith_nil (sep : jsstring) (parts : list jsstring) :
  joinWith sep parts = [] -> forall part, In part parts -> part = [].
Proof.
  induction parts as [|a parts IH]; [intros _ part []|].
  cbn [joinWith]. destruct parts as [|b parts'].
  - intros -> part [<-|[]]. reflexivity.
  - intros H. apply app_eq_nil in H as [-> H]. apply app_eq_nil in H as [_ H].
    intros part [<-|Hin]; [reflexivity|apply IH; assumption].
Qed.

Lemma getRelevantFeedback_relevantTo (st : DocForgeState) (phase : jsstring) :
  getRelevantFeedback st phase = [] <-> relevantTo phase st = [].
Proof.
  unfold getRelevantFeedback. fold (relevantTo phase st).
  destruct (relevantTo phase st) as [|r l]; cbn; split; intros H;
    try reflexivity; discriminate H.
Qed.

End AgentProperties.

(** X21. advanceIfAllowed moves forward only, by one step, and writes only
    when it moves. With shouldContinue false, or at the step complete, it
    returns the state as it is and the disk is untouched. Otherwise it saves
    the state with currentStep set to the next step and nothing else changed.
    Where the state file can be written (a file is there, or nothing is there
    and its directory exists) it returns that state and the record of the
    directory becomes that state, whatever was stored there; where it cannot,
    the call fails and the disk is untouched. Asked to go on as many times
    as steps remain, or more often, on a state file that can be written, it
    ends at complete. *)
Theorem X21_advanceIfAllowed_moves_forward
    (cwd : jsstring) (st : DocForgeState) (result : CheckpointResult) (d : Disk)
    (n : nat) :
  (shouldContinue result = false -> advanceIfAllowed cwd st result d = (Ok st, d)) /\
  (currentStep st = complete -> advanceIfAllowed cwd st result d = (Ok st, d)) /\
  (shouldContinue result = true ->
   forall s', getNextStep (currentStep st) = Some s' ->
     (canWrite d (getStateFilePath cwd) = true ->
      advanceIfAllowed cwd st result d
      = (Ok (stateAt s' st),
         <[getStateFilePath cwd := File (StateJson (stateAt s' st))]> d)) /\
     (canWrite d (getStateFilePath cwd) = false ->
      exists e, advanceIfAllowed cwd st result d = (Throw e, d)) /\
     getRemainingSteps (stateAt s' st) = getRemainingSteps st - 1) /\
  ((14 - rank (currentStep st) <= n)%nat ->
   currentStep st = complete \/ canWrite d (getStateFilePath cwd) = true ->
   exists d', advanceTimes cwd n st d = (Ok (stateAt complete st), d')) /\
  (canWrite d (getStateFilePath cwd) = true <->
   (exists c, d !! getStateFilePath cwd = Some (File c)) \/
   (d !! getStateFilePath cwd = None /\ d !! getStateDirPath cwd = Some Directory)).
Proof.
  split; [|split; [|split; [|split]]].
  - intros H. unfold advanceIfAllowed. rewrite H. reflexivity.
  - apply advanceIfAllowed_complete.
  - intros H s' Hs. split; [|split].
    + intros Hcan. unfold advanceIfAllowed. rewrite H, Hs. cbn [negb].
      unfold bind. rewrite (saveState_run cwd d _ Hcan). reflexivity.
    + intros Hcan. exact (advanceIfAllowed_fails cwd st d result s' Hcan H Hs).
    + rewrite !getRemainingSteps_rank. cbn [stateAt currentStep].
      apply getNextStep_rank in Hs. lia.
  - intros Hn Hcan. destruct (advanceTimes_reaches cwd n st d Hcan Hn) as (d' & Hrun & _).
    exists d'. exact Hrun.
  - apply canWrite_stateFile.
Qed.

Lemma X21_advanceIfAllowed_witness :
  getNextStep (currentStep demoState) = Some rfc_approach /\
  canWrite demoDisk (getStateFilePath demoCwd) = true /\
  advanceIfAllowed demoCwd demoState goOn demoDisk
  = (Ok (stateAt rfc_approach demoState),
     <[getStateFilePath demoCwd := File (StateJson (stateAt rfc_approach demoState))]> demoDisk) /\
  canWrite freshDirectory (getStateFilePath demoCwd) = false /\
  (exists e, advanceIfAllowed demoCwd demoState goOn freshDirectory
             = (Throw e, freshDirectory)) /\
  (14 - rank (currentStep demoState) <= 20)%nat /\
  exists d', advanceTimes demoCwd 20 demoState demoDisk
             = (Ok (stateAt complete demoState), d').
Proof.
  destruct (X21_advanceIfAllowed_moves_forward demoCwd demoState goOn demoDisk 20)
    as (_ & _ & Hgo & Hall & _).
  destruct (X21_advanceIfAllowed_moves_forward demoCwd demoState goOn freshDirectory 0)
    as (_ & _ & Hno & _).
  assert (Hcan : canWrite demoDisk (getStateFilePath demoCwd) = true)
    by (vm_compute; reflexivity).
  assert (Hcannot : canWrite freshDirectory (getStateFilePath demoCwd) = false)
    by (vm_compute; reflexivity).
  split; [reflexivity|]. split; [exact Hcan|].
  split; [exact (proj1 (Hgo eq_refl rfc_approach eq_refl) Hcan)|].
  split; [exact Hcannot|].
  split; [exact (proj1 (proj2 (Hno eq_refl rfc_approach eq_refl)) Hcannot)|].
  assert (Hn : (14 - rank (currentStep demoState) <= 20)%nat) by (cbn; lia).
  split; [exact Hn|exact (Hall Hn (or_intror Hcan))].
Defined.

(** X22. getRelevantFeedback returns the empty string exactly when no stored
    response whose stepId starts with the phase name has a non-empty
    disagreement, clarification or missed constraint. For the step names of
    the table, a name starts with rfc, plan or rollout exactly when the step is
    of that phase. A checkpoint answered with empty answers only is recorded,
    and leaves the feedback of every phase as it was. *)
Theorem X22_getRelevantFeedback_empty
    (st : DocForgeState) (phase : jsstring) :
  (getRelevantFeedback st phase = [] <->
   forall r, In r (checkpointResponses st) ->
             startsWith (stepId r) phase = true -> hasFeedback r = false) /\
  (forall (s : StepId) (t : DocumentType),
     startsWith (StepId_str s) (DocumentType_str t) = true <->
     getPhase s = phaseOfDocument t) /\
  (forall (d : Disk) (cwd now content : jsstring) (step : StepId) (continue : bool),
     d !! getStateFilePath cwd = Some (File (StateJson st)) ->
     exists st' d',
       runCheckpoint now (noAnswers continue) cwd st step content d
         = (Ok {| result_disagreements := None; result_clarifications := None;
                  result_missedConstraints := None; shouldContinue := continue |}, d') /\
       d' !! getStateFilePath cwd = Some (File (StateJson st')) /\
       length (checkpointResponses st') = S (length (checkpointResponses st)) /\
       getRelevantFeedback st' phase = getRelevantFeedback st phase).
Proof.
  split; [|split].
  - rewrite getRelevantFeedback_relevantTo. unfold relevantTo. split.
    + intros H r Hin Hs. destruct (hasFeedback r) eqn:E; [|reflexivity].
      assert (Hr : In r (List.filter hasFeedback
                           (List.filter (fun r => startsWith (stepId r) phase)
                                        (checkpointResponses st)))).
      { apply List.filter_In. split; [|exact E]. apply List.filter_In. tauto. }
      rewrite H in Hr. contradiction.
    + intros H.
      destruct (List.filter hasFeedback _) as [|r l] eqn:E; [reflexivity|].
      assert (Hr : In r (r :: l)) by (left; reflexivity).
      rewrite <- E in Hr. apply List.filter_In in Hr as [Hr Hf].
      apply List.filter_In in Hr as [Hin Hs]. rewrite (H r Hin Hs) in Hf. discriminate Hf.
  - exact startsWith_phase.
  - intros d cwd now content step continue Hd.
    eexists _, _. split.
    { unfold runCheckpoint, bind.
      rewrite (recordCheckpointResponse_run cwd d st _ _ _ _ _ Hd). reflexivity. }
    split; [apply lookup_insert_eq|]. split.
    { cbn. rewrite length_app. cbn. lia. }
    unfold getRelevantFeedback. cbn [withResponse set_checkpointResponses checkpointResponses].
    rewrite !List.filter_app. cbn [List.filter noAnswers answer_disagreements
      answer_clarifications answer_missedConstraints orNull].
    destruct (startsWith _ phase); cbn; rewrite !app_nil_r; reflexivity.
Qed.

Lemma X22_getRelevantFeedback_witness :
  exists st' d',
    runCheckpoint (js "t1") (noAnswers true) demoCwd demoState rfc_goals (js "text")
                  demoDisk
      = (Ok goOn, d') /\
    d' !! getStateFilePath demoCwd = Some (File (StateJson st')) /\
    length (checkpointResponses st') = 1%nat /\
    getRelevantFeedback st' (js "rfc") = [].
Proof.
  destruct (proj2 (proj2 (X22_getRelevantFeedback_empty demoState (js "rfc")))
              demoDisk demoCwd (js "t1") (js "text") rfc_goals true demoDisk_state)
    as (st' & d' & Hrun & Hd & Hlen & Hf).
  exists st', d'. split; [exact Hrun|]. split; [exact Hd|].
  split; [exact Hlen|]. rewrite Hf. reflexivity.
Defined.

(** ** The continue command *)

Section ContinueProperties.

Variable generate : StepId -> DocForgeState -> IO (DocForgeState * jsstring).
Variable render : DocumentType -> DocForgeState -> jsstring.
Variable asFile : jsstring -> FileText.

Lemma saveDocumentIfPhaseComplete_run (st : DocForgeState) (cwd : jsstring) (d : Disk) :
  saveDocumentIfPhaseComplete render asFile st cwd d
  = match documentSavedAt (currentStep st) with
    | Some t => writeFileSafe asFile (getDocPath t cwd) (render t st) d
    | None => (Ok tt, d)
    end.
Proof.
  unfold saveDocumentIfPhaseComplete.
  destruct (currentStep st); cbn [documentSavedAt];
    repeat match goal with
           | |- context [bool_decide (?a = ?b)] =>
               first [rewrite (bool_decide_eq_true_2 (a = b)) by reflexivity
                     |rewrite (bool_decide_eq_false_2 (a = b)) by discriminate]
           end;
    cbn [orb]; unfold bind, ret; try reflexivity;
    match goal with
    | |- context [writeFileSafe ?f ?q ?c d] =>
        destruct (writeFileSafe f q c d) as [[[]|e] d']; reflexivity
    end.
Qed.

Lemma canWriteSafe_overwrite (d : Disk) (k p : jsstring) (c c' : FileText) :
  d !! k = Some (File c) -> p <> k ->
  canWriteSafe (<[k := File c']> d) p = canWriteSafe d p.
Proof.
  intros Hk Hne. unfold canWriteSafe.
  rewrite (proj1 (made_overwrite d (dirname p) k c c' Hk)).
  f_equal. f_equal. unfold isDirectoryAt, entry.
  rewrite lookup_insert_ne by congruence. reflexivity.
Qed.

(** Moving the stored state to the step [next] and saving the document of
    the phase this completes, if any. *)
Lemma advance_and_save (st : DocForgeState) (next : StepId) (cwd : jsstring)
    (d : Disk) (c : FileText) :
  d !! getStateFilePath cwd = Some (File c) ->
  (forall t, documentSavedAt next = Some t ->
             canWriteSafe d (getDocPath t cwd) = true) ->
  exists d',
    (await state <- (await_ saveState (set_currentStep next st) cwd;
                     ret (set_currentStep next st));
     saveDocumentIfPhaseComplete render asFile state cwd) d = (Ok tt, d') /\
    d' !! getStateFilePath cwd = Some (File (StateJson (stateAt next st))).
Proof.
  intros Hd Hcan. unfold bind at 1, bind at 1.
  rewrite (saveState_stored cwd d _ c Hd). cbn [ret].
  rewrite saveDocumentIfPhaseComplete_run. cbn [set_currentStep currentStep].
  destruct (documentSavedAt next) as [t|] eqn:E.
  - rewrite writeFileSafe_ok.
    + eexists. split; [reflexivity|].
      rewrite dirname_docPath, writeDocument_state. apply lookup_insert_eq.
    + rewrite (canWriteSafe_overwrite d _ _ c) by
        (exact Hd || apply getDocPath_not_state).
      apply Hcan. reflexivity.
  - eexists. split; [reflexivity|]. apply lookup_insert_eq.
Qed.

Lemma handles_checkpoint (s : StepId) :
  isCheckpoint s = true -> handles (getAgentForStep s) s = true.
Proof. destruct s; cbn; congruence. Qed.

Lemma handles_sentinel (t : DocumentType) :
  handles (getAgentForStep (sentinel t)) (sentinel t) = false.
Proof. destruct t; reflexivity. Qed.

Lemma continueCommand_loaded (auto prov : bool) (answers : Answers)
    (now cwd : jsstring) (d : Disk) (s : DocForgeState) :
  d !! getStateFilePath cwd = Some (File (StateJson s)) ->
  currentStep s <> complete ->
  continueCommand generate render asFile auto prov answers now cwd d
  = (await_ (if prov then ret tt else throw (ProcessExit 1));
     try_catch
       (await result <- generateStep generate (getAgentForStep (currentStep s)) s
                          (currentStep s);
        let state := fst result in
        await stopped <-
          (if isCheckpoint (currentStep state) then
             if auto then ret false
             else
               await checkpointResult <-
                 runCheckpoint now answers cwd state (currentStep state) (snd result);
               ret (negb (shouldContinue checkpointResult))
           else ret false);
        if stopped then ret tt
        else
          await state <-
            match getNextStep (currentStep state) with
            | Some nextStep =>
                let state := set_currentStep nextStep state in
                await_ saveState state cwd;
                ret state
            | None => ret state
            end;
          saveDocumentIfPhaseComplete render asFile state cwd)
       (fun error => throw (ProcessExit 1))) d.
Proof.
  intros Hd Hc. unfold continueCommand at 1, bind at 1, try_catch at 1.
  rewrite (loadState_state cwd d s Hd). unfold bind at 1. cbn [asState ret].
  rewrite bool_decide_eq_false_2 by exact Hc. reflexivity.
Qed.

End ContinueProperties.

(** X23. The continue command cannot pass a [<phase>.complete] step. When the
    stored state is at rfc.complete, plan.complete or rollout.complete, the
    agent chosen for the step has no case for it and throws, and the command
    ends with exit status 1 with the disk as before, whatever the options,
    the provider and the generators; so from such a step no run of the command
    advances. At the step complete it returns without an error and writes
    nothing, and without a record it ends with exit status 1. *)
Theorem X23_continue_stops_at_phase_complete
    (generate : StepId -> DocForgeState -> IO (DocForgeState * jsstring))
    (render : DocumentType -> DocForgeState -> jsstring) (asFile : jsstring -> FileText)
    (auto prov : bool) (answers : Answers) (now cwd : jsstring) (d : Disk) :
  (forall s t, d !! getStateFilePath cwd = Some (File (StateJson s)) ->
     currentStep s = sentinel t ->
     continueCommand generate render asFile auto prov answers now cwd d
     = (Throw (ProcessExit 1), d)) /\
  (forall s, d !! getStateFilePath cwd = Some (File (StateJson s)) ->
     currentStep s = complete ->
     continueCommand generate render asFile auto prov answers now cwd d = (Ok tt, d)) /\
  (d !! getStateFilePath cwd = None ->
   continueCommand generate render asFile auto prov answers now cwd d
   = (Throw (ProcessExit 1), d)).
Proof.
  split; [|split].
  - intros s t Hd Hs.
    rewrite (continueCommand_loaded generate render asFile auto prov answers now cwd d s Hd)
      by (rewrite Hs; destruct t; discriminate).
    unfold bind at 1. destruct prov; [|reflexivity]. cbn [ret].
    unfold try_catch, bind at 1, generateStep.
    rewrite Hs, handles_sentinel. reflexivity.
  - intros s Hd Hs. unfold continueCommand, bind at 1, try_catch at 1.
    rewrite (loadState_state cwd d s Hd). unfold bind at 1. cbn [asState ret].
    rewrite bool_decide_eq_true_2 by exact Hs. reflexivity.
  - intros Hd. unfold continueCommand, bind at 1, try_catch at 1.
    rewrite loadState_run, Hd. reflexivity.
Qed.

Lemma X23_continue_witness :
  let d : Disk := projectWith (StateJson (stateAt rfc_complete demoState)) in
  continueCommand (fun _ st => ret (st, js "content")) demoRender NotJson
                  true true (noAnswers true) (js "t1") demoCwd d
  = (Throw (ProcessExit 1), d).
Proof.
  intros d.
  exact (proj1 (X23_continue_stops_at_phase_complete
                  (fun _ st => ret (st, js "content")) demoRender NotJson
                  true true (noAnswers true) (js "t1") demoCwd d)
               (stateAt rfc_complete demoState) rfc (projectWith_record _) eq_refl).
Defined.

(** X24. At a checkpoint step, the continue command keeps the user's response
    only when the user stops. Let the generator return a state still at that
    step, with a record in place. If the user answers not to continue, the
    record afterwards is the stored state with the response appended and the
    step is not advanced. If the user answers to continue, or with --auto, and
    the document of the phase the move completes, if it completes one, can be
    written to its file under docs, the record afterwards is the state the
    generator returned, moved to the next step: its checkpoint responses are
    those of that state, so the response just recorded on disk is overwritten
    unless that state already had it. *)
Theorem X24_continue_checkpoint_response
    (generate : StepId -> DocForgeState -> IO (DocForgeState * jsstring))
    (render : DocumentType -> DocForgeState -> jsstring) (asFile : jsstring -> FileText)
    (auto : bool) (answers : Answers) (now cwd : jsstring)
    (d d1 : Disk) (s st1 s1 : DocForgeState) (content : jsstring) :
  d !! getStateFilePath cwd = Some (File (StateJson s)) ->
  isCheckpoint (currentStep s) = true ->
  generate (currentStep s) s d = (Ok (st1, content), d1) ->
  currentStep st1 = currentStep s ->
  d1 !! getStateFilePath cwd = Some (File (StateJson s1)) ->
  (auto = false -> answer_shouldContinue answers = false ->
   continueCommand generate render asFile auto true answers now cwd d
   = (Ok tt,
      <[getStateFilePath cwd :=
          File (StateJson (withResponse now (StepId_str (currentStep s))
                       (orNull (answer_disagreements answers))
                       (orNull (answer_clarifications answers))
                       (orNull (answer_missedConstraints answers)) s1))]> d1)) /\
  (auto = true \/ answer_shouldContinue answers = true ->
   (forall next t, getNextStep (currentStep s) = Some next ->
      documentSavedAt next = Some t -> canWriteSafe d1 (getDocPath t cwd) = true) ->
   exists (next : StepId) (d' : Disk),
     getNextStep (currentStep s) = Some next /\
     continueCommand generate render asFile auto true answers now cwd d = (Ok tt, d') /\
     d' !! getStateFilePath cwd = Some (File (StateJson (stateAt next st1))) /\
     checkpointResponses (stateAt next st1) = checkpointResponses st1).
Proof.
  intros Hd Hcp Hgen Hstep Hd1.
  assert (Hnc : currentStep s <> complete)
    by (intros E; rewrite E in Hcp; discriminate Hcp).
  rewrite (continueCommand_loaded generate render asFile auto true answers now cwd d s
             Hd Hnc).
  split.
  - intros -> Hstop.
    unfold bind at 1. cbn [ret].
    unfold try_catch, bind at 1, generateStep.
    rewrite (handles_checkpoint _ Hcp), Hgen. cbn [fst snd]. rewrite Hstep, Hcp.
    unfold bind at 1, bind at 1, runCheckpoint, bind at 1.
    rewrite (recordCheckpointResponse_run cwd d1 s1 _ _ _ _ _ Hd1).
    cbn [ret shouldContinue]. rewrite Hstop. reflexivity.
  - intros Hgo Hcan.
    assert (Hnext : exists next, getNextStep (currentStep s) = Some next).
    { destruct (getNextStep (currentStep s)) as [n|] eqn:E; [eauto|].
      apply getNextStep_terminal in E. contradiction. }
    destruct Hnext as [next Hnext]. exists next.
    assert (Hrun : forall (dm : Disk) (c : FileText),
               dm !! getStateFilePath cwd = Some (File c) ->
               (forall t, documentSavedAt next = Some t ->
                          canWriteSafe dm (getDocPath t cwd) = true) ->
               exists d',
                 (await state <-
                    match getNextStep (currentStep s) with
                    | Some nextStep =>
                        await_ saveState (set_currentStep nextStep st1) cwd;
                        ret (set_currentStep nextStep st1)
                    | None => ret st1
                    end;
                  saveDocumentIfPhaseComplete render asFile state cwd) dm = (Ok tt, d') /\
                 d' !! getStateFilePath cwd = Some (File (StateJson (stateAt next st1)))).
    { intros dm c Hdm Hw. rewrite Hnext.
      exact (advance_and_save render asFile st1 next cwd dm c Hdm Hw). }
    destruct auto.
    + destruct (Hrun d1 _ Hd1 (fun t => Hcan next t Hnext)) as (d' & Hr & Hl). exists d'.
      split; [exact Hnext|]. split; [|split; [exact Hl|reflexivity]].
      unfold bind at 1. cbn [ret].
      unfold try_catch, bind at 1, generateStep.
      rewrite (handles_checkpoint _ Hcp), Hgen. cbn [fst snd]. rewrite Hstep, Hcp.
      unfold bind at 1. cbn [ret]. rewrite Hr. reflexivity.
    + destruct Hgo as [Hgo|Hgo]; [discriminate Hgo|].
      destruct (Hrun (<[getStateFilePath cwd :=
                          File (StateJson (withResponse now (StepId_str (currentStep s))
                                       (orNull (answer_disagreements answers))
                                       (orNull (answer_clarifications answers))
                                       (orNull (answer_missedConstraints answers)) s1))]> d1)
                     _ (lookup_insert_eq _ _ _))
        as (d' & Hr & Hl).
      { intros t Ht.
        rewrite (canWriteSafe_overwrite d1 _ _ (StateJson s1))
          by (exact Hd1 || apply getDocPath_not_state).
        exact (Hcan next t Hnext Ht). }
      exists d'. split; [exact Hnext|]. split; [|split; [exact Hl|reflexivity]].
      unfold bind at 1. cbn [ret].
      unfold try_catch, bind at 1, generateStep.
      rewrite (handles_checkpoint _ Hcp), Hgen. cbn [fst snd]. rewrite Hstep, Hcp.
      unfold bind at 1, bind at 1, runCheckpoint, bind at 1.
      rewrite (recordCheckpointResponse_run cwd d1 s1 _ _ _ _ _ Hd1).
      cbn [ret shouldContinue]. rewrite Hgo. cbn [negb]. rewrite Hr. reflexivity.
Qed.

Lemma X24_continue_witness :
  let d : Disk := projectWith (StateJson (stateAt rfc_alternatives demoState)) in
  documentSavedAt rfc_complete = Some rfc /\
  canWriteSafe d (getDocPath rfc demoCwd) = true /\
  exists (next : StepId) (d' : Disk),
    getNextStep rfc_alternatives = Some next /\
    continueCommand (fun _ st => ret (st, js "content")) demoRender NotJson
                    false true (noAnswers true) (js "t1") demoCwd d = (Ok tt, d') /\
    d' !! getStateFilePath demoCwd
    = Some (File (StateJson (stateAt next (stateAt rfc_alternatives demoState)))) /\
    checkpointResponses (stateAt next (stateAt rfc_alternatives demoState))
    = checkpointResponses (stateAt rfc_alternatives demoState).
Proof.
  intros d.
  assert (Hcan : forall t, canWriteSafe d (getDocPath t demoCwd) = true)
    by (intros []; vm_compute; reflexivity).
  split; [reflexivity|]. split; [apply Hcan|].
  exact (proj2 (X24_continue_checkpoint_response
                  (fun _ st => ret (st, js "content")) demoRender NotJson
                  false (noAnswers true) (js "t1") demoCwd d d
                  (stateAt rfc_alternatives demoState) (stateAt rfc_alternatives demoState)
                  (stateAt rfc_alternatives demoState) (js "content")
                  (projectWith_record _) eq_refl eq_refl eq_refl
                  (projectWith_record _))
               (or_intror eq_refl) (fun _ t _ _ => Hcan t)).
Defined.

(* ===================================================================== *)
(** ** Stage prompt paths *)
(* ===================================================================== *)

Section StagePaths.

Lemma uintChars_inj (u v : Decimal.uint) : uintChars u = uintChars v -> u = v.
Proof.
  revert v. induction u as [|u IH|u IH|u IH|u IH|u IH|u IH|u IH|u IH|u IH|u IH];
    intros [|v|v|v|v|v|v|v|v|v|v] H; cbn [uintChars] in H;
    try discriminate H; try reflexivity;
    injection H as H; f_equal; apply IH, H.
Qed.

Lemma uintChars_no_minus (u : Decimal.uint) (rest : jsstring) :
  uintChars u <> 0x2D :: rest.
Proof. destruct u; cbn [uintChars]; intros H; discriminate H. Qed.

Lemma String_ofZ_inj (n m : Z) : String_ofZ n = String_ofZ m -> n = m.
Proof.
  unfold String_ofZ. intros H. apply DecimalZ.to_int_inj.
  destruct (Z.to_int n) as [u|u], (Z.to_int m) as [v|v].
  - f_equal. apply uintChars_inj, H.
  - exfalso. exact (uintChars_no_minus _ _ H).
  - exfalso. symmetry in H. exact (uintChars_no_minus _ _ H).
  - injection H as H. f_equal. apply uintChars_inj, H.
Qed.

Lemma to_int_normal (n : Z) : Decimal.norm (Z.to_int n) = Z.to_int n.
Proof. rewrite <- DecimalZ.to_of, DecimalZ.of_to. reflexivity. Qed.

Lemma nzhead_no_zero (u v : Decimal.uint) : Decimal.nzhead u <> Decimal.D0 v.
Proof. induction u; cbn [Decimal.nzhead]; try discriminate. exact IHu. Qed.

(** A numeral that starts with the digit 0 is "0". *)
Lemma String_ofZ_leading_zero (n : Z) (rest : jsstring) :
  String_ofZ n = 0x30 :: rest -> rest = [].
Proof.
  unfold String_ofZ. intros H. pose proof (to_int_normal n) as Hn.
  destruct (Z.to_int n) as [u|u]; [|discriminate H].
  destruct u; cbn [uintChars] in H; try discriminate H.
  injection H as <-.
  cbn [Decimal.norm] in Hn. unfold Decimal.unorm in Hn. cbn [Decimal.nzhead] in Hn.
  destruct (Decimal.nzhead u) eqn:E; try discriminate Hn.
  - injection Hn as <-. reflexivity.
  - exfalso. exact (nzhead_no_zero _ _ E).
Qed.

Lemma String_ofZ_nonempty (n : Z) : String_ofZ n <> [].
Proof.
  unfold String_ofZ. pose proof (to_int_normal n) as Hn.
  destruct (Z.to_int n) as [u|u]; [|discriminate].
  destruct u; cbn [uintChars]; discriminate.
Qed.

(** A numeral of one character is a digit. *)
Lemma String_ofZ_one_char (n : Z) (c : Z) : String_ofZ n = [c] -> 0 <= n <= 9.
Proof.
  unfold String_ofZ. intros H. rewrite <- (DecimalZ.of_to n).
  destruct (Z.to_int n) as [u|u].
  - destruct u as [|u|u|u|u|u|u|u|u|u|u]; cbn [uintChars] in H; try discriminate H;
      injection H as _ H; destruct u; cbn [uintChars] in H; try discriminate H;
      vm_compute; split; discriminate.
  - injection H as _ H. destruct u; cbn [uintChars] in H; try discriminate H.
    vm_compute; split; discriminate.
Qed.

Lemma padStart_short (c : Z) : padStart [c] 2 (js "0") = [0x30; c].
Proof. reflexivity. Qed.

Lemma padStart_long (a b : Z) (s : jsstring) :
  padStart (a :: b :: s) 2 (js "0") = a :: b :: s.
Proof. reflexivity. Qed.

Lemma padded_inj (n m : Z) :
  padStart (String_ofZ n) 2 (js "0") = padStart (String_ofZ m) 2 (js "0") -> n = m.
Proof.
  pose proof (String_ofZ_nonempty n) as Hn. pose proof (String_ofZ_nonempty m) as Hm.
  pose proof (String_ofZ_leading_zero n) as Zn.
  pose proof (String_ofZ_leading_zero m) as Zm.
  intros H. apply String_ofZ_inj.
  destruct (String_ofZ n) as [|a [|b s]]; [contradiction| |];
    destruct (String_ofZ m) as [|a' [|b' s']]; try contradiction.
  - rewrite !padStart_short in H. injection H as ->. reflexivity.
  - rewrite padStart_short, padStart_long in H. injection H as <- <- <-.
    discriminate (Zm _ eq_refl).
  - rewrite padStart_short, padStart_long in H. injection H as -> -> ->.
    discriminate (Zn _ eq_refl).
  - rewrite !padStart_long in H. exact H.
Qed.

Lemma uintChars_noSep (u : Decimal.uint) : noSep (uintChars u).
Proof.
  unfold noSep. induction u; cbn [uintChars]; intros H;
    try (destruct H as [H|H]; [discriminate H|exact (IHu H)]).
  destruct H.
Qed.

Lemma String_ofZ_noSep (n : Z) : noSep (String_ofZ n).
Proof.
  unfold String_ofZ. destruct (Z.to_int n) as [u|u]; [apply uintChars_noSep|].
  intros [H|H]; [discriminate H|exact (uintChars_noSep u H)].
Qed.

Lemma padStart_noSep (s : jsstring) : noSep s -> noSep (padStart s 2 (js "0")).
Proof.
  unfold noSep. destruct s as [|a [|b s]].
  - intros _ H. vm_compute in H. intuition discriminate.
  - rewrite padStart_short. intros Hs [H|H]; [discriminate H|exact (Hs H)].
  - rewrite padStart_long. exact (fun H => H).
Qed.

Lemma plain_stageFileName (n : Z) : plain (stageFileName n).
Proof.
  unfold plain, stageFileName. split; [|repeat split].
  - intros H. apply in_app_or in H as [H|H]; [vm_compute in H; intuition discriminate|].
    apply in_app_or in H as [H|H]; [|vm_compute in H; intuition discriminate].
    exact (padStart_noSep _ (String_ofZ_noSep n) H).
  - intros H. apply (f_equal (hd 0)) in H. vm_compute in H. discriminate H.
  - intros H. apply (f_equal (hd 0)) in H. vm_compute in H. discriminate H.
  - intros H. apply (f_equal (hd 0)) in H. vm_compute in H. discriminate H.
Qed.

(** The paths of a project and of its stage prompts, written out. *)
Lemma stage_paths (cwd : jsstring) :
  exists base : jsstring,
    getStateFilePath cwd = base ++ STATE_DIR ++ SEP :: STATE_FILE /\
    (forall t, getDocPath t cwd = base ++ js "docs" ++ SEP :: docFileName t) /\
    getPromptsDir cwd = base ++ js "prompts" /\
    (forall n, getStagePromptPath n cwd = base ++ js "prompts" ++ SEP :: stageFileName n) /\
    (forall n, dirname (getStagePromptPath n cwd) = getPromptsDir cwd).
Proof.
  destruct (project_paths cwd) as (base & parent & _ & Hs & _ & Hd & Hp & Hj & _ & Hdir).
  exists base. split; [exact Hs|]. split; [exact Hd|]. split; [exact Hp|].
  assert (Hn : forall n, getStagePromptPath n cwd
                         = base ++ js "prompts" ++ SEP :: stageFileName n)
    by (intros n; apply Hj, plain_stageFileName).
  split; [exact Hn|].
  intros n. rewrite Hn, Hp. apply Hdir; [apply plain_prompts|apply plain_stageFileName].
Qed.

Lemma dirname_stagePrompt (n : Z) (cwd : jsstring) :
  dirname (getStagePromptPath n cwd) = getPromptsDir cwd.
Proof. destruct (stage_paths cwd) as (base & _ & _ & _ & _ & H). apply H. Qed.

Lemma getStagePromptPath_inj (n m : Z) (cwd : jsstring) :
  getStagePromptPath n cwd = getStagePromptPath m cwd -> n = m.
Proof.
  destruct (stage_paths cwd) as (base & _ & _ & _ & Hn & _). rewrite !Hn.
  intros H. apply app_inv_head in H. apply app_inv_head in H. injection H as H.
  apply app_inv_tail in H. apply padded_inj, H.
Qed.

Lemma getStagePromptPath_not_state (n : Z) (cwd : jsstring) :
  getStagePromptPath n cwd <> getStateFilePath cwd.
Proof.
  destruct (stage_paths cwd) as (base & -> & _ & _ & Hn & _). rewrite Hn.
  intros H. apply app_inv_head in H. apply (f_equal (hd 0)) in H.
  vm_compute in H. discriminate H.
Qed.

Lemma getStagePromptPath_not_doc (n : Z) (t : DocumentType) (cwd : jsstring) :
  getStagePromptPath n cwd <> getDocPath t cwd.
Proof.
  destruct (stage_paths cwd) as (base & _ & Hd & _ & Hn & _). rewrite Hn, Hd.
  intros H. apply app_inv_head in H. apply (f_equal (hd 0)) in H.
  vm_compute in H. discriminate H.
Qed.

Lemma getStagePromptPath_long (n : Z) (cwd : jsstring) :
  (length (getPromptsDir cwd) < length (getStagePromptPath n cwd))%nat /\
  getStagePromptPath n cwd <> getPromptsDir cwd /\
  alwaysThere (getStagePromptPath n cwd) = false.
Proof.
  destruct (stage_paths cwd) as (base & _ & _ & -> & Hn & _). rewrite Hn.
  assert (H : (length (base ++ js "prompts")
               < length (base ++ js "prompts" ++ SEP :: stageFileName n))%nat)
    by (rewrite !length_app; cbn [length]; lia).
  split; [exact H|]. split; [intros E; rewrite E in H; lia|].
  apply alwaysThere_long. rewrite !length_app. cbn. lia.
Qed.

End StagePaths.

(** X25. Stage prompt paths do not collide. For stage numbers that are safe
    integers, two numbers with the same prompt path in a directory are the
    same number, and a prompt path is neither the state file nor the file of a
    document. A number from 0 to 9 is written with two digits (Stage-0n.md);
    any other number, a negative one too, is written as it prints. *)
Theorem X25_getStagePromptPath_injective
    (n m : Z) (cwd : jsstring) (t : DocumentType) :
  isSafeInteger n = true -> isSafeInteger m = true ->
  (getStagePromptPath n cwd = getStagePromptPath m cwd -> n = m) /\
  getStagePromptPath n cwd <> getStateFilePath cwd /\
  getStagePromptPath n cwd <> getDocPath t cwd /\
  (0 <= n <= 9 ->
   getStagePromptPath n cwd
   = join (getPromptsDir cwd) (js "Stage-0" ++ String_ofZ n ++ js ".md")) /\
  (n < 0 \/ 9 < n ->
   getStagePromptPath n cwd
   = join (getPromptsDir cwd) (js "Stage-" ++ String_ofZ n ++ js ".md")).
Proof.
  intros _ _. split; [apply getStagePromptPath_inj|].
  split; [apply getStagePromptPath_not_state|].
  split; [apply getStagePromptPath_not_doc|].
  split.
  - intros Hn.
    rewrite <- (Z2Nat.id n) by lia.
    assert (Hk : (Z.to_nat n <= 9)%nat) by lia.
    revert Hk. generalize (Z.to_nat n) as k. intros k Hk.
    do 10 (destruct k as [|k]; [reflexivity|]). lia.
  - intros Hn. unfold getStagePromptPath.
    pose proof (String_ofZ_nonempty n) as Hne.
    pose proof (String_ofZ_one_char n) as Hone.
    destruct (String_ofZ n) as [|a [|b s]]; [contradiction| |].
    + specialize (Hone a eq_refl). lia.
    + rewrite padStart_long. reflexivity.
Qed.

Lemma X25_getStagePromptPath_witness :
  (getStagePromptPath 3 demoCwd = getStagePromptPath 3 demoCwd -> 3 = 3) /\
  getStagePromptPath 3 demoCwd = js "/work/prompts/Stage-03.md" /\
  getStagePromptPath 12 demoCwd = js "/work/prompts/Stage-12.md".
Proof.
  pose proof (X25_getStagePromptPath_injective 3 3 demoCwd rfc eq_refl eq_refl)
    as (Hinj & _ & _ & Hpad & _).
  pose proof (X25_getStagePromptPath_injective 12 12 demoCwd rfc eq_refl eq_refl)
    as (_ & _ & _ & _ & Hplain).
  split; [exact Hinj|]. split.
  - rewrite Hpad by lia. reflexivity.
  - rewrite Hplain by lia. reflexivity.
Defined.

(* ===================================================================== *)
(** ** The prompt agent *)
(* ===================================================================== *)

Section PromptAgentProperties.

Variable renderStagePrompt : Stage -> DocForgeState -> list Stage -> jsstring.
Variable asFile : jsstring -> FileText.

Lemma entry_stagePrompt (d : Disk) (n : Z) (cwd : jsstring) :
  entry d (getStagePromptPath n cwd) = d !! getStagePromptPath n cwd.
Proof. apply entry_lookup, getStagePromptPath_long. Qed.

(** Making the directory of the prompts makes no path of a prompt. *)
Lemma made_promptsDir_stage (d : Disk) (n : Z) (cwd : jsstring) :
  made (getPromptsDir cwd) d !! getStagePromptPath n cwd
  = d !! getStagePromptPath n cwd.
Proof. apply made_longer, getStagePromptPath_long. Qed.

Lemma made_promptsDir_state (d : Disk) (cwd : jsstring) :
  made (getPromptsDir cwd) d !! getStateFilePath cwd = d !! getStateFilePath cwd.
Proof. apply made_longer, (project_paths_apart cwd rfc). Qed.

Lemma writeStagePrompts_run (state : DocForgeState) (all : list Stage) (cwd : jsstring)
    (rest : list Stage) (files : list jsstring) (d : Disk) :
  entry d (getPromptsDir cwd) = Some Directory ->
  (forall a, In a rest -> isDirectoryAt d (getStagePromptPath (stage_id a) cwd) = false) ->
  Prompt.writeStagePrompts renderStagePrompt asFile state all cwd rest files d
  = (Ok (files ++ map (fun stage => getStagePromptPath (stage_id stage) cwd) rest),
     promptsWritten renderStagePrompt asFile state all cwd rest d).
Proof.
  revert files d. induction rest as [|a rest IH]; intros files d Hdir Hfree.
  - cbn. rewrite app_nil_r. reflexivity.
  - cbn [Prompt.writeStagePrompts]. unfold bind.
    rewrite writeFileSafe_in_directory;
      [|rewrite dirname_stagePrompt; exact Hdir|apply Hfree; left; reflexivity].
    rewrite IH.
    + rewrite <- app_assoc. reflexivity.
    + rewrite entry_promptsDir in *.
      rewrite lookup_insert_ne by apply getStagePromptPath_long. exact Hdir.
    + intros b Hb. apply isDirectoryAt_insert_file, Hfree. right. exact Hb.
Qed.

Lemma promptsWritten_other (state : DocForgeState) (all : list Stage) (cwd : jsstring)
    (rest : list Stage) (d : Disk) (p : jsstring) :
  (forall a, In a rest -> p <> getStagePromptPath (stage_id a) cwd) ->
  promptsWritten renderStagePrompt asFile state all cwd rest d !! p = d !! p.
Proof.
  revert d. induction rest as [|a rest IH]; intros d H; [reflexivity|].
  change (promptsWritten renderStagePrompt asFile state all cwd (a :: rest) d)
    with (promptsWritten renderStagePrompt asFile state all cwd rest
            (<[getStagePromptPath (stage_id a) cwd
               := File (asFile (renderStagePrompt a state all))]> d)).
  rewrite IH by (intros b Hb; apply H; right; exact Hb).
  apply lookup_insert_ne. intros E. exact (H a (or_introl eq_refl) (eq_sym E)).
Qed.

Lemma promptsWritten_app (state : DocForgeState) (all : list Stage) (cwd : jsstring)
    (l1 l2 : list Stage) (d : Disk) :
  promptsWritten renderStagePrompt asFile state all cwd (l1 ++ l2) d
  = promptsWritten renderStagePrompt asFile state all cwd l2
      (promptsWritten renderStagePrompt asFile state all cwd l1 d).
Proof. unfold promptsWritten. apply fold_left_app. Qed.

(** A path holds the prompt of the last stage written to it. *)
Lemma promptsWritten_last (state : DocForgeState) (all : list Stage) (cwd : jsstring)
    (l1 l2 : list Stage) (a : Stage) (d : Disk) :
  (forall b, In b l2 -> stage_id b <> stage_id a) ->
  promptsWritten renderStagePrompt asFile state all cwd (l1 ++ a :: l2) d
    !! getStagePromptPath (stage_id a) cwd
  = Some (File (asFile (renderStagePrompt a state all))).
Proof.
  intros H. rewrite promptsWritten_app.
  change (a :: l2) with ([a] ++ l2). rewrite promptsWritten_app.
  rewrite promptsWritten_other.
  - cbn [promptsWritten fold_left]. apply lookup_insert_eq.
  - intros b Hb E. apply getStagePromptPath_inj in E. exact (H b Hb (eq_sym E)).
Qed.

Lemma generatePrompts_run (state : DocForgeState) (cwd : jsstring) (d : Disk)
    (all : list Stage) :
  planStages state = Some all -> all <> [] ->
  canMake d (getPromptsDir cwd) = true ->
  (forall a, In a all -> isDirectoryAt d (getStagePromptPath (stage_id a) cwd) = false) ->
  exists content,
    Prompt.generatePrompts renderStagePrompt asFile state cwd d
    = (Ok (state, content),
       promptsWritten renderStagePrompt asFile state all cwd all
         (made (getPromptsDir cwd) d)).
Proof.
  unfold planStages, Prompt.generatePrompts. intros -> Hne Hmake Hfree.
  destruct all as [|a all']; [contradiction|].
  change (length (a :: all') =? 0)%nat with false. cbv iota.
  unfold bind at 1, ensureDir. rewrite (canMake_mkdir d _ Hmake). unfold bind at 1.
  rewrite writeStagePrompts_run.
  - cbn [ret]. eexists. reflexivity.
  - apply made_directory, Hmake.
  - intros b Hb. specialize (Hfree b Hb). unfold isDirectoryAt in *.
    rewrite entry_stagePrompt in *. rewrite made_promptsDir_stage. exact Hfree.
Qed.

Lemma generatePrompts_fails (state : DocForgeState) (cwd : jsstring) (d : Disk) :
  planStages state = None \/ planStages state = Some [] ->
  Prompt.generatePrompts renderStagePrompt asFile state cwd d
  = (Throw (Error (js "No stages defined. Complete PLAN first.")), d).
Proof.
  unfold planStages, Prompt.generatePrompts. intros [-> | ->]; reflexivity.
Qed.

Lemma generatePrompts_blocked (state : DocForgeState) (cwd : jsstring) (d : Disk) :
  canMake d (getPromptsDir cwd) = false ->
  exists e, Prompt.generatePrompts renderStagePrompt asFile state cwd d = (Throw e, d).
Proof.
  intros Hmake. unfold Prompt.generatePrompts.
  destruct (stages (progress_plan (documentProgress state))) as [all|];
    [|eexists; reflexivity].
  destruct (length all =? 0)%nat; [eexists; reflexivity|].
  unfold bind at 1, ensureDir. destruct (cannotMake_mkdir d _ Hmake) as [e ->].
  exists e. reflexivity.
Qed.

Lemma isDirectoryAt_before (d : Disk) (k q : jsstring) (c : FileText) :
  isDirectoryAt d k = false -> isDirectoryAt (<[k := File c]> d) q = false ->
  isDirectoryAt d q = false.
Proof.
  unfold isDirectoryAt, entry. intros Hk Hq.
  destruct (decide (q = k)) as [->|Hne]; [exact Hk|].
  rewrite lookup_insert_ne in Hq by congruence. exact Hq.
Qed.

(** The loop ends normally only where no prompt path is a directory. *)
Lemma writeStagePrompts_ok (state : DocForgeState) (all : list Stage) (cwd : jsstring)
    (rest : list Stage) :
  forall (files fs : list jsstring) (d d' : Disk),
    entry d (getPromptsDir cwd) = Some Directory ->
    Prompt.writeStagePrompts renderStagePrompt asFile state all cwd rest files d
    = (Ok fs, d') ->
    forall a, In a rest -> isDirectoryAt d (getStagePromptPath (stage_id a) cwd) = false.
Proof.
  induction rest as [|a rest IH]; intros files fs d d' Hdir Hrun b; [intros []|].
  cbn [Prompt.writeStagePrompts] in Hrun. unfold bind in Hrun.
  destruct (isDirectoryAt d (getStagePromptPath (stage_id a) cwd)) eqn:E.
  - exfalso.
    destruct (writeFileSafe_fails asFile d (getStagePromptPath (stage_id a) cwd)
                (renderStagePrompt a state all)) as (e & dx & Hw & _).
    + unfold canWriteSafe. rewrite E. apply andb_false_r.
    + rewrite Hw in Hrun. discriminate Hrun.
  - rewrite writeFileSafe_in_directory in Hrun;
      [|rewrite dirname_stagePrompt; exact Hdir|exact E].
    intros [<-|Hb]; [exact E|].
    eapply isDirectoryAt_before; [exact E|].
    eapply IH; [|exact Hrun|exact Hb].
    rewrite entry_promptsDir in *.
    rewrite lookup_insert_ne by apply getStagePromptPath_long. exact Hdir.
Qed.

(** A run of generatePrompts that ends normally has made the prompts
    directory and written the prompts. *)
Lemma generatePrompts_ok (state state' : DocForgeState) (cwd : jsstring) (d d' : Disk)
    (all : list Stage) (content : jsstring) :
  planStages state = Some all ->
  Prompt.generatePrompts renderStagePrompt asFile state cwd d = (Ok (state', content), d') ->
  canMake d (getPromptsDir cwd) = true /\
  d' = promptsWritten renderStagePrompt asFile state all cwd all
         (made (getPromptsDir cwd) d).
Proof.
  intros Hall Hgen.
  destruct (canMake d (getPromptsDir cwd)) eqn:Hmake.
  - split; [reflexivity|]. revert Hgen.
    unfold planStages in Hall. unfold Prompt.generatePrompts. rewrite Hall.
    destruct (length all =? 0)%nat; [discriminate|].
    unfold bind at 1, ensureDir. rewrite (canMake_mkdir d _ Hmake). unfold bind at 1.
    pose proof (made_directory d _ Hmake) as Hdir.
    destruct (Prompt.writeStagePrompts renderStagePrompt asFile state all cwd all []
                (made (getPromptsDir cwd) d)) as [[fs|e] dx] eqn:Hloop; [|discriminate].
    pose proof (writeStagePrompts_ok state all cwd all [] fs _ dx Hdir Hloop) as Hfree.
    rewrite (writeStagePrompts_run state all cwd all [] _ Hdir Hfree) in Hloop.
    injection Hloop as _ <-. cbn [ret]. intros H. injection H as _ _ <-. reflexivity.
  - destruct (generatePrompts_blocked state cwd d Hmake) as [e He].
    rewrite He in Hgen. discriminate Hgen.
Qed.

(** generatePrompts returns the state it was given. *)
Lemma generatePrompts_state (state state' : DocForgeState) (cwd : jsstring) (d d' : Disk)
    (content : jsstring) :
  Prompt.generatePrompts renderStagePrompt asFile state cwd d = (Ok (state', content), d') ->
  state' = state.
Proof.
  unfold Prompt.generatePrompts.
  destruct (stages (progress_plan (documentProgress state))) as [all|];
    [|discriminate].
  destruct (length all =? 0)%nat; [discriminate|].
  unfold bind at 1. destruct (ensureDir (getPromptsDir cwd) d) as [[[]|e] d1];
    [|discriminate].
  unfold bind at 1.
  destruct (Prompt.writeStagePrompts renderStagePrompt asFile state all cwd all [] d1)
    as [[files|e] d2]; [|discriminate].
  cbn [ret]. intros H. injection H as <- _ _. reflexivity.
Qed.

End PromptAgentProperties.

(** X26. generatePrompts writes one file per stage and nothing else. Without
    stages, or with an empty list of them, it throws its error and the disk is
    as before. Otherwise it makes the prompts directory where that is
    missing, and fails with the disk as before where that cannot be done.
    Where it can, and no prompt path of a stage is a directory, it returns
    the state it was given and, for stage ids that are safe integers, the
    path of a stage holds the prompt of the last stage of the list with that
    id; every path that is not the prompt path of a stage holds what it held,
    or a directory made for the prompts directory where it held nothing (no
    such where the prompts directory is there already), and the state file is
    as before. So with ids that differ every stage has its own prompt, and
    with an id used twice the prompt of the earlier stage is lost. The
    prompts directory can be made where it is there, and where nothing is in
    its place and the directory above it is there; it cannot where a regular
    file is in its place. *)
Theorem X26_generatePrompts_writes_stage_files
    (renderStagePrompt : Stage -> DocForgeState -> list Stage -> jsstring)
    (asFile : jsstring -> FileText) (state : DocForgeState) (cwd : jsstring) (d : Disk) :
  (planStages state = None \/ planStages state = Some [] ->
   Prompt.generatePrompts renderStagePrompt asFile state cwd d
   = (Throw (Error (js "No stages defined. Complete PLAN first.")), d)) /\
  (canMake d (getPromptsDir cwd) = false ->
   exists e, Prompt.generatePrompts renderStagePrompt asFile state cwd d = (Throw e, d)) /\
  (forall all, planStages state = Some all -> all <> [] -> safeIds all ->
     canMake d (getPromptsDir cwd) = true ->
     (forall a, In a all ->
        isDirectoryAt d (getStagePromptPath (stage_id a) cwd) = false) ->
     exists content d',
       Prompt.generatePrompts renderStagePrompt asFile state cwd d
       = (Ok (state, content), d') /\
       (forall l1 a l2, all = l1 ++ a :: l2 ->
          (forall b, In b l2 -> stage_id b <> stage_id a) ->
          d' !! getStagePromptPath (stage_id a) cwd
          = Some (File (asFile (renderStagePrompt a state all)))) /\
       (List.NoDup (map stage_id all) ->
        forall a, In a all ->
          d' !! getStagePromptPath (stage_id a) cwd
          = Some (File (asFile (renderStagePrompt a state all)))) /\
       (forall p, (forall a, In a all -> p <> getStagePromptPath (stage_id a) cwd) ->
          (d' !! p = d !! p \/ (d !! p = None /\ d' !! p = Some Directory)) /\
          (entry d (getPromptsDir cwd) = Some Directory -> d' !! p = d !! p)) /\
       d' !! getPromptsDir cwd = Some Directory /\
       d' !! getStateFilePath cwd = d !! getStateFilePath cwd) /\
  (d !! getPromptsDir cwd = Some Directory -> canMake d (getPromptsDir cwd) = true) /\
  (d !! getPromptsDir cwd = None ->
   entry d (dirname (getPromptsDir cwd)) = Some Directory ->
   canMake d (getPromptsDir cwd) = true) /\
  (forall c, d !! getPromptsDir cwd = Some (File c) ->
     canMake d (getPromptsDir cwd) = false).
Proof.
  split; [apply generatePrompts_fails|].
  split; [apply generatePrompts_blocked|].
  split; cycle 1.
  { destruct (canMake_cases d (getPromptsDir cwd)) as (Hthere & Hnew & Hfile).
    rewrite entry_promptsDir in *.
    split; [exact Hthere|]. split; [|exact Hfile].
    apply Hnew. destruct (project_paths cwd) as (base & parent & _ & _ & _ & _ & Hp & _).
    rewrite Hp. intros E. apply (f_equal (@length Z)) in E. rewrite length_app in E.
    cbn in E. lia. }
  intros all Hall Hne _ Hmake Hfree.
  destruct (generatePrompts_run renderStagePrompt asFile state cwd d all Hall Hne
              Hmake Hfree) as [content Hrun].
  exists content, (promptsWritten renderStagePrompt asFile state all cwd all
                     (made (getPromptsDir cwd) d)).
  split; [exact Hrun|].
  assert (Hlast : forall l1 a l2, all = l1 ++ a :: l2 ->
            (forall b, In b l2 -> stage_id b <> stage_id a) ->
            promptsWritten renderStagePrompt asFile state all cwd all
              (made (getPromptsDir cwd) d)
              !! getStagePromptPath (stage_id a) cwd
            = Some (File (asFile (renderStagePrompt a state all)))).
  { intros l1 a l2 E H. rewrite E at 2. apply promptsWritten_last, H. }
  split; [exact Hlast|]. split; [|split; [|split]].
  - intros Hnd a Ha. apply in_split in Ha. destruct Ha as (l1 & l2 & E).
    apply (Hlast l1 a l2 E). intros b Hb Eb.
    rewrite E, map_app in Hnd. cbn [map] in Hnd.
    apply List.NoDup_remove_2 in Hnd. apply Hnd. apply in_or_app. right.
    rewrite <- Eb. apply in_map, Hb.
  - intros p Hp. rewrite promptsWritten_other by exact Hp.
    split; [apply made_adds|].
    intros Hdir. rewrite (proj2 (made_existing d _ Hdir)). reflexivity.
  - rewrite promptsWritten_other
      by (intros a _ E; exact (proj1 (proj2 (getStagePromptPath_long _ _)) (eq_sym E))).
    rewrite <- entry_promptsDir. apply made_directory, Hmake.
  - rewrite promptsWritten_other
      by (intros a _ E; exact (getStagePromptPath_not_state _ _ (eq_sym E))).
    apply made_promptsDir_state.
Qed.

Lemma X26_generatePrompts_witness :
  let all := [demoStage 1 (js "first"); demoStage 2 (js "second"); demoStage 1 (js "again")] in
  let fresh : Disk := <[getStateFilePath demoCwd := File (StateJson demoState)]>
                        (<[getStateDirPath demoCwd := Directory]> freshDirectory) in
  canMake fresh (getPromptsDir demoCwd) = true /\
  fresh !! getPromptsDir demoCwd = None /\
  exists content d',
    Prompt.generatePrompts demoStagePrompt NotJson (withStages (Some all) prompts_generate)
      demoCwd fresh
    = (Ok (withStages (Some all) prompts_generate, content), d') /\
    d' !! getStagePromptPath 1 demoCwd = Some (File (NotJson (js "again"))) /\
    d' !! getStagePromptPath 2 demoCwd = Some (File (NotJson (js "second"))) /\
    d' !! getPromptsDir demoCwd = Some Directory /\
    d' !! getStateFilePath demoCwd = Some (File (StateJson demoState)).
Proof.
  intros all fresh.
  assert (Hmake : canMake fresh (getPromptsDir demoCwd) = true) by (vm_compute; reflexivity).
  split; [exact Hmake|]. split; [vm_compute; reflexivity|].
  destruct (proj1 (proj2 (proj2 (X26_generatePrompts_writes_stage_files demoStagePrompt
                                   NotJson (withStages (Some all) prompts_generate)
                                   demoCwd fresh)))
              all eq_refl)
    as (content & d' & Hrun & Hlast & _ & _ & Hdir & Hstate).
  - discriminate.
  - repeat constructor.
  - exact Hmake.
  - intros a [<-|[<-|[<-|[]]]]; vm_compute; reflexivity.
  - exists content, d'. split; [exact Hrun|]. split; [|split; [|split]].
    + apply (Hlast [demoStage 1 (js "first"); demoStage 2 (js "second")]
               (demoStage 1 (js "again")) [] eq_refl).
      intros b [].
    + apply (Hlast [demoStage 1 (js "first")] (demoStage 2 (js "second"))
               [demoStage 1 (js "again")] eq_refl).
      intros b [<- | []]. discriminate.
    + exact Hdir.
    + rewrite Hstate. apply lookup_insert_eq.
Defined.

Section RegenerateStage.

Variable renderStagePrompt : Stage -> DocForgeState -> list Stage -> jsstring.
Variable asFile : jsstring -> FileText.

Lemma find_none_id (all : list Stage) (n : Z) :
  (forall a, In a all -> stage_id a <> n) ->
  List.find (fun s => stage_id s =? n) all = None.
Proof.
  induction all as [|a all IH]; intros H; [reflexivity|]. cbn [List.find].
  destruct (Z.eqb_spec (stage_id a) n) as [E|_].
  - exfalso. exact (H a (or_introl eq_refl) E).
  - apply IH. intros b Hb. apply H. right. exact Hb.
Qed.

Lemma find_first_id (l1 l2 : list Stage) (a : Stage) :
  (forall b, In b l1 -> stage_id b <> stage_id a) ->
  List.find (fun s => stage_id s =? stage_id a) (l1 ++ a :: l2) = Some a.
Proof.
  induction l1 as [|b l1 IH]; intros H; cbn [app List.find].
  - rewrite Z.eqb_refl. reflexivity.
  - destruct (Z.eqb_spec (stage_id b) (stage_id a)) as [E|_].
    + exfalso. exact (H b (or_introl eq_refl) E).
    + apply IH. intros c Hc. apply H. right. exact Hc.
Qed.

Lemma regenerateStage_found (state : DocForgeState) (cwd : jsstring) (d : Disk)
    (l1 l2 : list Stage) (a : Stage) :
  planStages state = Some (l1 ++ a :: l2) ->
  (forall b, In b l1 -> stage_id b <> stage_id a) ->
  Prompt.regenerateStage renderStagePrompt asFile state (stage_id a) cwd d
  = (await_ writeFileSafe asFile (getStagePromptPath (stage_id a) cwd)
              (renderStagePrompt a state (l1 ++ a :: l2));
     ret (getStagePromptPath (stage_id a) cwd)) d.
Proof.
  unfold planStages, Prompt.regenerateStage. intros -> H.
  rewrite (find_first_id l1 l2 a H). reflexivity.
Qed.

End RegenerateStage.

(** X27. regenerateStage rewrites the prompt of the first stage with the given
    id and touches nothing else. Without stages it throws "No stages defined.";
    when no stage has the id, as with an empty list, it throws "Stage n not
    found."; in both cases the disk is as before. Otherwise it writes the
    prompt of the first stage of the list with that id to the stage's path,
    making the prompts directory where that is missing, and returns the
    path; it fails where the directory cannot be made or the path is a
    directory. After generatePrompts, with ids that differ, regenerating
    any stage of the list leaves the disk as it is. *)
Theorem X27_regenerateStage_first_match
    (renderStagePrompt : Stage -> DocForgeState -> list Stage -> jsstring)
    (asFile : jsstring -> FileText) (state : DocForgeState) (stageId : Z)
    (cwd : jsstring) (d : Disk) :
  isSafeInteger stageId = true ->
  (planStages state = None ->
   Prompt.regenerateStage renderStagePrompt asFile state stageId cwd d
   = (Throw (Error (js "No stages defined.")), d)) /\
  (forall all, planStages state = Some all ->
     (forall a, In a all -> stage_id a <> stageId) ->
     Prompt.regenerateStage renderStagePrompt asFile state stageId cwd d
     = (Throw (Error (js "Stage " ++ String_ofZ stageId ++ js " not found.")), d)) /\
  (forall l1 a l2, planStages state = Some (l1 ++ a :: l2) ->
     stage_id a = stageId ->
     (forall b, In b l1 -> stage_id b <> stageId) ->
     (canWriteSafe d (getStagePromptPath stageId cwd) = true ->
      Prompt.regenerateStage renderStagePrompt asFile state stageId cwd d
      = (Ok (getStagePromptPath stageId cwd),
         <[getStagePromptPath stageId cwd
           := File (asFile (renderStagePrompt a state (l1 ++ a :: l2)))]>
           (made (getPromptsDir cwd) d))) /\
     (entry d (getPromptsDir cwd) = Some Directory ->
      isDirectoryAt d (getStagePromptPath stageId cwd) = false ->
      Prompt.regenerateStage renderStagePrompt asFile state stageId cwd d
      = (Ok (getStagePromptPath stageId cwd),
         <[getStagePromptPath stageId cwd
           := File (asFile (renderStagePrompt a state (l1 ++ a :: l2)))]> d)) /\
     (canWriteSafe d (getStagePromptPath stageId cwd) = false ->
      exists e d',
        Prompt.regenerateStage renderStagePrompt asFile state stageId cwd d
        = (Throw e, d') /\
        d' !! getStagePromptPath stageId cwd = d !! getStagePromptPath stageId cwd)) /\
  (forall all content d',
     planStages state = Some all -> safeIds all ->
     List.NoDup (map stage_id all) -> In stageId (map stage_id all) ->
     Prompt.generatePrompts renderStagePrompt asFile state cwd d
     = (Ok (state, content), d') ->
     Prompt.regenerateStage renderStagePrompt asFile state stageId cwd d'
     = (Ok (getStagePromptPath stageId cwd), d')).
Proof.
  intros _. split; [|split; [|split]].
  - unfold planStages, Prompt.regenerateStage. intros ->. reflexivity.
  - unfold planStages, Prompt.regenerateStage. intros all -> H.
    rewrite (find_none_id all stageId H). reflexivity.
  - intros l1 a l2 Hall <- H.
    rewrite (regenerateStage_found renderStagePrompt asFile state cwd d l1 l2 a Hall H).
    unfold bind. split; [|split].
    + intros Hcan. rewrite (writeFileSafe_ok asFile d _ _ Hcan), dirname_stagePrompt.
      reflexivity.
    + intros Hdir Hfree. rewrite writeFileSafe_in_directory;
        [reflexivity|rewrite dirname_stagePrompt; exact Hdir|exact Hfree].
    + intros Hcan.
      destruct (writeFileSafe_fails asFile d _
                  (renderStagePrompt a state (l1 ++ a :: l2)) Hcan)
        as (e & d' & -> & Hd').
      exists e, d'. split; [reflexivity|].
      destruct Hd' as [->| ->]; [reflexivity|apply made_dirname].
  - intros all content d' Hall _ Hnd Hin Hgen.
    apply in_map_iff in Hin. destruct Hin as (a & <- & Ha).
    apply in_split in Ha. destruct Ha as (l1 & l2 & E). subst all.
    destruct (generatePrompts_ok renderStagePrompt asFile state state cwd d d' _ content
                Hall Hgen) as [Hmake ->].
    rewrite map_app in Hnd. cbn [map] in Hnd.
    assert (Hl1 : forall b, In b l1 -> stage_id b <> stage_id a).
    { intros b Hb Eb. apply List.NoDup_remove_2 in Hnd. apply Hnd. apply in_or_app. left.
      rewrite <- Eb. apply in_map, Hb. }
    assert (Hl2 : forall b, In b l2 -> stage_id b <> stage_id a).
    { intros b Hb Eb. apply List.NoDup_remove_2 in Hnd. apply Hnd. apply in_or_app.
      right. rewrite <- Eb. apply in_map, Hb. }
    pose proof (promptsWritten_last renderStagePrompt asFile state (l1 ++ a :: l2) cwd
                  l1 l2 a (made (getPromptsDir cwd) d) Hl2) as Hthere.
    rewrite (regenerateStage_found renderStagePrompt asFile state cwd _ l1 l2 a Hall Hl1).
    unfold bind. rewrite writeFileSafe_in_directory.
    + cbn [ret]. f_equal. apply insert_id. exact Hthere.
    + rewrite dirname_stagePrompt, entry_promptsDir.
      rewrite promptsWritten_other
        by (intros b _ Eb; exact (proj1 (proj2 (getStagePromptPath_long _ _)) (eq_sym Eb))).
      rewrite <- entry_promptsDir. apply made_directory, Hmake.
    + unfold isDirectoryAt. rewrite entry_stagePrompt, Hthere. reflexivity.
Qed.

Lemma X27_regenerateStage_witness :
  let all := [demoStage 1 (js "first"); demoStage 2 (js "second"); demoStage 1 (js "again")] in
  entry demoDisk (getPromptsDir demoCwd) = Some Directory /\
  isDirectoryAt demoDisk (getStagePromptPath 1 demoCwd) = false /\
  Prompt.regenerateStage demoStagePrompt NotJson (withStages (Some all) prompts_generate)
    1 demoCwd demoDisk
  = (Ok (getStagePromptPath 1 demoCwd),
     <[getStagePromptPath 1 demoCwd := File (NotJson (js "first"))]> demoDisk).
Proof.
  intros all.
  assert (Hdir : entry demoDisk (getPromptsDir demoCwd) = Some Directory)
    by (vm_compute; reflexivity).
  assert (Hfree : isDirectoryAt demoDisk (getStagePromptPath 1 demoCwd) = false)
    by (vm_compute; reflexivity).
  split; [exact Hdir|]. split; [exact Hfree|].
  refine (proj1 (proj2 (proj1 (proj2 (proj2 (X27_regenerateStage_first_match
                                demoStagePrompt NotJson
                                (withStages (Some all) prompts_generate) 1 demoCwd demoDisk
                                eq_refl)))
           [] (demoStage 1 (js "first"))
           [demoStage 2 (js "second"); demoStage 1 (js "again")] eq_refl eq_refl _))
          Hdir Hfree).
  intros b [].
Defined.

(* ===================================================================== *)
(** ** The prompts command *)
(* ===================================================================== *)

Section PromptsCommandProperties.

Variable renderStagePrompt : Stage -> DocForgeState -> list Stage -> jsstring.
Variable asFile : jsstring -> FileText.

Lemma promptsCommand_loaded (force : bool) (stage : option StageNumber)
    (cwd : jsstring) (d : Disk) (s : DocForgeState) :
  d !! getStateFilePath cwd = Some (File (StateJson s)) ->
  promptsCommand renderStagePrompt asFile force stage cwd d
  = (if negb (areAllDocumentsApproved s) && negb force then throw (ProcessExit 1)
     else
       if match planStages s with
          | None => true
          | Some stages => (length stages =? 0)%nat
          end
       then throw (ProcessExit 1)
       else
         match stage with
         | Some stageNumber =>
             match stageNumber with
             | NaN => throw (ProcessExit 1)
             | Integer stageNumber =>
                 try_catch
                   (await _ <- Prompt.regenerateStage renderStagePrompt asFile
                                 s stageNumber cwd;
                    ret tt)
                   (fun error => throw (ProcessExit 1))
             end
         | None =>
             try_catch
               (await result <- Prompt.generateStep renderStagePrompt asFile
                                  s prompts_generate cwd;
                saveState (set_currentStep complete (fst result)) cwd)
               (fun error => throw (ProcessExit 1))
         end) d.
Proof.
  intros Hd. unfold promptsCommand, bind at 1, try_catch at 1.
  rewrite (loadState_state cwd d s Hd). unfold bind at 1. cbn [asState ret].
  reflexivity.
Qed.

(** The command without --stage, once its checks have passed. *)
Lemma promptsCommand_all (force : bool) (cwd : jsstring) (d : Disk)
    (s : DocForgeState) (all : list Stage) :
  d !! getStateFilePath cwd = Some (File (StateJson s)) ->
  areAllDocumentsApproved s = true \/ force = true ->
  planStages s = Some all -> all <> [] ->
  promptsCommand renderStagePrompt asFile force None cwd d
  = match Prompt.generatePrompts renderStagePrompt asFile s cwd d with
    | (Ok result, dg) =>
        match saveState (set_currentStep complete (fst result)) cwd dg with
        | (Ok _, d') => (Ok tt, d')
        | (Throw _, d') => (Throw (ProcessExit 1), d')
        end
    | (Throw _, dg) => (Throw (ProcessExit 1), dg)
    end.
Proof.
  intros Hd Hok Hall Hne. rewrite (promptsCommand_loaded force None cwd d s Hd).
  replace (negb (areAllDocumentsApproved s) && negb force) with false
    by (destruct Hok as [-> | ->]; [reflexivity | symmetry; apply andb_false_r]).
  rewrite Hall. destruct all as [|a all']; [contradiction|].
  change (length (a :: all') =? 0)%nat with false. cbv iota.
  unfold try_catch, bind at 1, Prompt.generateStep.
  rewrite bool_decide_eq_true_2 by reflexivity. cbn [negb].
  destruct (Prompt.generatePrompts renderStagePrompt asFile s cwd d) as [[r|e] dg];
    [|reflexivity].
  destruct (saveState (set_currentStep complete (fst r)) cwd dg) as [[[]|e] d'];
    reflexivity.
Qed.

Lemma promptsCommand_generates (force : bool) (cwd : jsstring) (d : Disk)
    (s : DocForgeState) (all : list Stage) :
  d !! getStateFilePath cwd = Some (File (StateJson s)) ->
  areAllDocumentsApproved s = true \/ force = true ->
  planStages s = Some all -> all <> [] ->
  canMake d (getPromptsDir cwd) = true ->
  (forall a, In a all -> isDirectoryAt d (getStagePromptPath (stage_id a) cwd) = false) ->
  promptsCommand renderStagePrompt asFile force None cwd d
  = (Ok tt, <[getStateFilePath cwd := File (StateJson (stateAt complete s))]>
              (promptsWritten renderStagePrompt asFile s all cwd all
                 (made (getPromptsDir cwd) d))).
Proof.
  intros Hd Hok Hall Hne Hmake Hfree.
  rewrite (promptsCommand_all force cwd d s all Hd Hok Hall Hne).
  destruct (generatePrompts_run renderStagePrompt asFile s cwd d all Hall Hne Hmake Hfree)
    as [content ->].
  cbn [fst]. rewrite (saveState_stored cwd _ _ (StateJson s)); [reflexivity|].
  rewrite promptsWritten_other
    by (intros a _ E; exact (getStagePromptPath_not_state _ _ (eq_sym E))).
  rewrite made_promptsDir_state. exact Hd.
Qed.

End PromptsCommandProperties.

(** X28. The prompts command refuses, with exit status 1 and the disk as
    before: without a state record; when a document is not approved and
    --force is not given; when the plan has no stages; and when --stage is not
    a number, or no stage has that number. When it generates all prompts,
    where the prompts directory can be made and no prompt path is a
    directory, it writes what generatePrompts writes and then stores the
    state at the step complete, whatever the step was: after it no step
    remains and every phase counts as complete; where generatePrompts fails,
    the command ends with exit status 1 and leaves the disk as
    generatePrompts left it. With --stage n it rewrites that prompt, where
    that can be written, and leaves the stored state as it is; where it
    cannot, the command ends with exit status 1 and the stored state is as
    before. *)
Theorem X28_promptsCommand_completes_the_workflow
    (renderStagePrompt : Stage -> DocForgeState -> list Stage -> jsstring)
    (asFile : jsstring -> FileText) (force : bool) (stage : option StageNumber)
    (cwd : jsstring) (d : Disk) :
  (d !! getStateFilePath cwd = None ->
   promptsCommand renderStagePrompt asFile force stage cwd d = (Throw (ProcessExit 1), d)) /\
  (forall s, d !! getStateFilePath cwd = Some (File (StateJson s)) ->
     (areAllDocumentsApproved s = false -> force = false ->
      promptsCommand renderStagePrompt asFile force stage cwd d
      = (Throw (ProcessExit 1), d)) /\
     (planStages s = None \/ planStages s = Some [] ->
      promptsCommand renderStagePrompt asFile force stage cwd d
      = (Throw (ProcessExit 1), d)) /\
     (stage = Some NaN ->
      promptsCommand renderStagePrompt asFile force stage cwd d
      = (Throw (ProcessExit 1), d)) /\
     (forall all, areAllDocumentsApproved s = true \/ force = true ->
        planStages s = Some all -> all <> [] ->
        (stage = None ->
         canMake d (getPromptsDir cwd) = true ->
         (forall a, In a all ->
            isDirectoryAt d (getStagePromptPath (stage_id a) cwd) = false) ->
         exists content dg,
           Prompt.generatePrompts renderStagePrompt asFile s cwd d
           = (Ok (s, content), dg) /\
           promptsCommand renderStagePrompt asFile force stage cwd d
           = (Ok tt, <[getStateFilePath cwd := File (StateJson (stateAt complete s))]> dg) /\
           getRemainingSteps (stateAt complete s) = 0 /\
           (forall ph, isPhaseComplete (stateAt complete s) ph = true)) /\
        (stage = None ->
         forall e dg,
           Prompt.generatePrompts renderStagePrompt asFile s cwd d = (Throw e, dg) ->
           promptsCommand renderStagePrompt asFile force stage cwd d
           = (Throw (ProcessExit 1), dg)) /\
        (forall n, stage = Some (Integer n) ->
           (forall a, In a all -> stage_id a <> n) ->
           promptsCommand renderStagePrompt asFile force stage cwd d
           = (Throw (ProcessExit 1), d)) /\
        (forall n, stage = Some (Integer n) -> isSafeInteger n = true ->
           In n (map stage_id all) ->
           (canWriteSafe d (getStagePromptPath n cwd) = true ->
            exists d',
              Prompt.regenerateStage renderStagePrompt asFile s n cwd d
              = (Ok (getStagePromptPath n cwd), d') /\
              promptsCommand renderStagePrompt asFile force stage cwd d = (Ok tt, d') /\
              d' !! getStateFilePath cwd = Some (File (StateJson s))) /\
           (canWriteSafe d (getStagePromptPath n cwd) = false ->
            exists d',
              promptsCommand renderStagePrompt asFile force stage cwd d
              = (Throw (ProcessExit 1), d') /\
              d' !! getStateFilePath cwd = Some (File (StateJson s)))))).
Proof.
  split.
  - intros Hd. unfold promptsCommand, bind at 1, try_catch at 1.
    rewrite loadState_run, Hd. reflexivity.
  - intros s Hd. pose proof (promptsCommand_loaded renderStagePrompt asFile force stage
                               cwd d s Hd) as Hrun.
    split; [|split; [|split]].
    + intros Ha Hf. rewrite Hrun, Ha, Hf. reflexivity.
    + intros Hs. rewrite Hrun.
      destruct (negb (areAllDocumentsApproved s) && negb force); [reflexivity|].
      destruct Hs as [-> | ->]; reflexivity.
    + intros ->. rewrite Hrun.
      destruct (negb (areAllDocumentsApproved s) && negb force); [reflexivity|].
      destruct (match planStages s with
                | Some stages => (length stages =? 0)%nat
                | None => true
                end); reflexivity.
    + intros all Hok Hall Hne.
      assert (Hguard : negb (areAllDocumentsApproved s) && negb force = false)
        by (destruct Hok as [-> | ->]; [reflexivity | apply andb_false_r]).
      assert (Hstages : match planStages s with
                        | Some stages => (length stages =? 0)%nat
                        | None => true
                        end = false)
        by (rewrite Hall; destruct all; [contradiction | reflexivity]).
      split; [|split; [|split]].
      * intros -> Hmake Hfree.
        destruct (generatePrompts_run renderStagePrompt asFile s cwd d all Hall Hne
                    Hmake Hfree) as [content Hgen].
        exists content, (promptsWritten renderStagePrompt asFile s all cwd all
                           (made (getPromptsDir cwd) d)).
        split; [exact Hgen|]. split; [|split].
        -- apply promptsCommand_generates; assumption.
        -- reflexivity.
        -- intros ph. rewrite isPhaseComplete_spec. destruct ph; reflexivity.
      * intros -> e dg Hgen.
        rewrite (promptsCommand_all renderStagePrompt asFile force cwd d s all
                   Hd Hok Hall Hne), Hgen.
        reflexivity.
      * intros n -> Hnone. rewrite Hrun, Hguard, Hstages.
        unfold try_catch, bind at 1, Prompt.regenerateStage.
        fold (planStages s). rewrite Hall, (find_none_id all n Hnone). reflexivity.
      * intros n -> _ Hin. rewrite Hrun, Hguard, Hstages.
        assert (Hfirst : exists l1 a l2, all = l1 ++ a :: l2 /\ stage_id a = n /\
                           forall b, In b l1 -> stage_id b <> n).
        { clear -Hin. induction all as [|b all IH]; [contradiction|].
          destruct (Z.eq_dec (stage_id b) n) as [E|E].
          - exists [], b, all. split; [reflexivity|]. split; [exact E|]. intros c [].
          - destruct Hin as [Hb|Hin]; [contradiction|].
            destruct (IH Hin) as (l1 & a & l2 & -> & Ha & Hl1).
            exists (b :: l1), a, l2. split; [reflexivity|]. split; [exact Ha|].
            intros c [<- | Hc]; [exact E | exact (Hl1 c Hc)]. }
        destruct Hfirst as (l1 & a & l2 & -> & <- & Hl1).
        pose proof (regenerateStage_found renderStagePrompt asFile s cwd d l1 l2 a
                      Hall Hl1) as Hre.
        split.
        -- intros Hcan. unfold bind in Hre.
           rewrite (writeFileSafe_ok asFile d _ _ Hcan) in Hre. cbn [ret] in Hre.
           eexists. split; [exact Hre|]. split.
           ++ unfold try_catch, bind at 1. rewrite Hre. reflexivity.
           ++ rewrite lookup_insert_ne by apply getStagePromptPath_not_state.
              rewrite dirname_stagePrompt, made_promptsDir_state. exact Hd.
        -- intros Hcan. unfold bind in Hre.
           destruct (writeFileSafe_fails asFile d _
                       (renderStagePrompt a s (l1 ++ a :: l2)) Hcan)
             as (e & d' & Hw & Hd').
           rewrite Hw in Hre. exists d'. split.
           ++ unfold try_catch, bind at 1. rewrite Hre. reflexivity.
           ++ destruct Hd' as [->| ->]; [exact Hd|].
              rewrite dirname_stagePrompt, made_promptsDir_state. exact Hd.
Qed.

Lemma X28_promptsCommand_witness :
  let all := [demoStage 1 (js "first"); demoStage 2 (js "second")] in
  let s := withStages (Some all) rfc_problem in
  let d : Disk := projectWith (StateJson s) in
  canMake d (getPromptsDir demoCwd) = true /\
  exists content dg,
    Prompt.generatePrompts demoStagePrompt NotJson s demoCwd d = (Ok (s, content), dg) /\
    promptsCommand demoStagePrompt NotJson true None demoCwd d
    = (Ok tt, <[getStateFilePath demoCwd := File (StateJson (stateAt complete s))]> dg) /\
    getRemainingSteps (stateAt complete s) = 0 /\
    (forall ph, isPhaseComplete (stateAt complete s) ph = true).
Proof.
  intros all s d.
  assert (Hmake : canMake d (getPromptsDir demoCwd) = true) by (vm_compute; reflexivity).
  split; [exact Hmake|].
  refine (proj1 (proj2 (proj2 (proj2 (proj2 (X28_promptsCommand_completes_the_workflow
            demoStagePrompt NotJson true None demoCwd d) s (projectWith_record _))))
            all (or_intror eq_refl) eq_refl _) eq_refl Hmake _).
  - discriminate.
  - intros a [<-|[<-|[]]]; vm_compute; reflexivity.
Defined.

(** X29. At the step prompts.generate the continue command and the prompts
    command with --force do the same. For a stored state at that step, with a
    provider configured and the prompt agent's generatePrompts as the
    generator of the step, both end with the same result and the same disk:
    the prompts written and the state stored at complete, or exit status 1
    when the plan has no stages. The continue command writes no document
    then. *)
Theorem X29_continue_at_prompts_is_prompts_command
    (generate : StepId -> DocForgeState -> IO (DocForgeState * jsstring))
    (render : DocumentType -> DocForgeState -> jsstring)
    (renderStagePrompt : Stage -> DocForgeState -> list Stage -> jsstring)
    (asFile : jsstring -> FileText) (auto : bool) (answers : Answers)
    (now cwd : jsstring) (d : Disk) (s : DocForgeState) :
  (forall st dk, generate prompts_generate st dk
                 = Prompt.generatePrompts renderStagePrompt asFile st cwd dk) ->
  d !! getStateFilePath cwd = Some (File (StateJson s)) ->
  currentStep s = prompts_generate ->
  continueCommand generate render asFile auto true answers now cwd d
  = promptsCommand renderStagePrompt asFile true None cwd d.
Proof.
  intros Hgen Hd Hs.
  rewrite (continueCommand_loaded generate render asFile auto true answers now cwd d s Hd)
    by (rewrite Hs; discriminate).
  unfold bind at 1. cbn [ret].
  unfold try_catch, bind at 1, generateStep.
  rewrite Hs.
  change (handles (getAgentForStep prompts_generate) prompts_generate) with true.
  cbv iota. rewrite Hgen.
  assert (Hcases : planStages s = None \/ planStages s = Some []
                   \/ exists all, planStages s = Some all /\ all <> []).
  { destruct (planStages s) as [[|a all']|]; [tauto| |tauto].
    right. right. exists (a :: all'). split; [reflexivity | discriminate]. }
  destruct Hcases as [Hnone | [Hnone | (all & Hall & Hne)]].
  - rewrite (generatePrompts_fails renderStagePrompt asFile s cwd d (or_introl Hnone)).
    rewrite (promptsCommand_loaded renderStagePrompt asFile true None cwd d s Hd).
    rewrite andb_false_r, Hnone. reflexivity.
  - rewrite (generatePrompts_fails renderStagePrompt asFile s cwd d (or_intror Hnone)).
    rewrite (promptsCommand_loaded renderStagePrompt asFile true None cwd d s Hd).
    rewrite andb_false_r, Hnone. reflexivity.
  - rewrite (promptsCommand_all renderStagePrompt asFile true cwd d s all Hd
               (or_intror eq_refl) Hall Hne).
    destruct (Prompt.generatePrompts renderStagePrompt asFile s cwd d)
      as [[[s' content]|e] dg] eqn:Hrun; [|reflexivity].
    apply generatePrompts_state in Hrun. subst s'.
    cbn [fst snd]. rewrite Hs.
    change (isCheckpoint prompts_generate) with false. cbv iota.
    unfold bind at 1. cbn [ret].
    change (getNextStep prompts_generate) with (Some complete). cbv iota.
    unfold bind at 1, bind at 1.
    destruct (saveState (set_currentStep complete s) cwd dg) as [[[]|e] d'];
      [|reflexivity].
    cbn [ret]. rewrite saveDocumentIfPhaseComplete_run. reflexivity.
Qed.

Lemma X29_continue_witness :
  let all := [demoStage 1 (js "first"); demoStage 2 (js "second")] in
  let s := withStages (Some all) prompts_generate in
  let d : Disk := projectWith (StateJson s) in
  continueCommand (fun _ st => Prompt.generatePrompts demoStagePrompt NotJson st demoCwd)
    demoRender NotJson false true (noAnswers true) (js "t1") demoCwd d
  = promptsCommand demoStagePrompt NotJson true None demoCwd d.
Proof.
  intros all s d.
  exact (X29_continue_at_prompts_is_prompts_command
           (fun _ st => Prompt.generatePrompts demoStagePrompt NotJson st demoCwd)
           demoRender demoStagePrompt NotJson false (noAnswers true) (js "t1") demoCwd d s
           (fun _ _ => eq_refl) (projectWith_record _) eq_refl).
Defined.

(* ===================================================================== *)
(** ** Truncation in the stage prompt template *)
(* ===================================================================== *)

Section Truncation.

Lemma trimStart_split (s : jsstring) :
  exists a, s = a ++ trimStart s /\ allWhiteSpace a.
Proof.
  induction s as [|c s IH]; [exists []; split; reflexivity|].
  cbn [trimStart]. destruct (isWhiteSpace c) eqn:E.
  - destruct IH as (a & Hs & Ha). exists (c :: a). split.
    + cbn [app]. f_equal. exact Hs.
    + unfold allWhiteSpace. cbn [forallb]. rewrite E. exact Ha.
  - exists []. split; reflexivity.
Qed.

Lemma trimEnd_split (s : jsstring) :
  exists b, s = trimEnd s ++ b /\ allWhiteSpace b.
Proof.
  unfold trimEnd. destruct (trimStart_split (rev s)) as (a & Hs & Ha).
  exists (rev a). split; [|apply allWhiteSpace_rev, Ha].
  rewrite <- rev_app_distr, <- Hs, rev_involutive. reflexivity.
Qed.

Lemma trim_split (s : jsstring) :
  exists a b, s = a ++ trim s ++ b /\ allWhiteSpace a /\ allWhiteSpace b.
Proof.
  unfold trim. destruct (trimStart_split s) as (a & Hs & Ha).
  destruct (trimEnd_split (trimStart s)) as (b & Ht & Hb).
  exists a, b. split; [|split; assumption].
  rewrite <- Ht. exact Hs.
Qed.

Lemma trim_length (s : jsstring) : (length (trim s) <= length s)%nat.
Proof.
  destruct (trim_split s) as (a & b & Hs & _).
  rewrite Hs at 2. rewrite !length_app. lia.
Qed.

Lemma trimStart_head (s : jsstring) (c : Z) (rest : jsstring) :
  trimStart s = c :: rest -> isWhiteSpace c = false.
Proof.
  induction s as [|x s IH]; [discriminate|]. cbn [trimStart].
  destruct (isWhiteSpace x) eqn:E; [exact IH|].
  intros H. injection H as <- _. exact E.
Qed.

Lemma trimEnd_last (s front : jsstring) (c : Z) :
  trimEnd s = front ++ [c] -> isWhiteSpace c = false.
Proof.
  unfold trimEnd. intros H. apply (f_equal (@rev Z)) in H.
  rewrite rev_involutive, rev_app_distr in H. exact (trimStart_head _ _ _ H).
Qed.

Lemma trim_noSpaceAround (s : jsstring) : noSpaceAround (trim s).
Proof.
  unfold noSpaceAround, trim. split.
  - intros c rest H. destruct (trimEnd_split (trimStart s)) as (b & Hs & _).
    rewrite H in Hs. exact (trimStart_head s c (rest ++ b) Hs).
  - intros front c H. exact (trimEnd_last _ _ _ H).
Qed.

End Truncation.

(** X30. truncateText keeps a text that is not longer than the limit. A
    longer text becomes a part of its first maxLength characters, without the
    white space around that part, followed by three dots: what is left out
    before and after the part is white space only, and the part itself neither
    starts nor ends with white space. The result has at most maxLength + 3
    characters, so it can be longer than the limit, and when the text is one
    or two characters over the limit and its first maxLength characters have
    no white space around them the result is longer than the text itself. *)
Theorem X30_truncateText_bounds (text : jsstring) (maxLength : nat) :
  ((length text <= maxLength)%nat -> truncateText text maxLength = text) /\
  ((maxLength < length text)%nat ->
   exists a kept b,
     truncateText text maxLength = kept ++ js "..." /\
     firstn maxLength text = a ++ kept ++ b /\
     allWhiteSpace a /\ allWhiteSpace b /\
     noSpaceAround kept /\
     (length (truncateText text maxLength) <= maxLength + 3)%nat) /\
  ((maxLength < length text <= maxLength + 2)%nat ->
   trim (firstn maxLength text) = firstn maxLength text ->
   (length text < length (truncateText text maxLength))%nat).
Proof.
  unfold truncateText. split; [|split].
  - intros H. apply Nat.leb_le in H. rewrite H. reflexivity.
  - intros H. apply Nat.leb_gt in H. rewrite H.
    destruct (trim_split (firstn maxLength text)) as (a & b & Hs & Ha & Hb).
    exists a, (trim (firstn maxLength text)), b.
    split; [reflexivity|]. split; [exact Hs|]. split; [exact Ha|]. split; [exact Hb|].
    split; [apply trim_noSpaceAround|].
    rewrite length_app. pose proof (trim_length (firstn maxLength text)) as Hl.
    pose proof (firstn_le_length maxLength text) as Hf.
    change (length (js "...")) with 3%nat. lia.
  - intros [Hlt Hle] Htrim. apply Nat.leb_gt in Hlt as Hb. rewrite Hb, Htrim.
    rewrite length_app, length_firstn. change (length (js "...")) with 3%nat. lia.
Qed.

Lemma X30_truncateText_witness :
  truncateText (js "abcdef") 5 = js "abcde..." /\
  (length (js "abcdef") < length (truncateText (js "abcdef") 5))%nat /\
  truncateText (js " ab  cdef") 5 = js "ab...".
Proof.
  split; [reflexivity|]. split; [|reflexivity].
  apply (proj2 (proj2 (X30_truncateText_bounds (js "abcdef") 5))).
  - cbn. lia.
  - reflexivity.
Defined.
